(** * Gantt tracker service: CSV reporting engine and task store.

    A shallow embedding of the JavaScript sources of the repository
    (the two router.js variants, server.js and serve.js) together with the
    properties of the natural-language specification that were checked
    against them.

    Conventions.  A JavaScript string is a [string]: a sequence of code
    units, here the code units below 256.  A plain object used as a row
    is a [gmap string cell].  Loops over the characters of a line are
    recursive functions over the part of the line not yet read.  An
    asynchronous call that reads the file system is a function of what
    the file system holds. *)

From Stdlib Require Import ZArith Ascii String List Bool Lia DecimalString.
From stdpp Require Import base option list strings gmap fin_maps.

Local Open Scope string_scope.
Local Open Scope list_scope.

#[local] Arguments String.append !_ _ / : simpl nomatch.
#[local] Set Warnings "-clear-no-such-hyp".

(** ** Characters and strings *)

Module Str.

(** The double quote and the comma, by code. *)
Definition dquote : ascii := ascii_of_nat 34.
Definition comma : ascii := ascii_of_nat 44.
Definition LF : ascii := ascii_of_nat 10.
Definition CR : ascii := ascii_of_nat 13.

Definition is_dquote (c : ascii) : bool := Ascii.eqb c dquote.
Definition is_comma (c : ascii) : bool := Ascii.eqb c comma.

(** [cur += ch] *)
Definition push_char (cur : string) (ch : ascii) : string :=
  cur +:+ String ch "".

(** WhiteSpace and LineTerminator code units below 256, the ones
    String.prototype.trim removes: TAB, LF, VT, FF, CR, SP, NBSP. *)
Definition isWhiteSpace (c : ascii) : bool :=
  match nat_of_ascii c with
  | 9 | 10 | 11 | 12 | 13 | 32 | 160 => true
  | _ => false
  end.

Fixpoint trimStart (s : string) : string :=
  match s with
  | "" => ""
  | String c r => if isWhiteSpace c then trimStart r else s
  end.

Fixpoint trimEnd (s : string) : string :=
  match s with
  | "" => ""
  | String c r =>
      match trimEnd r with
      | "" => if isWhiteSpace c then "" else String c ""
      | r' => String c r'
      end
  end.

(** [s.trim()] *)
Definition trim (s : string) : string := trimEnd (trimStart s).

(** [s.length] as a truth value: [!!s.length], also [!!s]. *)
Definition nonEmpty (s : string) : bool :=
  match s with "" => false | _ => true end.

(** [s.startsWith(p)] *)
Fixpoint startsWith (p s : string) : bool :=
  match p, s with
  | "", _ => true
  | String a p', String b s' => Ascii.eqb a b && startsWith p' s'
  | String _ _, "" => false
  end.

(** [s.endsWith(p)] *)
Definition endsWith (p s : string) : bool :=
  let n := String.length s in
  let k := String.length p in
  (k <=? n)%nat && String.eqb (substring (n - k) k s) p.

(** [s.toLowerCase()], on the letters A to Z: what the test of the
    suffix .csv needs, no other code unit below 256 lowers to one of
    its letters. *)
Definition lowerChar (c : ascii) : ascii :=
  let n := nat_of_ascii c in
  if ((65 <=? n) && (n <=? 90))%nat then ascii_of_nat (n + 32) else c.

Fixpoint toLowerCase (s : string) : string :=
  match s with
  | "" => ""
  | String c r => String (lowerChar c) (toLowerCase r)
  end.

(** [xs.join(sep)] *)
Fixpoint join (sep : string) (xs : list string) : string :=
  match xs with
  | [] => ""
  | [x] => x
  | x :: rest => x +:+ sep +:+ join sep rest
  end.

End Str.

Import Str.

(** ** CsvLineSplitter: [splitCsvLine] of the reporting router *)

Module Splitter.

(** The body of the [for] loop of [splitCsvLine].  [rest] is the line
    from index [i] on, so [line[i + 1]] is the head of the tail of
    [rest]; [i++] inside the body drops one more character. *)
Fixpoint splitLoop (rest : string) (out : list string) (cur : string)
    (inQ : bool) : list string :=
  match rest with
  | "" => out ++ [cur]
  | String ch rest' =>
      if is_dquote ch then
        match inQ, rest' with
        | true, String nx rest'' =>
            if is_dquote nx
            then splitLoop rest'' out (push_char cur dquote) inQ
            else splitLoop rest' out cur (negb inQ)
        | _, _ => splitLoop rest' out cur (negb inQ)
        end
      else if is_comma ch && negb inQ then splitLoop rest' (out ++ [cur]) "" inQ
      else splitLoop rest' out (push_char cur ch) inQ
  end.

Definition splitCsvLine (line : string) : list string :=
  splitLoop line [] "" false.

End Splitter.

Import Splitter.

(** ** JavaScript numbers: [Number(s)], [Number.isFinite] and [String(n)]

    The Number type is IEEE 754 binary64.  A finite value is kept as a
    sign, an integer significand [m] and a binary exponent [e], standing
    for [m * 2^e], in canonical form: zero and subnormals have
    [e = -1074] and [m < 2^52], normal values have
    [2^52 <= m < 2^53] and [-1074 <= e <= 971]. *)

Module JsNumber.

Local Open Scope Z_scope.

Inductive number : Type :=
| NaN
| Infinity (neg : bool)
| Finite (neg : bool) (m : Z) (e : Z).

#[global] Instance number_eq_dec : EqDecision number.
Proof. solve_decision. Defined.

(** [Number.isFinite(num)] *)
Definition isFinite (x : number) : bool :=
  match x with Finite _ _ _ => true | _ => false end.

(** *** Rounding a non-negative rational [p / q] to the nearest double,
    ties to even. *)

(** For [p, q > 0], the [e] with [2^e <= p / q < 2^(e + 1)]. *)
Definition floorLog2Ratio (p q : Z) : Z :=
  let e0 := Z.log2 p - Z.log2 q in
  let below := if 0 <=? e0 then p <? q * 2 ^ e0 else p * 2 ^ (- e0) <? q in
  if below then e0 - 1 else e0.

(** Numerator and denominator of [p / (q * 2^e)]. *)
Definition scaled (p q e : Z) : Z * Z :=
  if 0 <=? e then (p, q * 2 ^ e) else (p * 2 ^ (- e), q).

Definition roundHalfEven (num den : Z) : Z :=
  let m0 := num / den in
  match 2 * (num mod den) ?= den with
  | Lt => m0
  | Gt => m0 + 1
  | Eq => if Z.even m0 then m0 else m0 + 1
  end.

Definition roundToDouble (neg : bool) (p q : Z) : number :=
  if p =? 0 then Finite neg 0 (-1074) else
  let e := Z.max (floorLog2Ratio p q - 52) (-1074) in
  let '(num, den) := scaled p q e in
  let m := roundHalfEven num den in
  let '(m', e') := if m =? 2 ^ 53 then (2 ^ 52, e + 1) else (m, e) in
  if 971 <? e' then Infinity neg else Finite neg m' e'.

(** The double nearest to [d * 10^t]. *)
Definition ofDecimal (neg : bool) (d t : Z) : number :=
  if 0 <=? t then roundToDouble neg (d * 10 ^ t) 1
  else roundToDouble neg d (10 ^ (- t)).

(** *** StringToNumber *)

Definition digitOf (base : Z) (c : ascii) : option Z :=
  let n := Z.of_nat (nat_of_ascii c) in
  let v := if (48 <=? n) && (n <=? 57) then n - 48
           else if (97 <=? n) && (n <=? 102) then n - 87
           else if (65 <=? n) && (n <=? 70) then n - 55
           else base in
  if v <? base then Some v else None.

(** Reads the longest run of digits of [base] at the head of [s]:
    the value read on top of [acc], the number of digits, the rest. *)
Fixpoint readDigits (base : Z) (s : string) (acc : Z) (count : Z)
    : Z * Z * string :=
  match s with
  | EmptyString => (acc, count, s)
  | String c r =>
      match digitOf base c with
      | Some v => readDigits base r (acc * base + v) (count + 1)
      | None => (acc, count, s)
      end
  end.

(** A NonDecimalIntegerLiteral body: one digit at least, nothing after. *)
Definition ofRadixDigits (base : Z) (s : string) : number :=
  match readDigits base s 0 0 with
  | (v, count, EmptyString) =>
      if 0 <? count then roundToDouble false v 1 else NaN
  | _ => NaN
  end.

(** A sign, if one is there. *)
Definition readSign (s : string) : bool * string :=
  match s with
  | String "-" r => (true, r)
  | String "+" r => (false, r)
  | _ => (false, s)
  end.

(** ExponentPart_opt at the end of the literal: the exponent, or
    [None] when what is there is not an exponent part. *)
Definition readExponent (s : string) : option Z :=
  match s with
  | EmptyString => Some 0
  | String c r =>
      if Ascii.eqb c "e" || Ascii.eqb c "E" then
        let '(neg, r') := readSign r in
        match readDigits 10 r' 0 0 with
        | (v, count, EmptyString) =>
            if 0 <? count then Some (if neg then - v else v) else None
        | _ => None
        end
      else None
  end.

(** StrUnsignedDecimalLiteral, [Infinity] apart. *)
Definition ofUnsignedDecimal (neg : bool) (s : string) : number :=
  let '(ip, icount, r1) := readDigits 10 s 0 0 in
  let '(d, fcount, dot, r2) :=
    match r1 with
    | String "." r =>
        let '(d, fcount, r2) := readDigits 10 r ip 0 in (d, fcount, true, r2)
    | _ => (ip, 0, false, r1)
    end in
  if (0 <? icount) || (dot && (0 <? fcount)) then
    match readExponent r2 with
    | Some ex => ofDecimal neg d (ex - fcount)
    | None => NaN
    end
  else NaN.

Definition ofStrDecimalLiteral (s : string) : number :=
  let '(neg, r) := readSign s in
  if String.eqb r "Infinity" then Infinity neg else ofUnsignedDecimal neg r.

(** [Number(s)] for a string [s]. *)
Definition Number (s : string) : number :=
  match trim s with
  | EmptyString => Finite false 0 (-1074)
  | String "0" (String c r) as t =>
      if Ascii.eqb c "x" || Ascii.eqb c "X" then ofRadixDigits 16 r
      else if Ascii.eqb c "o" || Ascii.eqb c "O" then ofRadixDigits 8 r
      else if Ascii.eqb c "b" || Ascii.eqb c "B" then ofRadixDigits 2 r
      else ofStrDecimalLiteral t
  | t => ofStrDecimalLiteral t
  end.

(** *** Number::toString, radix 10 *)

(** Decimal digits of a non-negative integer. *)
Definition decimal (z : Z) : string :=
  NilZero.string_of_uint (N.to_uint (Z.to_N z)).

(** [n] zeros. *)
Definition zeros (n : Z) : string :=
  string_of_list_ascii (repeat "0"%char (Z.to_nat n)).

(** Number of decimal digits of [z >= 1], for a [fuel] above that
    number. *)
Fixpoint numDigits (fuel : nat) (z : Z) : Z :=
  match fuel with
  | O => 1
  | S f => if z <? 10 then 1 else 1 + numDigits f (z / 10)
  end.

(** For [0 < p < q], the least [j >= 1] with [q <= p * 10^j]. *)
Fixpoint leadShift (fuel : nat) (p q j : Z) : Z :=
  match fuel with
  | O => j
  | S f => if q <=? p * 10 then j else leadShift f (p * 10) q (j + 1)
  end.

(** For [p, q > 0], the [n] with [10^(n-1) <= p / q < 10^n]. *)
Definition decimalExponent (p q : Z) : Z :=
  if q <=? p
  then numDigits (S (Z.to_nat (Z.log2 p))) (p / q)
  else 1 - leadShift (S (Z.to_nat (Z.log2 q))) p q 1.

(** The candidates with [k] digits for the positive double [x = p / q]
    whose decimal exponent is [n]: the two integers [s] next to
    [x * 10^(k-n)], kept when [s * 10^(n-k)] rounds to [x]; of two,
    the nearer to [x], and the even one when they are as near. *)
Definition candidate (x : number) (p q n k : Z) : option (Z * Z) :=
  let '(num, den) :=
    if 0 <=? k - n then (p * 10 ^ (k - n), q) else (p, q * 10 ^ (n - k)) in
  let lo := num / den in
  let hi := lo + 1 in
  let carry '(s, n') := if s =? 10 ^ k then (10 ^ (k - 1), n' + 1) else (s, n') in
  let ok '(s, n') := bool_decide (ofDecimal false s (n' - k) = x) in
  let clo := (lo, n) in
  let chi := carry (hi, n) in
  match ok clo, ok chi with
  | true, false => Some clo
  | false, true => Some chi
  | false, false => None
  | true, true =>
      match 2 * (num mod den) ?= den with
      | Lt => Some clo
      | Gt => Some chi
      | Eq => if Z.even lo then Some clo else Some chi
      end
  end.

(** The least [k] from [k] on that has a candidate.  Seventeen digits
    tell any two doubles apart, so the rounds do not run out. *)
Fixpoint shortest (fuel : nat) (x : number) (p q n k : Z) : Z * Z * Z :=
  match fuel with
  | O => (k, p * 10 ^ (k - n) / q, n)
  | S f =>
      match candidate x p q n k with
      | Some (s, n') => (k, s, n')
      | None => shortest f x p q n (k + 1)
      end
  end.

(** The text for the digits [s] ([k] of them) and the exponent [n]. *)
Definition layout (k s n : Z) : string :=
  let digits := decimal s in
  if (k <=? n) && (n <=? 21) then digits +:+ zeros (n - k)
  else if (0 <? n) && (n <=? 21) then
    substring 0 (Z.to_nat n) digits +:+ "." +:+
    substring (Z.to_nat n) (Z.to_nat (k - n)) digits
  else if (-6 <? n) && (n <=? 0) then "0." +:+ zeros (- n) +:+ digits
  else
    let ex := (if n - 1 <? 0 then "-" else "+") +:+ decimal (Z.abs (n - 1)) in
    if k =? 1 then digits +:+ "e" +:+ ex
    else substring 0 1 digits +:+ "." +:+
         substring 1 (Z.to_nat (k - 1)) digits +:+ "e" +:+ ex.

(** [String(x)] for a Number [x]. *)
Definition toString (x : number) : string :=
  match x with
  | NaN => "NaN"
  | Infinity neg => if neg then "-Infinity" else "Infinity"
  | Finite neg m e =>
      if m =? 0 then "0" else
      let '(p, q) := scaled m 1 (- e) in
      let n := decimalExponent p q in
      let '(k, s, n') := shortest 17 (Finite false m e) p q n 1 in
      (if neg then "-" else "") +:+ layout k s n'
  end.

End JsNumber.

Import JsNumber.

(** ** CsvTableParser: [parseCsvText] of the reporting router *)

Module Parser.

(** A cell of a row: the raw text, or a Number. *)
Inductive cell : Type :=
| CStr (s : string)
| CNum (n : number).

#[global] Instance cell_eq_dec : EqDecision cell.
Proof. solve_decision. Defined.

(** A row is the plain object [{}] filled by assignments. *)
Abbreviation row := (gmap string cell).

Record table : Type := Table {
  columns : list string;
  rows : list row;
}.

(** [row[k] = v] on an object made by [{}], for a string or a number
    [v].  Every key becomes an own property, but [__proto__]: that one
    is an accessor inherited from [Object.prototype], and its setter
    does nothing when the value is neither an object nor [null]. *)
Definition setProp (r : row) (k : string) (v : cell) : row :=
  if String.eqb k "__proto__" then r else <[k := v]> r.

(** [Object.keys(row)], in some order; [retype_order] shows the order
    does not matter to the loop that reads it. *)
Definition keys (r : row) : list string := (map_to_list r).*1.

(** The first [replace]: every CR LF becomes LF. *)
Fixpoint replaceCRLF (s : string) : string :=
  match s with
  | "" => ""
  | String c r =>
      match r with
      | String c' r' =>
          if Ascii.eqb c CR && Ascii.eqb c' LF
          then String LF (replaceCRLF r')
          else String c (replaceCRLF r)
      | "" => String c ""
      end
  end.

(** The second [replace]: every CR left becomes LF. *)
Fixpoint replaceCR (s : string) : string :=
  match s with
  | "" => ""
  | String c r => String (if Ascii.eqb c CR then LF else c) (replaceCR r)
  end.

(** The [split] at LF: the text between the line feeds, one piece more
    than there are line feeds. *)
Fixpoint splitLF (s : string) : list string :=
  match s with
  | "" => [""]
  | String c r =>
      if Ascii.eqb c LF then "" :: splitLF r
      else match splitLF r with
           | [] => [String c ""]
           | hd :: tl => String c hd :: tl
           end
  end.

(** The lines kept: [.filter((x) => x.trim().length)]. *)
Definition keptLines (csvText : string) : list string :=
  List.filter (λ x, nonEmpty (trim x))
    (splitLF (replaceCR (replaceCRLF csvText))).

(** The loop over [c] that assigns [parts[c]], or the empty string
    when [parts[c]] is undefined, to [row[columns[c]]]; from index [c]
    on, with [cols] the columns from [c] on. *)
Fixpoint fillRow (cols : list string) (c : nat) (parts : list string)
    (r : row) : row :=
  match cols with
  | [] => r
  | col :: cols' =>
      fillRow cols' (S c) parts (setProp r col (CStr (default "" (parts !! c))))
  end.

(** The test of the typing loop on a value [raw] read from the row.
    [Number(raw)] and [String(raw)] of a Number are that Number and
    its text. *)
Definition numericOf (raw : cell) : option number :=
  match raw with
  | CStr s =>
      let num := Number s in
      if nonEmpty s && isFinite num && String.eqb (trim s) (toString num)
      then Some num else None
  | CNum n =>
      if isFinite n && String.eqb (trim (toString n)) (toString n)
      then Some n else None
  end.

(** One round of [for (const k of Object.keys(row))]. *)
Definition retypeKey (r : row) (k : string) : row :=
  match r !! k with
  | Some raw =>
      match numericOf raw with
      | Some num => setProp r k (CNum num)
      | None => r
      end
  | None => r
  end.

Definition retype (ks : list string) (r : row) : row := foldl retypeKey r ks.

(** The body of the loop over the data lines. *)
Definition parseRow (columns : list string) (line : string) : row :=
  let parts := splitCsvLine line in
  let r := fillRow columns 0 parts ∅ in
  retype (keys r) r.

Definition parseCsvText (csvText : string) : table :=
  match keptLines csvText with
  | [] => Table [] []
  | header :: data =>
      let columns := map trim (splitCsvLine header) in
      Table columns (map (parseRow columns) data)
  end.

(** The value a raw field ends as. *)
Definition classify (raw : string) : cell :=
  match numericOf (CStr raw) with
  | Some num => CNum num
  | None => CStr raw
  end.

End Parser.

Import Parser.

(** ** Paths: [path.join] and [path.normalize] of Node, POSIX flavour *)

Module Path.

Definition slash : ascii := ascii_of_nat 47.

(** The text between the slashes of a path. *)
Fixpoint segments (p : string) : list string :=
  match p with
  | "" => [""]
  | String c r =>
      if Ascii.eqb c slash then "" :: segments r
      else match segments r with
           | [] => [String c ""]
           | hd :: tl => String c hd :: tl
           end
  end.

(** One segment read by [normalizeString]; [res] is the result so far,
    last segment first.  Empty segments and [.] are dropped, [..]
    removes the segment before it, and is kept only where a relative
    path climbs above its start. *)
Definition normalizeStep (allowAboveRoot : bool) (res : list string)
    (seg : string) : list string :=
  if String.eqb seg "" || String.eqb seg "." then res
  else if String.eqb seg ".." then
    match res with
    | prev :: before =>
        if String.eqb prev ".." then seg :: res else before
    | [] => if allowAboveRoot then [seg] else []
    end
  else seg :: res.

Definition normalizeSegments (allowAboveRoot : bool) (segs : list string)
    : list string :=
  rev (foldl (normalizeStep allowAboveRoot) [] segs).

Definition isAbsolute (p : string) : bool :=
  match p with String c _ => Ascii.eqb c slash | "" => false end.

Definition trailingSeparator (p : string) : bool :=
  match last (segments p) with Some "" => nonEmpty p | _ => false end.

(** [path.normalize(p)] *)
Definition normalize (p : string) : string :=
  if negb (nonEmpty p) then "." else
  let abs := isAbsolute p in
  let body := join "/" (normalizeSegments (negb abs) (segments p)) in
  if negb (nonEmpty body) then
    (if abs then "/" else if trailingSeparator p then "./" else ".")
  else
    let body' := if trailingSeparator p then body +:+ "/" else body in
    if abs then "/" +:+ body' else body'.

(** [path.join(a, b)]: the arguments that are not empty, joined by a
    slash and normalized. *)
Definition join2 (a b : string) : string :=
  match nonEmpty a, nonEmpty b with
  | true, true => normalize (a +:+ "/" +:+ b)
  | true, false => normalize a
  | false, true => normalize b
  | false, false => "."
  end.

(** The segments of a normalized absolute path. *)
Definition parts (p : string) : list string :=
  normalizeSegments false (segments p).

(** [p] lies below the directory [dir]: the segments of [dir] are the
    first segments of [p], and [p] has more. *)
Definition below (dir p : string) : Prop :=
  ∃ more, more ≠ [] ∧ parts p = parts dir ++ more.

#[global] Instance below_dec dir p : Decision (below dir p).
Proof.
  refine (cast_if (decide (take (length (parts dir)) (parts p) = parts dir
                           ∧ drop (length (parts dir)) (parts p) ≠ []))).
  - destruct a as [Ht Hd]. exists (drop (length (parts dir)) (parts p)).
    split; [done |]. by rewrite <- Ht at 1; rewrite take_drop.
  - intros (more & Hm & Hp). apply n. rewrite Hp. split.
    + by rewrite take_app_length.
    + by rewrite drop_app_length.
Defined.

End Path.

(** ** ReportAggregator: [loadCombinedCsvs] of the reporting router *)

Module Report.

(** What [fs.readdir] with file types finds under a name: a regular
    file with its text, a directory with its entries in listing order,
    or something that is neither (a link, a socket, a device).  A
    tree of nodes is a part of the file system that can be read: every
    directory of it is listed and every file of it is read.  A
    rejection of [fs.readdir] or [fs.readFile] below the base
    directory has no place in it. *)
#[warnings="-register-all"]
Inductive node : Type :=
| File (text : string)
| Dir (entries : list (string * node))
| Special.

Definition isDirectory (n : node) : bool :=
  match n with Dir _ => true | _ => false end.

Definition isFile (n : node) : bool :=
  match n with File _ => true | _ => false end.

(** The failures of the aggregate operation, by the message thrown. *)
Inductive error : Type :=
| StatFailed          (* fs.stat rejects: nothing at baseDir *)
| NotADirectory       (* baseDir is not a directory *)
| NoMatch             (* No subdirectories matched startKeyword *)
| NoCsvFiles.         (* No csv files found under matched subdirectories *)

(** [listImmediateSubdirs]: the names of the entries that are
    directories. *)
Definition listImmediateSubdirs (entries : list (string * node)) : list string :=
  (List.filter (λ e, isDirectory e.2) entries).*1.

(** [walkCsvFiles(dirPath, outFiles)] on the entries of [dirPath].
    A path pushed to [outFiles] is kept with the text that
    [fs.readFile] gives for it afterwards. *)
Fixpoint visit (full name : string) (n : node)
    (outFiles : list (string * string)) : list (string * string) :=
  match n with
  | Dir entries =>
      foldl (λ out e, visit (Path.join2 full e.1) e.1 e.2 out) outFiles entries
  | File text =>
      if endsWith ".csv" (toLowerCase name)
      then outFiles ++ [(full, text)] else outFiles
  | Special => outFiles
  end.

Definition walkCsvFiles (dirPath : string) (entries : list (string * node))
    (outFiles : list (string * string)) : list (string * string) :=
  foldl (λ out e, visit (Path.join2 dirPath e.1) e.1 e.2 out) outFiles entries.

(** [colSet.add(c)] on a Set kept in insertion order. *)
Definition setAdd (colSet : list string) (c : string) : list string :=
  if bool_decide (c ∈ colSet) then colSet else colSet ++ [c].

(** One round of the loop over [csvFiles]. *)
Definition mergeFile (acc : list string * list row) (text : string)
    : list string * list row :=
  let parsed := parseCsvText text in
  (foldl setAdd acc.1 (columns parsed), acc.2 ++ rows parsed).

Definition mergeFiles (texts : list string) : list string * list row :=
  foldl mergeFile ([], []) texts.

Record meta : Type := Meta {
  baseDir : string;
  startKeyword : string;
  matchedFolders : list string;
  csvCount : nat;
  rowCount : nat;
  colCount : nat;
}.

Record report : Type := MkReport {
  headers : list string;
  allRows : list row;
  info : meta;
}.

(** The trimmed keyword when [startKeyword] is a string, the empty
    string otherwise; a keyword that is not a string is [None]. *)
Definition keyOf (startKeyword : option string) : string :=
  match startKeyword with Some s => trim s | None => "" end.

(** [key ? subdirs.filter((d) => d.startsWith(key)) : subdirs] *)
Definition matchFolders (subdirs : list string) (key : string) : list string :=
  if nonEmpty key then List.filter (startsWith key) subdirs else subdirs.

(** The directory of a matched folder, found again by name. *)
Definition entriesOf (entries : list (string * node)) (dirName : string)
    : list (string * node) :=
  match List.find (λ e, String.eqb e.1 dirName && isDirectory e.2) entries with
  | Some (_, Dir sub) => sub
  | _ => []
  end.

(** [base] is what [fs.stat(baseDir)] finds, if anything.  The four
    errors are those that the function throws itself and that of
    [fs.stat]; where [fs.readdir] or [fs.readFile] rejects, the
    function rejects with that error, which no tree of nodes gives. *)
Definition loadCombinedCsvs (baseDir : string) (base : option node)
    (startKeyword : option string) : error + report :=
  match base with
  | None => inl StatFailed
  | Some (Dir entries) =>
      let subdirs := listImmediateSubdirs entries in
      let key := keyOf startKeyword in
      let matched := matchFolders subdirs key in
      if bool_decide (matched = []) then inl NoMatch else
      let csvFiles :=
        foldl (λ out dirName,
                 walkCsvFiles (Path.join2 baseDir dirName)
                   (entriesOf entries dirName) out) [] matched in
      if bool_decide (csvFiles = []) then inl NoCsvFiles else
      let '(colSet, rs) := mergeFiles csvFiles.*2 in
      inr (MkReport colSet rs
             (Meta baseDir key matched (length csvFiles) (length rs)
                (length colSet)))
  | Some _ => inl NotADirectory
  end.

(** The deduplicated, first-seen-order union of the specification. *)
Fixpoint firstSeen (l : list string) : list string :=
  match l with
  | [] => []
  | x :: l' => x :: filter (λ y, y ≠ x) (firstSeen l')
  end.

End Report.

Import Report.

(** ** The tracker server: tasks and column inspection

    server.js (one file, [handleApiTasks], [handleApiColumns]) and the
    later router.js ([handleTasks], [handleColumns]) serve the same
    endpoints. *)

Module Tracker.

(** A JSON value. *)
#[warnings="-register-all"]
Inductive jsval : Type :=
| JNull
| JBool (b : bool)
| JNum (n : number)
| JStr (s : string)
| JArr (items : list jsval)
| JObj (members : list (string * jsval)).

(** [Array.isArray(data)] *)
Definition isArray (v : jsval) : bool :=
  match v with JArr _ => true | _ => false end.

(** A text as [JSON.parse] sees it: the empty text (which the handlers
    replace by the text of the empty array before parsing), a text that
    is not JSON, or the text of a value.  [JSON.stringify(v, null, 2)]
    is a [TextOf v]. *)
Inductive jsonText : Type :=
| EmptyText
| Malformed
| TextOf (v : jsval).

(** [JSON.parse] of the text, or of the text of the empty array when
    the text is empty; [None] when it throws. *)
Definition parseOrEmptyArray (text : jsonText) : option jsval :=
  match text with
  | EmptyText => Some (JArr [])
  | Malformed => None
  | TextOf v => Some v
  end.

Inductive method : Type := GET | PUT | POST | DELETE.

(** [sendJson(res, code, obj)] *)
Record reply : Type := Reply { code : nat; payload : jsval }.

Definition errorReply (code : nat) (msg : string) : reply :=
  Reply code (JObj [("error", JStr msg)]).

(** *** /api/tasks

    What [fs.readFile] finds for the task document: no file, a read
    error, or a text. *)
Inductive taskFile : Type :=
| NoFile
| Unreadable
| FileText (text : jsonText).

(** The answer of a handler, [None] when nothing is sent (an exception
    escapes the callback, or the connection is dropped); and the text
    it passed to [fs.writeFile] for the task document, if it did.
    [writeFails] tells whether that write ends in an error. *)
Definition outcome : Type := option reply * option jsonText.

(** router.js, [handleTasks]. *)
Definition handleTasks (m : method) (file : taskFile) (writeFails : bool)
    (body : jsonText) : outcome :=
  match m with
  | GET =>
      (match file with
       | NoFile => Some (Reply 200 (JArr []))
       | Unreadable => Some (errorReply 500 "read fail")
       | FileText txt =>
           match parseOrEmptyArray txt with
           | Some v => Some (Reply 200 v)
           | None => None
           end
       end, None)
  | PUT =>
      match parseOrEmptyArray body with
      | None => (Some (errorReply 400 "invalid json"), None)
      | Some data =>
          if negb (isArray data)
          then (Some (errorReply 400 "must be array"), None)
          else
            (Some (if writeFails then errorReply 500 "write fail"
                   else Reply 200 (JObj [("ok", JBool true)])),
             Some (TextOf data))
      end
  | _ => (Some (errorReply 405 "method not allowed"), None)
  end.

(** The size of a body above which server.js drops the connection. *)
Definition bodyLimit : N := (5 * 1024 * 1024)%N.

(** The [data] events of the PUT of server.js: [sizes] are the lengths
    of the chunks in the order they come, [soFar] that of the body so
    far.  The result tells whether the body grows above the limit at
    some chunk, where the handler destroys the connection; the request
    then never ends, nothing is answered and nothing is written. *)
Fixpoint dropped (sizes : list N) (soFar : N) : bool :=
  match sizes with
  | [] => false
  | size :: rest =>
      let soFar := (soFar + size)%N in
      (bodyLimit <? soFar)%N || dropped rest soFar
  end.

(** server.js, [handleApiTasks]; [sizes] are the lengths of the chunks
    of the body and [body] is the text they make. *)
Definition handleApiTasks (m : method) (file : taskFile) (writeFails : bool)
    (sizes : list N) (body : jsonText) : outcome :=
  match m with
  | GET =>
      (match file with
       | NoFile => Some (Reply 200 (JArr []))
       | Unreadable => Some (errorReply 500 "Failed to read projectTasks.json")
       | FileText content =>
           match parseOrEmptyArray content with
           | Some json => Some (Reply 200 json)
           | None => Some (errorReply 500 "Invalid JSON in projectTasks.json")
           end
       end, None)
  | PUT =>
      if dropped sizes 0 then (None, None) else
      match parseOrEmptyArray body with
      | Some data =>
          if negb (isArray data)
          then (Some (errorReply 400 "Body must be an array"), None)
          else
            (Some (if writeFails
                   then errorReply 500 "Failed to write projectTasks.json"
                   else Reply 200 (JObj [("ok", JBool true)])),
             Some (TextOf data))
      | None => (Some (errorReply 400 "Invalid JSON in request body"), None)
      end
  | _ => (Some (errorReply 405 "Method not allowed"), None)
  end.

(** The task document after the handler ran.  Without a write it is
    what it was, and a write that succeeds replaces it.  Both handlers
    write the document in place, so a write that fails leaves what it
    leaves: [left], which can be the old document, a part of the new
    text, or nothing. *)
Definition storedAfter (writeFails : bool) (left file : taskFile)
    (written : option jsonText) : taskFile :=
  match written with
  | Some text => if writeFails then left else FileText text
  | None => file
  end.

(** *** The header parsers *)

(** The [replace] of the header parsers: one pair of double quotes
    around the whole text is removed when no line terminator stands
    between them. *)
Definition isLineTerminator (c : ascii) : bool :=
  Ascii.eqb c LF || Ascii.eqb c CR.

Fixpoint unquoteRest (s : string) : option string :=
  match s with
  | "" => None
  | String c r =>
      match r with
      | "" => if is_dquote c then Some "" else None
      | _ =>
          if isLineTerminator c then None
          else match unquoteRest r with
               | Some m => Some (String c m)
               | None => None
               end
      end
  end.

Definition stripQuotes (s : string) : string :=
  match s with
  | String c r =>
      if is_dquote c then default s (unquoteRest r) else s
  | "" => s
  end.

(** server.js, [parseCsvHeader]: the loop from index [i] on. *)
Fixpoint headerLoop (rest : string) (result : list string) (current : string)
    (inQuotes : bool) : list string :=
  match rest with
  | "" =>
      if nonEmpty current
      then result ++ [stripQuotes (trim current)] else result
  | String ch rest' =>
      if is_dquote ch then headerLoop rest' result current (negb inQuotes)
      else if is_comma ch && negb inQuotes
      then headerLoop rest' (result ++ [stripQuotes (trim current)]) "" inQuotes
      else headerLoop rest' result (push_char current ch) inQuotes
  end.

Definition parseCsvHeader_server (line : string) : list string :=
  headerLoop line [] "" false.

(** router.js, [parseCsvHeader]: the fields are trimmed in the loop and
    the quotes stripped afterwards, by [out.map]. *)
Fixpoint headerLoop' (rest : string) (out : list string) (cur : string)
    (q : bool) : list string :=
  match rest with
  | "" => if nonEmpty cur then out ++ [trim cur] else out
  | String ch rest' =>
      if is_dquote ch then headerLoop' rest' out cur (negb q)
      else if is_comma ch && negb q
      then headerLoop' rest' (out ++ [trim cur]) "" q
      else headerLoop' rest' out (push_char cur ch) q
  end.

Definition parseCsvHeader (line : string) : list string :=
  map stripQuotes (headerLoop' line [] "" false).

(** *** GET /api/columns *)

(** What [fs.readFile] calls back with. *)
Inductive readResult : Type :=
| Content (text : string)
| ENOENT
| ReadError.

(** [text.split(/\r?\n/)]: the pieces between line feeds, without the
    CR that stands right before a line feed. *)
Fixpoint splitLines (s : string) : list string :=
  match s with
  | "" => [""]
  | String c r =>
      if Ascii.eqb c LF then "" :: splitLines r
      else match r with
           | String c' r' =>
               if Ascii.eqb c CR && Ascii.eqb c' LF then "" :: splitLines r'
               else match splitLines r with
                    | [] => [String c ""]
                    | hd :: tl => String c hd :: tl
                    end
           | "" => [String c ""]
           end
  end.

Definition fieldsReply (fields : list string) : reply :=
  Reply 200 (JArr (map JStr fields)).

Section Columns.

(** [__dirname], and the file system as [fs.readFile] sees it. *)
Variable dirname : string.
Variable readFile : string → readResult.

Definition DATA_DIR : string := Path.join2 dirname "data".

(** The handler's answer, and the paths it passed to [fs.readFile]. *)

(** router.js, [handleColumns].  [flow] is [q.flow]; a missing
    parameter is [None]. *)
Definition handleColumns (m : method) (flow : option string)
    : reply * list string :=
  match m with
  | GET =>
      match flow with
      | None | Some "" => (errorReply 400 "missing flow", [])
      | Some flow =>
          let file := Path.join2 DATA_DIR (flow +:+ ".csv") in
          (match readFile file with
           | ENOENT => errorReply 404 "not found"
           | ReadError => errorReply 500 "read fail"
           | Content txt =>
               match List.find (λ l, nonEmpty (trim l)) (splitLines txt) with
               | Some first => fieldsReply (parseCsvHeader first)
               | None => fieldsReply []
               end
           end, [file])
      end
  | _ => (errorReply 405 "method not allowed", [])
  end.

(** server.js, [handleApiColumns]. *)
Definition handleApiColumns (m : method) (flow : option string)
    : reply * list string :=
  match m with
  | GET =>
      match flow with
      | None | Some "" => (errorReply 400 "Missing flow query parameter", [])
      | Some flow =>
          let csvPath := Path.join2 DATA_DIR (flow +:+ ".csv") in
          let safePath := Path.normalize csvPath in
          if negb (startsWith DATA_DIR safePath)
          then (errorReply 400 "Invalid flow name", [])
          else
            (match readFile safePath with
             | ENOENT =>
                 errorReply 404 ("CSV file not found for flow " +:+ flow)
             | ReadError => errorReply 500 "Failed to read CSV file"
             | Content content =>
                 match List.filter nonEmpty (map trim (splitLines content)) with
                 | [] => fieldsReply []
                 | first :: _ => fieldsReply (parseCsvHeader_server first)
                 end
             end, [safePath])
      end
  | _ => (errorReply 405 "Method not allowed", [])
  end.

End Columns.

End Tracker.

Import Tracker.

(** ** File names: [path.extname] and [path.basename] of Node, POSIX
    flavour *)

Module PathName.

Local Open Scope Z_scope.

Definition dot : ascii := ascii_of_nat 46.
Definition is_slash (c : ascii) : bool := Ascii.eqb c Path.slash.
Definition is_dot (c : ascii) : bool := Ascii.eqb c dot.

(** [path.slice(from, to)] for indices inside the path. *)
Definition slice (path : string) (from to : Z) : string :=
  substring (Z.to_nat from) (Z.to_nat (to - from)) path.

(** The variables of the loop of [extname]. *)
Record extState : Type := ExtState {
  startDot : Z;
  startPart : Z;
  extEnd : Z;
  matchedSlash : bool;
  preDotState : Z;
}.

(** The loop of [extname], from index [i] down; [chars] holds the
    characters at [i], [i - 1], ... in this order.  A [break] ends
    the recursion. *)
Fixpoint extLoop (chars : list ascii) (i : Z) (st : extState) : extState :=
  match chars with
  | [] => st
  | char :: before =>
      if is_slash char then
        if negb (matchedSlash st)
        then ExtState (startDot st) (i + 1) (extEnd st) (matchedSlash st)
               (preDotState st)
        else extLoop before (i - 1) st
      else
        let st1 :=
          if extEnd st =? -1
          then ExtState (startDot st) (startPart st) (i + 1) false
                 (preDotState st)
          else st in
        let st2 :=
          if is_dot char then
            if startDot st1 =? -1
            then ExtState i (startPart st1) (extEnd st1) (matchedSlash st1)
                   (preDotState st1)
            else if negb (preDotState st1 =? 1)
            then ExtState (startDot st1) (startPart st1) (extEnd st1)
                   (matchedSlash st1) 1
            else st1
          else if negb (startDot st1 =? -1)
          then ExtState (startDot st1) (startPart st1) (extEnd st1)
                 (matchedSlash st1) (-1)
          else st1 in
        extLoop before (i - 1) st2
  end.

Definition charsDown (path : string) : list ascii :=
  rev (list_ascii_of_string path).

(** [path.extname(path)] *)
Definition extname (path : string) : string :=
  let n := Z.of_nat (String.length path) in
  let st := extLoop (charsDown path) (n - 1) (ExtState (-1) 0 (-1) true 0) in
  if (startDot st =? -1) || (extEnd st =? -1) || (preDotState st =? 0)
     || ((preDotState st =? 1) && (startDot st =? extEnd st - 1)
         && (startDot st =? startPart st + 1))
  then "" else slice path (startDot st) (extEnd st).

(** The variables of the loop of [basename] with a suffix. *)
Record baseState : Type := BaseState {
  baseStart : Z;
  baseEnd : Z;
  baseMatchedSlash : bool;
  extIdx : Z;
  firstNonSlashEnd : Z;
}.

(** [suffix[k]], for [k] inside the suffix. *)
Definition charAt (s : string) (k : Z) : option ascii :=
  String.get (Z.to_nat k) s.

Fixpoint baseLoop (suffix : string) (chars : list ascii) (i : Z)
    (st : baseState) : baseState :=
  match chars with
  | [] => st
  | char :: before =>
      if is_slash char then
        if negb (baseMatchedSlash st)
        then BaseState (i + 1) (baseEnd st) (baseMatchedSlash st) (extIdx st)
               (firstNonSlashEnd st)
        else baseLoop suffix before (i - 1) st
      else
        let st1 :=
          if firstNonSlashEnd st =? -1
          then BaseState (baseStart st) (baseEnd st) false (extIdx st) (i + 1)
          else st in
        let st2 :=
          if 0 <=? extIdx st1 then
            if bool_decide (charAt suffix (extIdx st1) = Some char) then
              if extIdx st1 - 1 =? -1
              then BaseState (baseStart st1) i (baseMatchedSlash st1)
                     (extIdx st1 - 1) (firstNonSlashEnd st1)
              else BaseState (baseStart st1) (baseEnd st1)
                     (baseMatchedSlash st1) (extIdx st1 - 1)
                     (firstNonSlashEnd st1)
            else BaseState (baseStart st1) (firstNonSlashEnd st1)
                   (baseMatchedSlash st1) (-1) (firstNonSlashEnd st1)
          else st1 in
        baseLoop suffix before (i - 1) st2
  end.

(** The loop of [basename] without a suffix: [start], [end] and
    [matchedSlash]. *)
Fixpoint plainLoop (chars : list ascii) (i : Z) (st : Z * Z * bool)
    : Z * Z * bool :=
  match chars with
  | [] => st
  | char :: before =>
      let '(start, end_, matched) := st in
      if is_slash char then
        if negb matched then (i + 1, end_, matched)
        else plainLoop before (i - 1) st
      else if end_ =? -1 then plainLoop before (i - 1) (start, i + 1, false)
      else plainLoop before (i - 1) st
  end.

(** [path.basename(path, suffix)] *)
Definition basename (path suffix : string) : string :=
  let n := Z.of_nat (String.length path) in
  let k := Z.of_nat (String.length suffix) in
  if (0 <? k) && (k <=? n) then
    if String.eqb suffix path then "" else
    let st := baseLoop suffix (charsDown path) (n - 1)
                (BaseState 0 (-1) true (k - 1) (-1)) in
    let end_ :=
      if baseStart st =? baseEnd st then firstNonSlashEnd st
      else if baseEnd st =? -1 then n
      else baseEnd st in
    slice path (baseStart st) end_
  else
    let '(start, end_, _) := plainLoop (charsDown path) (n - 1) (0, -1, true) in
    if end_ =? -1 then "" else slice path start end_.

End PathName.

(** ** The tracker server: flows and static files *)

Module Files.

(** What [fs.readdir] calls back with for the data directory. *)
Inductive dirResult : Type :=
| Listing (files : list string)
| DirMissing
| DirError.

Definition namesReply (names : list string) : reply :=
  Reply 200 (JArr (map JStr names)).

(** The [replace] of [handleFlows]: a dot and the letters c, s, v in
    any case at the end of the name are removed. *)
Definition stripCsvSuffix (f : string) : string :=
  if endsWith ".csv" (toLowerCase f)
  then substring 0 (String.length f - 4) f else f.

(** router.js, [handleFlows]. *)
Definition handleFlows (m : method) (dir : dirResult) : reply :=
  match m with
  | GET =>
      match dir with
      | DirMissing => namesReply []
      | DirError => errorReply 500 "dir fail"
      | Listing files =>
          namesReply (map stripCsvSuffix (List.filter (endsWith ".csv") files))
      end
  | _ => errorReply 405 "method not allowed"
  end.

(** server.js, [handleApiFlows]. *)
Definition handleApiFlows (m : method) (dir : dirResult) : reply :=
  match m with
  | GET =>
      match dir with
      | DirMissing => namesReply []
      | DirError => errorReply 500 "Failed to read data directory"
      | Listing files =>
          namesReply
            (map (λ name, PathName.basename name (PathName.extname name))
               (List.filter (λ name, endsWith ".csv" (toLowerCase name)) files))
      end
  | _ => errorReply 405 "Method not allowed"
  end.

(** What [fs.stat] finds at a path, if anything: a regular file or
    something else. *)
Inductive statResult : Type :=
| IsFile
| IsOther.

(** The answer of [serveStatic]: forbidden, not found, or the file at
    a path streamed with a content type. *)
Inductive staticAnswer : Type :=
| Forbidden
| NotFound
| Served (contentType : string) (filePath : string).

(** The table [MIME] of serve.js. *)
Definition MIME (ext : string) : option string :=
  if String.eqb ext ".html" then Some "text/html; charset=utf-8"
  else if String.eqb ext ".js" then Some "text/javascript; charset=utf-8"
  else if String.eqb ext ".css" then Some "text/css; charset=utf-8"
  else if String.eqb ext ".json" then Some "application/json; charset=utf-8"
  else None.

(** The table [MIME_TYPES] of server.js. *)
Definition MIME_TYPES (ext : string) : option string :=
  if String.eqb ext ".html" then Some "text/html; charset=utf-8"
  else if String.eqb ext ".js" then Some "text/javascript; charset=utf-8"
  else if String.eqb ext ".css" then Some "text/css; charset=utf-8"
  else if String.eqb ext ".json" then Some "application/json; charset=utf-8"
  else if String.eqb ext ".png" then Some "image/png"
  else if String.eqb ext ".jpg" then Some "image/jpeg"
  else if String.eqb ext ".jpeg" then Some "image/jpeg"
  else if String.eqb ext ".svg" then Some "image/svg+xml"
  else if String.eqb ext ".ico" then Some "image/x-icon"
  else None.

Section Static.

(** [__dirname], and the file system as [fs.stat] sees it. *)
Variable ROOT : string.
Variable stat : string → option statResult.

(** serve.js, [serveStatic]. *)
Definition serveStatic (pathname : string) : staticAnswer :=
  let p := if String.eqb pathname "/" then "/tracker.html" else pathname in
  let filePath := Path.join2 ROOT p in
  if negb (startsWith ROOT filePath) then Forbidden
  else match stat filePath with
       | Some IsFile =>
           Served (default "application/octet-stream"
                     (MIME (PathName.extname filePath))) filePath
       | _ => NotFound
       end.

(** server.js, [serveStatic]; an empty pathname stands for the root. *)
Definition serveStatic_server (pathname : string) : staticAnswer :=
  let requestedPath := if nonEmpty pathname then pathname else "/" in
  let requestedPath :=
    if String.eqb requestedPath "/" then "/tracker.html" else requestedPath in
  let safePath := Path.normalize (Path.join2 ROOT requestedPath) in
  if negb (startsWith ROOT safePath) then Forbidden
  else match stat safePath with
       | Some IsFile =>
           Served (default "application/octet-stream"
                     (MIME_TYPES (toLowerCase (PathName.extname safePath))))
             safePath
       | _ => NotFound
       end.

End Static.

End Files.

Import Files.

(** ** The reporting router: requests *)

Module Api.

(** What is thrown on the way to an answer: an [Error] made by the
    router with its message, the [TypeError] of reading a property of
    [null], the error of the request stream, or a rejection of [fs]. *)
Inductive thrown : Type :=
| Message (msg : string)
| NullBody
| RequestError
| FsFailure.

Definition maxBytes : N := (10 * 1024 * 1024)%N.

(** The [data] events of [readJsonBody]: each chunk comes with its
    length in bytes and its text. *)
Fixpoint readChunks (chunks : list (N * string)) (size : N) (buf : string)
    : thrown + string :=
  match chunks with
  | [] => inr buf
  | (len, text) :: rest =>
      let size := (size + len)%N in
      if (maxBytes <? size)%N then inl (Message "Body too large")
      else readChunks rest size (buf +:+ text)
  end.

(** [s.toUpperCase()], on the letters a to z: what the tests of the
    method need, no other code unit below 256 gives the text of a
    method in upper case. *)
Definition upperChar (c : ascii) : ascii :=
  let n := nat_of_ascii c in
  if ((97 <=? n) && (n <=? 122))%nat then ascii_of_nat (n - 32) else c.

Fixpoint toUpperCase (s : string) : string :=
  match s with
  | "" => ""
  | String c r => String (upperChar c) (toUpperCase r)
  end.

(** [path.resolve(p)] for a path that is not empty, with the working
    directory [cwd]. *)
Definition resolve (cwd p : string) : string :=
  let full :=
    if Path.isAbsolute p then p +:+ "/" else cwd +:+ "/" +:+ p +:+ "/" in
  let abs := Path.isAbsolute full in
  let body := join "/" (Path.normalizeSegments (negb abs) (Path.segments full)) in
  if abs then "/" +:+ body else if nonEmpty body then body else ".".

(** [body.baseDir] and [body.startKeyword] on a parsed body: the last
    member of that name of an object, nothing on another value, and a
    [TypeError] on [null]. *)
Definition member (key : string) (v : jsval) : thrown + option jsval :=
  match v with
  | JNull => inl NullBody
  | JObj members =>
      inr (snd <$> List.find (λ kv, String.eqb kv.1 key) (rev members))
  | _ => inr None
  end.

(** The messages of the failures of the aggregate operation. *)
Definition reportError (e : Report.error) : thrown :=
  match e with
  | StatFailed => FsFailure
  | NotADirectory => Message "baseDir is not a directory"
  | NoMatch => Message "No subdirectories matched startKeyword"
  | NoCsvFiles => Message "No csv files found under matched subdirectories"
  end.

(** What is sent: the page, one of the two answers for an unknown
    route, a failure, or a report. *)
Inductive response : Type :=
| Page (html : string)
| NotFoundText
| NotFoundJson
| Failed (e : thrown)
| Report (out : report).

Definition status (r : response) : nat :=
  match r with
  | Page _ | Report _ => 200
  | NotFoundText | NotFoundJson => 404
  | Failed _ => 400
  end.

Section Requests.

(** [JSON.parse], [None] where it throws; [process.cwd()] and
    [__dirname]; what [fs.stat] and [fs.readdir] find at a path, and
    what [fs.readFile] gives for it. *)
Variable JSON_parse : string → option jsval.
Variable cwd dirname : string.
Variable fs : string → option node.
Variable readFile : string → option string.

(** [readJsonBody(req)]; [errored] tells whether the request ends in
    an error instead of its end. *)
Definition readJsonBody (chunks : list (N * string)) (errored : bool)
    : thrown + jsval :=
  match readChunks chunks 0 "" with
  | inl e => inl e
  | inr buf =>
      if errored then inl RequestError
      else if negb (nonEmpty (trim buf)) then inr (JObj [])
      else match JSON_parse buf with
           | Some v => inr v
           | None => inl (Message "Invalid JSON")
           end
  end.

(** [safeResolveBaseDir(baseDir)]; [None] is [undefined]. *)
Definition safeResolveBaseDir (baseDir : option jsval) : thrown + string :=
  match baseDir with
  | Some (JStr s) =>
      let trimmed := trim s in
      if negb (nonEmpty trimmed) then inl (Message "baseDir is required")
      else inr (resolve cwd trimmed)
  | _ => inl (Message "baseDir must be a string")
  end.

(** [handleApiReports(req, res)] *)
Definition handleApiReports (chunks : list (N * string)) (errored : bool)
    : thrown + response :=
  match readJsonBody chunks errored with
  | inl e => inl e
  | inr body =>
      match member "baseDir" body with
      | inl e => inl e
      | inr value =>
          match safeResolveBaseDir value with
          | inl e => inl e
          | inr baseDir =>
              match member "startKeyword" body with
              | inl e => inl e
              | inr keyword =>
                  let startKeyword :=
                    match keyword with Some (JStr s) => s | _ => "" end in
                  match loadCombinedCsvs baseDir (fs baseDir) (Some startKeyword) with
                  | inl e => inl (reportError e)
                  | inr out => inr (Report out)
                  end
              end
          end
      end
  end.

(** [serveIndexHtml(res)] *)
Definition serveIndexHtml : thrown + response :=
  match readFile (Path.join2 dirname "index.html") with
  | Some html => inr (Page html)
  | None => inl FsFailure
  end.

(** [route(req, res)]; [meth] is [req.method], [pathname] the path of
    [req.url]. *)
Definition route (meth pathname : string) (chunks : list (N * string))
    (errored : bool) : thrown + response :=
  let method := toUpperCase (if nonEmpty meth then meth else "GET") in
  if String.eqb method "GET"
     && (String.eqb pathname "/" || String.eqb pathname "/index.html")
  then serveIndexHtml
  else if String.eqb method "POST" && String.eqb pathname "/api/reports"
  then handleApiReports chunks errored
  else if String.eqb method "GET" then inr NotFoundText
  else inr NotFoundJson.

(** [handleRequest(req, res)] *)
Definition handleRequest (meth pathname : string) (chunks : list (N * string))
    (errored : bool) : response :=
  match route meth pathname chunks errored with
  | inl e => Failed e
  | inr r => r
  end.

End Requests.

End Api.

Import Api.

(** * What the properties are stated with *)

(** ** A CSV writer, to state what the splitter undoes *)

Module Writer.

(** A field is written bare unless it holds a comma or a double quote. *)
Fixpoint needsQuotes (f : string) : bool :=
  match f with
  | "" => false
  | String c r => is_dquote c || is_comma c || needsQuotes r
  end.

(** Every double quote of the field is doubled. *)
Fixpoint escapeQuotes (f : string) : string :=
  match f with
  | "" => ""
  | String c r =>
      if is_dquote c then String dquote (String dquote (escapeQuotes r))
      else String c (escapeQuotes r)
  end.

Definition writeField (f : string) : string :=
  if needsQuotes f
  then String dquote (escapeQuotes f +:+ String dquote "")
  else f.

Fixpoint writeFields (f : string) (fs : list string) : string :=
  match fs with
  | [] => writeField f
  | g :: gs => writeField f +:+ String comma (writeFields g gs)
  end.

(** The commas of a line that stand outside quotes, a position being
    inside quotes when the number of double quotes before it is odd;
    [odd] is that parity at the head of [s]. *)
Fixpoint outsideCommas (s : string) (odd : bool) : nat :=
  match s with
  | "" => 0
  | String c r =>
      if is_dquote c then outsideCommas r (negb odd)
      else if is_comma c && negb odd then S (outsideCommas r odd)
      else outsideCommas r odd
  end.

End Writer.

Import Writer.

(** What may follow a field on a line: the end, or a comma. *)
Definition fieldEnd (rest : string) : Prop :=
  rest = "" ∨ ∃ r, rest = String comma r.

(** ** The parser, spelled as the specification words it *)

Module ParserSpec.

(** The lines of a text, where CR LF, a lone CR and a lone LF each
    break the line. *)
Fixpoint textLines (s : string) : list string :=
  match s with
  | "" => [""]
  | String c r =>
      if Ascii.eqb c LF then "" :: textLines r
      else if Ascii.eqb c CR then
        match r with
        | String c' r' =>
            if Ascii.eqb c' LF then "" :: textLines r' else "" :: textLines r
        | "" => "" :: textLines r
        end
      else match textLines r with
           | [] => [String c ""]
           | hd :: tl => String c hd :: tl
           end
  end.

(** A line is kept when something is left of it after trimming. *)
Definition nonBlank (line : string) : bool := nonEmpty (trim line).

(** The last index at which [k] stands in [cols]. *)
Fixpoint lastIndexOf (k : string) (cols : list string) : option nat :=
  match cols with
  | [] => None
  | col :: cols' =>
      match lastIndexOf k cols' with
      | Some i => Some (S i)
      | None => if String.eqb col k then Some 0 else None
      end
  end.

(** What the typing loop makes of a value. *)
Definition typed (raw : cell) : cell :=
  match numericOf raw with
  | Some num => CNum num
  | None => raw
  end.

End ParserSpec.

Import ParserSpec.

(** The pattern of the specification for decimal fields: an optional
    minus sign, digits, and optionally a point and digits. *)
Module Pattern.

Definition isDigit (c : ascii) : bool :=
  let n := nat_of_ascii c in ((48 <=? n) && (n <=? 57))%nat.

Fixpoint allDigits (s : string) : bool :=
  match s with
  | "" => true
  | String c r => isDigit c && allDigits r
  end.

(** Digits, then nothing or a point and digits. *)
Fixpoint unsignedDecimal (s : string) : bool :=
  match s with
  | "" => false
  | String c r =>
      isDigit c &&
      match r with
      | "" => true
      | String c' f =>
          if Ascii.eqb c' "." then nonEmpty f && allDigits f
          else unsignedDecimal r
      end
  end.

Definition decimalPattern (s : string) : bool :=
  match s with
  | String c r => if Ascii.eqb c "-" then unsignedDecimal r else unsignedDecimal s
  | "" => false
  end.

(** No character of the text is white space. *)
Fixpoint noSpace (s : string) : bool :=
  match s with
  | "" => true
  | String c r => negb (isWhiteSpace c) && noSpace r
  end.

End Pattern.

Import Pattern.

(** ** The header parsers against the line splitter *)

Module HeaderSpec.

(** The text without its double quotes. *)
Fixpoint dropQuotes (s : string) : string :=
  match s with
  | "" => ""
  | String c r => if is_dquote c then dropQuotes r else String c (dropQuotes r)
  end.

(** What a header parser makes of a field of the splitter. *)
Definition headerField (f : string) : string := trim (dropQuotes f).

(** The fields of the splitter as a header parser returns them: each
    without its quotes and trimmed, the last one left out when nothing
    but quotes is in it. *)
Fixpoint headerOf (fields : list string) : list string :=
  match fields with
  | [] => []
  | [f] => if nonEmpty (dropQuotes f) then [headerField f] else []
  | f :: rest => headerField f :: headerOf rest
  end.

Fixpoint hasQuote (s : string) : bool :=
  match s with
  | "" => false
  | String c r => is_dquote c || hasQuote r
  end.

End HeaderSpec.

Import HeaderSpec.

(** ** The inputs of the examples *)

(** The two lines of the specification, written with the quote
    character spelled out. *)
Definition dq : string := String dquote "".
Definition line_abcd : string := "a," +:+ dq +:+ "b,c" +:+ dq +:+ ",d".
Definition line_said : string :=
  dq +:+ "he said " +:+ dq +:+ dq +:+ "hi" +:+ dq +:+ dq +:+ dq.
Definition he_said_hi : string := "he said " +:+ dq +:+ "hi" +:+ dq.

(** The reading of the specification under which the columns past the
    last field of a short row are no keys of the row. *)
Definition short_row_keys_absent : Prop :=
  ∀ (text : string) (i : nat) (line : string) (r : row) (c : nat)
    (name : string),
    keptLines text !! S i = Some line →
    rows (parseCsvText text) !! i = Some r →
    columns (parseCsvText text) !! c = Some name →
    (length (splitCsvLine line) ≤ c)%nat →
    r !! name = None.

Definition short_text : string := "a,b" +:+ String LF "1".

(** A header that repeats the name [__proto__]. *)
Definition proto_text : string := "__proto__,__proto__" +:+ String LF "1,2".

(** A file system with one file. *)
Definition oneFile (path text : string) : string → readResult :=
  λ p, if String.eqb p path then Content text else ENOENT.

(** The text is the text of a JSON array. *)
Definition isArrayText (body : jsonText) : bool :=
  match body with TextOf (JArr _) => true | _ => false end.

(** The answer is an error of the invalid-input kind. *)
Definition invalidInput (r : option reply) : Prop :=
  ∃ msg, r = Some (errorReply 400 msg).

Definition oneTask : taskFile := FileText (TextOf (JArr [JStr "task"])).

(** The length of a body that came in chunks of the given lengths. *)
Definition totalSize (sizes : list N) : N := foldr N.add 0%N sizes.

(** The payload of the specification's example. *)
Definition notAnArray : jsonText := TextOf (JStr "not an array").

(** The text of the fields read so far by the line splitter, with the
    field being read, quotes left out. *)
Definition readSoFar (out : list string) (cur : string) : string :=
  join (String comma "") (map dropQuotes (out ++ [cur])).

(** ** Texts and their line breaks *)

Module LineBreaks.

(** The character [c] does not occur in the text. *)
Fixpoint without (c : ascii) (s : string) : bool :=
  match s with
  | "" => true
  | String c' r => negb (Ascii.eqb c' c) && without c r
  end.

(** The text with every LF written as CR LF. *)
Fixpoint withCRLF (s : string) : string :=
  match s with
  | "" => ""
  | String c r =>
      if Ascii.eqb c LF then String CR (String LF (withCRLF r))
      else String c (withCRLF r)
  end.

(** The text with every LF written as a lone CR. *)
Fixpoint withCR (s : string) : string :=
  match s with
  | "" => ""
  | String c r => String (if Ascii.eqb c LF then CR else c) (withCR r)
  end.

(** [pre] put in front of the first of the lines. *)
Definition prependHead (pre : string) (lines : list string) : list string :=
  match lines with
  | [] => [pre]
  | hd :: tl => (pre +:+ hd) :: tl
  end.

End LineBreaks.

Import LineBreaks.

(** ** The files under a directory *)

Module Tree.

(** The name ends in .csv, whatever the case of the letters. *)
Definition csvName (name : string) : bool :=
  endsWith ".csv" (toLowerCase name).

(** [under dir entries p text]: below the directory [dir] with the
    entries [entries], at any depth, stands a regular file of path [p]
    and text [text] whose name is a csv name. *)
Inductive under : string → list (string * node) → string → string → Prop :=
| under_here dir entries name text :
    (name, File text) ∈ entries → csvName name = true →
    under dir entries (Path.join2 dir name) text
| under_below dir entries name sub p text :
    (name, Dir sub) ∈ entries → under (Path.join2 dir name) sub p text →
    under dir entries p text.

(** What [visit] adds for one entry. *)
Definition added (full name : string) (n : node) (x : string * string) : Prop :=
  match n with
  | File text => csvName name = true ∧ x = (full, text)
  | Dir sub => under full sub x.1 x.2
  | Special => False
  end.

(** The csv files that [loadCombinedCsvs] collects from the matched
    folders, as it does. *)
Definition collected (baseDir : string) (entries : list (string * node))
    (matched : list string) : list (string * string) :=
  foldl (λ out dirName,
           walkCsvFiles (Path.join2 baseDir dirName)
             (entriesOf entries dirName) out) [] matched.

(** The folders of a base directory for a keyword, in the words of the
    specification: the names of its entries that are directories and
    start with the trimmed keyword; a keyword that is no string is
    [None] and stands for the empty one. *)
Definition foldersFor (entries : list (string * node)) (kw : option string)
    : list string :=
  let key := match kw with Some s => trim s | None => "" end in
  (List.filter (λ e, isDirectory e.2 && startsWith key e.1) entries).*1.

End Tree.

Import Tree.

(** A base directory for the examples: two folders and a file. *)
Definition sampleTree : list (string * node) :=
  [("projA", Dir [("plan.CSV", File short_text); ("notes.txt", File "x")]);
   ("other", Dir [("deep", Dir [("more.csv", File "b,c")])]);
   ("projects.csv", File "z")].

(** A base directory with the two files of the specification's example
    in one folder: the columns x, y and then y, z. *)
Definition twoFileTree : list (string * node) :=
  [("proj", Dir [("one.csv", File ("x,y" +:+ String LF "1,2"));
                 ("two.csv", File ("y,z" +:+ String LF "3,4"))])].

(** The file system of [fs.stat] with one regular file. *)
Definition fileAt (path : string) : string → option statResult :=
  λ f, if String.eqb f path then Some IsFile else None.

(** ** Normal paths *)

Module NormalPath.

(** A segment of a normalized path: not empty, no slash in it, not a
    dot and not two dots. *)
Definition cleanSeg (seg : string) : bool :=
  nonEmpty seg && negb (String.eqb seg ".") && negb (String.eqb seg "..")
  && without Path.slash seg.

(** The absolute path of the given segments. *)
Definition absPath (segs : list string) : string := "/" +:+ join "/" segs.

(** The segments that normalizing keeps when none is two dots: the
    ones that are not empty and not a dot. *)
Definition keptSegs (segs : list string) : list string :=
  List.filter (λ seg, negb (String.eqb seg "" || String.eqb seg ".")) segs.

End NormalPath.

Import NormalPath.

(** ** The body of a request *)

(** The bytes and the text of the chunks of a body. *)
Definition bodyBytes (chunks : list (N * string)) : N :=
  foldr N.add 0%N chunks.*1.

Definition bodyText (chunks : list (N * string)) : string :=
  foldr String.append "" chunks.*2.

(** A parser that takes every text for the given value, and a file
    system with one directory. *)
Definition parsesTo (v : jsval) : string → option jsval := λ _, Some v.

Definition dirAt (path : string) (entries : list (string * node))
    : string → option node :=
  λ p, if String.eqb p path then Some (Dir entries) else None.

(** A request for a report on the directory rep beside the working
    directory, and the report sent for it. *)
Definition sampleRequest : response :=
  handleRequest (parsesTo (JObj [("baseDir", JStr " rep/./ ")])) "/srv" "/srv/app"
    (dirAt "/srv/rep" sampleTree) (λ _, None) "post" "/api/reports"
    [(20%N, "{ ... }")] false.

Definition sampleReport : report :=
  match sampleRequest with
  | Report out => out
  | _ => MkReport [] [] (Meta "" "" [] 0 0 0)
  end.

(** * The properties *)

(** ** Strings *)

Section StringFacts.

Lemma sapp_nil_r (s : string) : s +:+ "" = s.
Proof. induction s as [|c s IH]; simpl; [done | by rewrite IH]. Qed.

Lemma sapp_assoc (a b c : string) : (a +:+ b) +:+ c = a +:+ (b +:+ c).
Proof. induction a as [|x a IH]; simpl; [done | by rewrite IH]. Qed.

Lemma push_char_app (cur : string) (ch : ascii) (s : string) :
  push_char cur ch +:+ s = cur +:+ String ch s.
Proof. unfold push_char. by rewrite sapp_assoc. Qed.

End StringFacts.

(** ** The loop of the line splitter *)

Section SplitterFacts.

Lemma splitLoop_bare (f rest : string) (out : list string) (cur : string) :
  needsQuotes f = false →
  splitLoop (f +:+ rest) out cur false = splitLoop rest out (cur +:+ f) false.
Proof.
  revert cur. induction f as [|c f IH]; intros cur Hb; simpl.
  - by rewrite sapp_nil_r.
  - simpl in Hb. apply orb_false_elim in Hb as [Hb Hf].
    apply orb_false_elim in Hb as [Hq Hc].
    rewrite Hq, Hc. simpl. rewrite IH by done.
    by rewrite push_char_app.
Qed.

Lemma splitLoop_quoted (f rest : string) (out : list string) (cur : string) :
  fieldEnd rest →
  splitLoop (escapeQuotes f +:+ String dquote rest) out cur true
  = splitLoop rest out (cur +:+ f) false.
Proof.
  intros Hend. revert cur. induction f as [|c f IH]; intros cur.
  - rewrite sapp_nil_r. simpl.
    destruct Hend as [-> | [r ->]]; reflexivity.
  - simpl. destruct (is_dquote c) eqn:Hq.
    + apply Ascii.eqb_eq in Hq. subst c. simpl.
      rewrite IH. by rewrite push_char_app.
    + simpl. rewrite Hq, andb_false_r, IH. by rewrite push_char_app.
Qed.

Lemma splitLoop_field (f rest : string) (out : list string) :
  fieldEnd rest →
  splitLoop (writeField f +:+ rest) out "" false = splitLoop rest out f false.
Proof.
  intros Hend. unfold writeField. destruct (needsQuotes f) eqn:Hn.
  - simpl. rewrite sapp_assoc. simpl. by rewrite splitLoop_quoted.
  - by rewrite splitLoop_bare.
Qed.

Lemma splitLoop_fields (f : string) (fs out : list string) :
  splitLoop (writeFields f fs) out "" false = out ++ f :: fs.
Proof.
  revert f out. induction fs as [|g gs IH]; intros f out; simpl.
  - rewrite <- (sapp_nil_r (writeField f)).
    rewrite splitLoop_field by (by left). reflexivity.
  - rewrite splitLoop_field by (right; eauto). simpl.
    rewrite IH. by rewrite <- app_assoc.
Qed.

(** The fields already pushed stay in front. *)
Lemma splitLoop_out (n : nat) (rest : string) (o1 o2 : list string)
    (cur : string) (inQ : bool) :
  (String.length rest ≤ n)%nat →
  splitLoop rest (o1 ++ o2) cur inQ = o1 ++ splitLoop rest o2 cur inQ.
Proof.
  revert rest o2 cur inQ. induction n as [|n IH]; intros rest o2 cur inQ Hn.
  - destruct rest; [|simpl in Hn; lia]. simpl. by rewrite <- app_assoc.
  - destruct rest as [|ch rest']; [simpl; by rewrite <- app_assoc |].
    simpl in Hn. simpl. destruct (is_dquote ch).
    + destruct inQ; [|apply IH; lia].
      destruct rest' as [|nx rest'']; [apply IH; simpl; lia |].
      destruct (is_dquote nx); apply IH; simpl in *; lia.
    + destruct (is_comma ch && negb inQ); [|apply IH; lia].
      rewrite <- app_assoc. apply IH. lia.
Qed.

(** A first field as a writer puts it, a comma, and any line at all
    after it. *)
Lemma splitCsvLine_first (f line : string) :
  splitCsvLine (writeField f +:+ String comma line) = f :: splitCsvLine line.
Proof.
  unfold splitCsvLine. rewrite splitLoop_field by (right; eauto).
  change (splitLoop (String comma line) [] f false) with
    (splitLoop line ([f] ++ []) "" false).
  by rewrite (splitLoop_out (String.length line)).
Qed.

(** Quote mode is the parity of the quotes read, and only a comma
    outside quotes ends a field. *)
Lemma splitLoop_length (n : nat) (rest : string) (out : list string)
    (cur : string) (inQ : bool) :
  (String.length rest ≤ n)%nat →
  length (splitLoop rest out cur inQ) =
    (length out + S (outsideCommas rest inQ))%nat.
Proof.
  revert rest out cur inQ. induction n as [|n IH]; intros rest out cur inQ Hn.
  - destruct rest; [|simpl in Hn; lia]. simpl. rewrite length_app. simpl. lia.
  - destruct rest as [|ch rest'].
    { simpl. rewrite length_app. simpl. lia. }
    simpl in Hn. simpl. destruct (is_dquote ch).
    + destruct inQ; [|apply IH; lia].
      destruct rest' as [|nx rest'']; [apply IH; simpl; lia |].
      destruct (is_dquote nx) eqn:Hnx; [|apply IH; simpl in *; lia].
      simpl. rewrite Hnx. simpl. apply IH. simpl in Hn. lia.
    + destruct (is_comma ch && negb inQ).
      * rewrite IH by lia. rewrite length_app. simpl. lia.
      * apply IH. lia.
Qed.

End SplitterFacts.

(** ** The loops of the table parser *)

Section ParserFacts.

Implicit Types (r : row) (k j : string) (cols parts ks : list string).

Lemma splitLF_nonempty (s : string) : splitLF s ≠ [].
Proof.
  destruct s as [|c s]; simpl; [done |].
  destruct (Ascii.eqb c LF); [done |]. by destruct (splitLF s).
Qed.

Lemma replaceCRLF_CRLF (r : string) :
  replaceCRLF (String CR (String LF r)) = String LF (replaceCRLF r).
Proof. reflexivity. Qed.

Lemma replaceCRLF_other (c : ascii) (r : string) :
  (∀ r' : string, c = CR → r ≠ String LF r') →
  replaceCRLF (String c r) = String c (replaceCRLF r).
Proof.
  intros H. destruct r as [|c' r']; [done |].
  change (replaceCRLF (String c (String c' r'))) with
    (if Ascii.eqb c CR && Ascii.eqb c' LF
     then String LF (replaceCRLF r')
     else String c (replaceCRLF (String c' r'))).
  destruct (Ascii.eqb c CR) eqn:E1; [|done].
  destruct (Ascii.eqb c' LF) eqn:E2; [|done].
  apply Ascii.eqb_eq in E1, E2. subst. by destruct (H r').
Qed.

Lemma splitLF_LF (r : string) : splitLF (String LF r) = "" :: splitLF r.
Proof. reflexivity. Qed.

(** The two replacements and the split find the same lines as one pass
    over the text. *)
Lemma normalised_lines (s : string) :
  splitLF (replaceCR (replaceCRLF s)) = textLines s.
Proof.
  remember (String.length s) as n eqn:Hn.
  revert s Hn. induction n as [n IH] using lt_wf_ind. intros s Hn.
  destruct s as [|c s]; [done |].
  assert (Hs : ∀ t, (String.length t < n)%nat →
                    splitLF (replaceCR (replaceCRLF t)) = textLines t).
  { intros t Ht. by eapply IH. }
  simpl in Hn.
  destruct (Ascii.eqb c CR) eqn:Hcr.
  - apply Ascii.eqb_eq in Hcr. subst c.
    destruct s as [|c' s]; [reflexivity |].
    destruct (Ascii.eqb c' LF) eqn:Hlf.
    + apply Ascii.eqb_eq in Hlf. subst c'.
      rewrite replaceCRLF_CRLF.
      change (replaceCR (String LF ?x)) with (String LF (replaceCR x)).
      rewrite splitLF_LF, Hs by (simpl in Hn; lia).
      reflexivity.
    + rewrite replaceCRLF_other
        by (intros r' _ [= -> _]; by rewrite Ascii.eqb_refl in Hlf).
      change (replaceCR (String CR ?x)) with (String LF (replaceCR x)).
      rewrite splitLF_LF, Hs by lia.
      change (textLines (String CR (String c' s))) with
        (if Ascii.eqb c' LF then "" :: textLines s
         else "" :: textLines (String c' s)).
      by rewrite Hlf.
  - rewrite replaceCRLF_other
      by (intros r' ->; by rewrite Ascii.eqb_refl in Hcr).
    change (replaceCR (String c ?x)) with
      (String (if Ascii.eqb c CR then LF else c) (replaceCR x)).
    rewrite Hcr.
    change (splitLF (String c ?x)) with
      (if Ascii.eqb c LF then "" :: splitLF x
       else match splitLF x with
            | [] => [String c ""]
            | hd :: tl => String c hd :: tl
            end).
    rewrite Hs by lia.
    change (textLines (String c s)) with
      (if Ascii.eqb c LF then "" :: textLines s
       else if Ascii.eqb c CR then
         match s with
         | String c' r' =>
             if Ascii.eqb c' LF then "" :: textLines r' else "" :: textLines s
         | "" => "" :: textLines s
         end
       else match textLines s with
            | [] => [String c ""]
            | hd :: tl => String c hd :: tl
            end).
    by rewrite Hcr.
Qed.

Lemma keptLines_textLines (text : string) :
  keptLines text = List.filter nonBlank (textLines text).
Proof. unfold keptLines. by rewrite normalised_lines. Qed.

(** *** The first loop of a row *)

Lemma setProp_proto r k v : r !! "__proto__" = None → setProp r k v !! "__proto__" = None.
Proof.
  intros Hr. unfold setProp. destruct (String.eqb k "__proto__") eqn:Hk; [done |].
  apply String.eqb_neq in Hk. by rewrite lookup_insert_ne.
Qed.

Lemma setProp_lookup r k v j :
  j ≠ "__proto__" →
  setProp r k v !! j = if decide (j = k) then Some v else r !! j.
Proof.
  intros Hj. unfold setProp. destruct (String.eqb k "__proto__") eqn:Hk.
  - apply String.eqb_eq in Hk. subst k. by rewrite decide_False.
  - case_decide as E; [subst; by rewrite lookup_insert_eq |].
    by rewrite lookup_insert_ne.
Qed.

Lemma fillRow_proto cols c parts r :
  r !! "__proto__" = None → fillRow cols c parts r !! "__proto__" = None.
Proof.
  revert c r. induction cols as [|col cols IH]; intros c r Hr; simpl; [done |].
  apply IH. by apply setProp_proto.
Qed.

Lemma fillRow_lookup cols c parts r k :
  k ≠ "__proto__" →
  fillRow cols c parts r !! k =
    match lastIndexOf k cols with
    | Some i => Some (CStr (default "" (parts !! (c + i)%nat)))
    | None => r !! k
    end.
Proof.
  intros Hk. revert c r. induction cols as [|col cols IH]; intros c r; simpl; [done |].
  rewrite IH. destruct (lastIndexOf k cols) as [i|].
  - by replace (S c + i)%nat with (c + S i)%nat by lia.
  - rewrite setProp_lookup by done.
    destruct (String.eqb col k) eqn:E.
    + apply String.eqb_eq in E. subst col. rewrite decide_True by done.
      by rewrite Nat.add_0_r.
    + apply String.eqb_neq in E. by rewrite decide_False by congruence.
Qed.

(** *** The typing loop *)

Lemma retypeKey_proto r k : r !! "__proto__" = None → retypeKey r k !! "__proto__" = None.
Proof.
  intros Hr. unfold retypeKey. destruct (r !! k) as [raw|]; [|done].
  destruct (numericOf raw); [|done]. by apply setProp_proto.
Qed.

Lemma retypeKey_lookup r k j :
  r !! "__proto__" = None →
  retypeKey r k !! j = if decide (j = k) then typed <$> r !! k else r !! j.
Proof.
  intros Hr. unfold retypeKey, typed.
  destruct (decide (j = "__proto__")) as [-> | Hj].
  - assert (H := retypeKey_proto r k Hr). unfold retypeKey in H. rewrite H.
    case_decide as E; [subst k; by rewrite Hr | done].
  - destruct (r !! k) as [raw|] eqn:Hraw; simpl.
    + destruct (numericOf raw) eqn:Hnum.
      * by rewrite setProp_lookup.
      * case_decide; by subst.
    + case_decide; by subst.
Qed.

Lemma retype_lookup ks r j :
  NoDup ks → r !! "__proto__" = None →
  retype ks r !! j = if decide (j ∈ ks) then typed <$> r !! j else r !! j.
Proof.
  unfold retype. revert r. induction ks as [|k ks IH]; intros r Hnd Hr.
  - case_decide as E; [by apply elem_of_nil in E | done].
  - apply NoDup_cons in Hnd as [Hk Hnd].
    change (foldl retypeKey r (k :: ks)) with (foldl retypeKey (retypeKey r k) ks).
    rewrite IH by (done || by apply retypeKey_proto).
    rewrite !retypeKey_lookup by done.
    destruct (decide (j = k)) as [-> | Hne].
    + rewrite decide_False by done. by rewrite decide_True by set_solver.
    + destruct (decide (j ∈ ks)).
      * by rewrite decide_True by set_solver.
      * rewrite decide_False; [done |]. by inversion 1.
Qed.

(** Whatever order [Object.keys] lists the keys in, the loop leaves
    every value typed. *)
Lemma retype_order ks r :
  NoDup ks → (∀ k, k ∈ ks ↔ is_Some (r !! k)) → r !! "__proto__" = None →
  retype ks r = typed <$> r.
Proof.
  intros Hnd Hks Hr. apply map_eq. intros j.
  rewrite retype_lookup, lookup_fmap by done.
  case_decide as E; [done |].
  destruct (r !! j) eqn:Hj; [|done]. exfalso. apply E, Hks. eauto.
Qed.

Lemma retype_keys r : r !! "__proto__" = None → retype (keys r) r = typed <$> r.
Proof.
  intros Hr. apply retype_order; [apply NoDup_fst_map_to_list | | done].
  intros k. unfold keys. rewrite list_elem_of_fmap. split.
  - intros [[k' v] [-> Hin]]. apply elem_of_map_to_list in Hin. eauto.
  - intros [v Hv]. exists (k, v). by rewrite elem_of_map_to_list.
Qed.

Lemma typed_CStr (s : string) : typed (CStr s) = classify s.
Proof. reflexivity. Qed.

(** *** A parsed row, key by key *)

Lemma parseRow_proto cols line : parseRow cols line !! "__proto__" = None.
Proof.
  unfold parseRow.
  assert (H : fillRow cols 0 (splitCsvLine line) ∅ !! "__proto__" = None)
    by (by apply fillRow_proto).
  rewrite retype_keys by done. by rewrite lookup_fmap, H.
Qed.

Lemma parseRow_lookup cols line k :
  k ≠ "__proto__" →
  parseRow cols line !! k =
    (λ i, classify (default "" (splitCsvLine line !! i))) <$> lastIndexOf k cols.
Proof.
  intros Hk. unfold parseRow.
  rewrite retype_keys by (by apply fillRow_proto).
  rewrite lookup_fmap, fillRow_lookup by done.
  destruct (lastIndexOf k cols); [done |]. by rewrite lookup_empty.
Qed.

End ParserFacts.

(** ** The line splitter *)

(** C2. For every line, [splitCsvLine] gives one field more than
    the line has commas outside quotes, a position being inside quotes
    when an odd number of double quotes stands before it.  For every
    field, written bare or (when it holds a comma or a quote) between
    quotes with its quotes doubled, and for every line after it: the
    field followed by a comma and that line splits into the field and
    the fields of the line, so a comma inside quotes does not split
    and a doubled quote inside quotes is one quote.  For every list of
    fields written in this way with commas between them, the fields
    come back as they were.  The line with the quoted comma gives the
    three fields a, b,c and d, and the quoted line with escaped quotes
    gives the one field with plain quotes. *)
Theorem C2_splitter_fields :
  (∀ line : string,
     length (splitCsvLine line) = S (outsideCommas line false))
  ∧ (∀ f line : string,
       splitCsvLine (writeField f +:+ String comma line)
       = f :: splitCsvLine line)
  ∧ (∀ (f : string) (fs : list string),
       splitCsvLine (writeFields f fs) = f :: fs)
  ∧ splitCsvLine line_abcd = ["a"; "b,c"; "d"]
  ∧ splitCsvLine line_said = [he_said_hi].
Proof.
  split; [| split; [| split; [| split]]].
  - intros line. unfold splitCsvLine.
    by rewrite (splitLoop_length (String.length line)).
  - apply splitCsvLine_first.
  - intros f fs. unfold splitCsvLine. by rewrite splitLoop_fields.
  - reflexivity.
  - reflexivity.
Qed.

(** ** The table parser *)

Section TableFacts.

Lemma parse_rows_lookup (text : string) (i : nat) :
  rows (parseCsvText text) !! i =
    parseRow (columns (parseCsvText text)) <$> keptLines text !! S i.
Proof.
  unfold parseCsvText. destruct (keptLines text) as [|header data]; simpl.
  - done.
  - by rewrite list_lookup_fmap.
Qed.

Lemma parse_rows_elem (text : string) (r : row) :
  r ∈ rows (parseCsvText text) →
  ∃ line, line ∈ keptLines text ∧ r = parseRow (columns (parseCsvText text)) line.
Proof.
  intros [i Hi]%list_elem_of_lookup. rewrite parse_rows_lookup in Hi.
  destruct (keptLines text !! S i) as [line|] eqn:Hl; [|done].
  exists line. split; [by eapply list_elem_of_lookup_2 | by injection Hi].
Qed.

Lemma lastIndexOf_None (k : string) (cols : list string) :
  lastIndexOf k cols = None ↔ k ∉ cols.
Proof.
  induction cols as [|col cols IH]; simpl.
  - split; [intros _; by inversion 1 | done].
  - destruct (lastIndexOf k cols) as [i|] eqn:Hl.
    + split; [done |]. intros Hn. exfalso.
      assert (k ∉ cols) as Hc by (intros ?; apply Hn; by constructor).
      apply IH in Hc. done.
    + destruct (String.eqb col k) eqn:E.
      * apply String.eqb_eq in E. subst. split; [done |].
        intros Hn. exfalso. apply Hn. constructor.
      * apply String.eqb_neq in E. split; [|done]. intros _ Hin.
        inversion Hin; subst; [done |]. by apply IH in H1.
Qed.

Lemma lastIndexOf_Some (k : string) (cols : list string) (i : nat) :
  lastIndexOf k cols = Some i →
  cols !! i = Some k ∧ ∀ j, (i < j)%nat → cols !! j ≠ Some k.
Proof.
  revert i. induction cols as [|col cols IH]; intros i; simpl; [done |].
  destruct (lastIndexOf k cols) as [i'|] eqn:Hl.
  - intros [= <-]. destruct (IH i' eq_refl) as [Hi Hlast]. split; [done |].
    intros [|j] Hj; [lia |]. simpl. apply Hlast. lia.
  - destruct (String.eqb col k) eqn:E; [|done].
    apply String.eqb_eq in E. subst col. intros [= <-]. split; [done |].
    intros [|j] Hj Hc; [lia |]. simpl in Hc.
    apply lastIndexOf_None in Hl. apply Hl. by eapply list_elem_of_lookup_2.
Qed.

Lemma lastIndexOf_elem (k : string) (cols : list string) :
  k ∈ cols → ∃ i, lastIndexOf k cols = Some i.
Proof.
  intros Hin. destruct (lastIndexOf k cols) as [i|] eqn:E; [eauto |].
  by apply lastIndexOf_None in E.
Qed.

(** The keys of a parsed row are column names. *)
Lemma parseRow_keys (cols : list string) (line k : string) :
  is_Some (parseRow cols line !! k) → k ∈ cols ∧ k ≠ "__proto__".
Proof.
  intros [v Hv]. destruct (decide (k = "__proto__")) as [-> | Hk].
  - by rewrite parseRow_proto in Hv.
  - split; [|done]. rewrite parseRow_lookup in Hv by done.
    destruct (lastIndexOf k cols) as [i|] eqn:E; [|done].
    apply lastIndexOf_Some in E as [E _]. by eapply list_elem_of_lookup_2.
Qed.

End TableFacts.

Section PatternFacts.

Lemma isDigit_noSpace (c : ascii) : isDigit c = true → isWhiteSpace c = false.
Proof. destruct c as [[] [] [] [] [] [] [] []]; by vm_compute. Qed.

Lemma allDigits_noSpace (s : string) : allDigits s = true → noSpace s = true.
Proof.
  induction s as [|c s IH]; simpl; [done |].
  intros [Hc Hs]%andb_true_iff. by rewrite (isDigit_noSpace c), IH.
Qed.

Lemma unsignedDecimal_noSpace (s : string) :
  unsignedDecimal s = true → noSpace s = true.
Proof.
  induction s as [|c s IH]; [done |].
  change (unsignedDecimal (String c s)) with
    (isDigit c && match s with
                  | "" => true
                  | String c' f =>
                      if Ascii.eqb c' "." then nonEmpty f && allDigits f
                      else unsignedDecimal s
                  end).
  intros [Hc Hs]%andb_true_iff. simpl. rewrite (isDigit_noSpace c) by done.
  simpl. destruct s as [|c' f]; [done |].
  destruct (Ascii.eqb c' ".") eqn:E; [|by apply IH].
  apply Ascii.eqb_eq in E. subst c'.
  apply andb_true_iff in Hs as [_ Hf]. simpl. by apply allDigits_noSpace.
Qed.

Lemma decimalPattern_noSpace (s : string) :
  decimalPattern s = true → noSpace s = true.
Proof.
  destruct s as [|c s]; [done |]. unfold decimalPattern.
  destruct (Ascii.eqb c "-") eqn:E; [|apply unsignedDecimal_noSpace].
  apply Ascii.eqb_eq in E. subst c. intros H. simpl.
  by apply unsignedDecimal_noSpace.
Qed.

Lemma trimEnd_noSpace (s : string) : noSpace s = true → trimEnd s = s.
Proof.
  induction s as [|c s IH]; simpl; [done |].
  intros [Hc Hs]%andb_true_iff. rewrite IH by done.
  apply negb_true_iff in Hc. rewrite Hc. by destruct s.
Qed.

Lemma trim_noSpace (s : string) : noSpace s = true → trim s = s.
Proof.
  intros H. unfold trim.
  assert (trimStart s = s) as ->.
  { destruct s as [|c s]; [done |]. simpl in *.
    apply andb_true_iff in H as [Hc _]. apply negb_true_iff in Hc.
    by rewrite Hc. }
  by apply trimEnd_noSpace.
Qed.

(** A field of the decimal pattern whose Number prints as the field
    itself is numeric. *)
Lemma decimal_round_trip_numeric (raw : string) :
  decimalPattern raw = true → toString (Number raw) = raw →
  classify raw = CNum (Number raw).
Proof.
  intros Hp Hrt. unfold classify, numericOf.
  rewrite (trim_noSpace raw) by (by apply decimalPattern_noSpace).
  rewrite Hrt, String.eqb_refl, andb_true_r.
  assert (nonEmpty raw = true) as -> by (by destruct raw).
  destruct (Number raw) as [| neg | neg m e] eqn:E; simpl in *.
  - by rewrite <- Hrt in Hp.
  - destruct neg; by rewrite <- Hrt in Hp.
  - done.
Qed.

End PatternFacts.

(** The model of Number and of its printing, on values whose printed
    form the language fixes. *)
Example number_model_checks :
  map (λ s, toString (Number s))
    ["0.1"; "1e21"; "1e+21"; "-0"; "0.000001"; "0.0000001"; ".5"; "5.";
     "0x10"; "  12  "; "Infinity"; "1.7976931348623159e308"; "5e-324";
     "2e-324"; "0.30000000000000004"; "9007199254740993"; "abc"; "1e5";
     "123456789012345680000"; "1234567890123456800000"; "-1.50"; "1_0"]
  = ["0.1"; "1e+21"; "1e+21"; "0"; "0.000001"; "1e-7"; "0.5"; "5";
     "16"; "12"; "Infinity"; "Infinity"; "5e-324";
     "0"; "0.30000000000000004"; "9007199254740992"; "NaN"; "100000";
     "123456789012345680000"; "1.2345678901234568e+21"; "-1.5"; "NaN"].
Proof. by vm_compute. Qed.

(** C1. A raw field ends as a Number exactly when it is not empty,
    [Number] of it is finite, and the text of that Number is the
    trimmed field; the Number is then [Number] of the field, and a
    field that is not numeric stays the string it was.  The rows of a
    parsed text are those of its kept lines after the first, one for
    one, and the cell of a row under a column name is the raw field
    of its line at the place of that column (the last one of that
    name; the empty string when the line has no field there)
    classified this way.  A field of the decimal
    pattern whose Number prints as the field is numeric.  The field
    007 stays a string, the empty field stays the empty string, 42
    becomes the Number 42. *)
Theorem C1_numeric_cells :
  (∀ raw : string,
     (∃ num, classify raw = CNum num) ↔
       raw ≠ "" ∧ isFinite (Number raw) = true
       ∧ toString (Number raw) = trim raw)
  ∧ (∀ raw : string,
       classify raw = CNum (Number raw) ∨ classify raw = CStr raw)
  ∧ (∀ (text : string) (i : nat),
       match keptLines text !! S i with
       | Some line =>
           ∃ r, rows (parseCsvText text) !! i = Some r
                ∧ ∀ k, k ≠ "__proto__" →
                    r !! k =
                      (λ j, classify (default "" (splitCsvLine line !! j)))
                      <$> lastIndexOf k (columns (parseCsvText text))
       | None => rows (parseCsvText text) !! i = None
       end)
  ∧ (∀ raw : string,
       decimalPattern raw = true → toString (Number raw) = raw →
       classify raw = CNum (Number raw))
  ∧ classify "007" = CStr "007"
  ∧ classify "" = CStr ""
  ∧ classify "42" = CNum (Number "42")
  ∧ Number "42" = Finite false (42 * 2 ^ 47) (-47)
  ∧ toString (Number "42") = "42".
Proof.
  split; [| split; [| split; [| split; [| by vm_compute]]]].
  - intros raw. unfold classify, numericOf.
    destruct (nonEmpty raw) eqn:Hne; simpl.
    + destruct (isFinite (Number raw)) eqn:Hfin; simpl.
      * destruct (String.eqb (trim raw) (toString (Number raw))) eqn:Heq.
        -- apply String.eqb_eq in Heq. split; [|eauto].
           intros _. split; [by destruct raw | done].
        -- apply String.eqb_neq in Heq. split; [by intros [? ?] |].
           intros (_ & _ & H). by destruct Heq.
      * split; [by intros [? ?] | by intros (_ & ? & _)].
    + destruct raw; [|done]. split; [by intros [? ?] | by intros [? _]].
  - intros raw. unfold classify, numericOf.
    destruct (_ && _); [by left | by right].
  - intros text i. rewrite parse_rows_lookup.
    destruct (keptLines text !! S i) as [line|]; [|done].
    eexists. split; [reflexivity |]. intros k Hk.
    by apply parseRow_lookup.
  - apply decimal_round_trip_numeric.
Qed.

(** C5. With [n] the number of lines of the text (line breaks being
    CR LF, CR and LF) that are not empty after trimming: when [n] is
    zero the parsed table has no columns and no rows, and otherwise it
    has [n - 1] rows. *)
Theorem C5_row_count (text : string) :
  let n := length (List.filter nonBlank (textLines text)) in
  (n = 0%nat ∧ parseCsvText text = Table [] [])
  ∨ ((0 < n)%nat ∧ length (rows (parseCsvText text)) = (n - 1)%nat).
Proof.
  simpl. rewrite <- keptLines_textLines. unfold parseCsvText.
  destruct (keptLines text) as [|header data]; simpl.
  - by left.
  - right. split; [lia |]. rewrite length_map. lia.
Qed.

(** ** Short rows *)

(** C4, as stated, fails: the header a,b followed by the row 1 gives a
    row in which b is a key, with the empty string for value. *)
Lemma C4_short_row_has_key :
  keptLines short_text = ["a,b"; "1"]
  ∧ columns (parseCsvText short_text) = ["a"; "b"]
  ∧ splitCsvLine "1" = ["1"]
  ∧ (∃ r, rows (parseCsvText short_text) = [r] ∧ r !! "b" = Some (CStr ""))
  ∧ ¬ short_row_keys_absent.
Proof.
  split; [by vm_compute |]. split; [by vm_compute |]. split; [by vm_compute |].
  split.
  - eexists. split; [reflexivity |]. by vm_compute.
  - intros H.
    specialize (H short_text 0%nat "1"
                  (parseRow ["a"; "b"] "1") 1%nat "b").
    assert (parseRow ["a"; "b"] "1" !! "b" = None) as Hb.
    { apply H; by vm_compute. }
    by vm_compute in Hb.
Qed.

(** C4, amended. In a data row with fewer fields than the table has
    columns, every column past the last field of the row, other than
    one named [__proto__], is a key of the row and its value is the
    empty string. *)
Theorem C4_short_row_padded (text : string) (i : nat) (line : string)
    (r : row) (c : nat) (name : string) :
  keptLines text !! S i = Some line →
  rows (parseCsvText text) !! i = Some r →
  columns (parseCsvText text) !! c = Some name →
  (length (splitCsvLine line) ≤ c)%nat →
  name ≠ "__proto__" →
  r !! name = Some (CStr "").
Proof.
  intros Hline Hr Hc Hlen Hname.
  rewrite parse_rows_lookup, Hline in Hr. injection Hr as <-.
  rewrite parseRow_lookup by done.
  destruct (lastIndexOf_elem name (columns (parseCsvText text))) as [j Hj].
  { by eapply list_elem_of_lookup_2. }
  rewrite Hj. simpl. apply lastIndexOf_Some in Hj as [_ Hlast].
  assert (c ≤ j)%nat as Hcj.
  { destruct (decide (c ≤ j)%nat); [done |]. destruct (Hlast c); [lia | done]. }
  rewrite lookup_ge_None_2 by lia. reflexivity.
Qed.

Lemma C4_short_row_padded_witness :
  keptLines short_text !! 1%nat = Some "1"
  ∧ rows (parseCsvText short_text) !! 0%nat = Some (parseRow ["a"; "b"] "1")
  ∧ columns (parseCsvText short_text) !! 1%nat = Some "b"
  ∧ (length (splitCsvLine "1") ≤ 1)%nat
  ∧ parseRow ["a"; "b"] "1" !! "b" = Some (CStr "").
Proof.
  repeat (split; [by vm_compute |]).
  apply (C4_short_row_padded short_text 0 "1" (parseRow ["a"; "b"] "1") 1 "b");
    by vm_compute.
Defined.

(** ** Repeated column names *)

Section Duplicates.

Lemma size_add_le (x : string) (Y : gset string) :
  (size ({[x]} ∪ Y) ≤ S (size Y))%nat.
Proof.
  rewrite size_union_alt, size_singleton.
  assert (size (Y ∖ {[x]}) ≤ size Y)%nat by (apply subseteq_size; set_solver).
  lia.
Qed.

Lemma size_list_to_set_le (l : list string) :
  (size (list_to_set l : gset string) ≤ length l)%nat.
Proof.
  induction l as [|x l IH].
  - by rewrite list_to_set_nil, size_empty.
  - rewrite list_to_set_cons. etrans; [apply size_add_le |]. simpl. lia.
Qed.

Lemma size_list_to_set_lt (l : list string) :
  ¬ NoDup l → (size (list_to_set l : gset string) < length l)%nat.
Proof.
  induction l as [|x l IH]; intros Hnd.
  - destruct Hnd. constructor.
  - rewrite list_to_set_cons. simpl.
    destruct (decide (x ∈ l)) as [Hin | Hin].
    + replace ({[x]} ∪ list_to_set l : gset string) with
        (list_to_set l : gset string) by set_solver.
      pose proof (size_list_to_set_le l). lia.
    + assert (¬ NoDup l) as Hl by (intros ?; apply Hnd; by constructor).
      apply IH in Hl. pose proof (size_add_le x (list_to_set l)). lia.
Qed.

(** A parsed row has no more keys than the header has distinct names;
    fewer keys than columns when a name is repeated. *)
Lemma parseRow_size (cols : list string) (line : string) :
  (size (parseRow cols line) ≤ size (list_to_set cols : gset string))%nat.
Proof.
  rewrite <- size_dom. apply subseteq_size.
  intros k Hk. apply elem_of_dom in Hk.
  apply parseRow_keys in Hk as [Hk _]. by apply elem_of_list_to_set.
Qed.

(** The column list keeps every occurrence of a repeated name, in
    order; a row holds one key for a name other than [__proto__], with
    the field at the last position of that name, and so has fewer keys
    than the table has columns. *)
Lemma duplicate_columns (header : string) (data : list string) (text : string) :
  keptLines text = header :: data →
  columns (parseCsvText text) = map trim (splitCsvLine header)
  ∧ ∀ (i : nat) (line : string) (r : row),
      data !! i = Some line → rows (parseCsvText text) !! i = Some r →
      (∀ (name : string) (last : nat),
         name ≠ "__proto__" →
         lastIndexOf name (columns (parseCsvText text)) = Some last →
         r !! name = Some (classify (default "" (splitCsvLine line !! last))))
      ∧ (¬ NoDup (columns (parseCsvText text)) →
         (size r < length (columns (parseCsvText text)))%nat).
Proof.
  intros Hk. split; [unfold parseCsvText; by rewrite Hk |].
  intros i line r Hline Hr.
  rewrite parse_rows_lookup, Hk in Hr. simpl in Hr. rewrite Hline in Hr.
  injection Hr as <-. split.
  - intros name last Hname Hlast. rewrite parseRow_lookup by done.
    by rewrite Hlast.
  - intros Hnd. eapply Nat.le_lt_trans; [apply parseRow_size |].
    by apply size_list_to_set_lt.
Qed.

End Duplicates.

(** C10, at a header that repeats the name [__proto__]: the column
    list keeps both occurrences, but the one data row has no key at
    all, so no key holds the field at the last position of the name. *)
Theorem C10_repeated_proto_column :
  keptLines proto_text = ["__proto__,__proto__"; "1,2"]
  ∧ columns (parseCsvText proto_text) = ["__proto__"; "__proto__"]
  ∧ rows (parseCsvText proto_text) = [∅]
  ∧ (∀ text r, r ∈ rows (parseCsvText text) → r !! "__proto__" = None).
Proof.
  split; [by vm_compute |]. split; [by vm_compute |]. split; [by vm_compute |].
  intros text r (line & _ & ->)%parse_rows_elem. apply parseRow_proto.
Qed.

(** ** The merge of the files *)

Section MergeFacts.

Implicit Types (l acc : list string) (texts : list string).

Lemma filter_all (P : string → Prop) `{∀ x, Decision (P x)} l :
  (∀ x, P x) → filter P l = l.
Proof.
  intros HP. induction l as [|x l IH]; [done |].
  rewrite filter_cons_True by done. by rewrite IH.
Qed.

Lemma elem_of_concat (x : string) (ls : list (list string)) :
  x ∈ concat ls ↔ ∃ l, l ∈ ls ∧ x ∈ l.
Proof.
  rewrite list_elem_of_In, in_concat. split.
  - intros (l & Hl & Hx). exists l. by rewrite !list_elem_of_In.
  - intros (l & Hl & Hx). exists l. by rewrite <- !list_elem_of_In.
Qed.

Lemma firstSeen_elem l x : x ∈ firstSeen l ↔ x ∈ l.
Proof.
  induction l as [|y l IH]; simpl; [done |].
  rewrite !elem_of_cons, list_elem_of_filter, IH.
  destruct (decide (x = y)); naive_solver.
Qed.

Lemma firstSeen_NoDup l : NoDup (firstSeen l).
Proof.
  induction l as [|y l IH]; simpl; [constructor |].
  constructor; [| by apply NoDup_filter].
  rewrite list_elem_of_filter. naive_solver.
Qed.

Lemma setAdd_fold l acc :
  foldl setAdd acc l = acc ++ filter (λ y, y ∉ acc) (firstSeen l).
Proof.
  revert acc. induction l as [|x l IH]; intros acc; simpl.
  - by rewrite filter_nil, app_nil_r.
  - rewrite IH. unfold setAdd. case_bool_decide as Hx.
    + rewrite filter_cons_False by naive_solver. f_equal.
      rewrite list_filter_filter. apply list_filter_iff.
      intros y. split; [| naive_solver]. intros Hy. split; [done |].
      by intros ->.
    + rewrite filter_cons_True by done. rewrite <- app_assoc. simpl.
      do 2 f_equal. rewrite list_filter_filter. apply list_filter_iff.
      intros y. rewrite elem_of_app, list_elem_of_singleton. naive_solver.
Qed.

Lemma mergeFiles_fold texts (acc : list string * list row) :
  foldl mergeFile acc texts =
    (foldl setAdd acc.1 (concat (map (λ t, columns (parseCsvText t)) texts)),
     acc.2 ++ concat (map (λ t, rows (parseCsvText t)) texts)).
Proof.
  revert acc. induction texts as [|t texts IH]; intros [cs rs]; simpl.
  - by rewrite app_nil_r.
  - rewrite IH. simpl. by rewrite foldl_app, <- app_assoc.
Qed.

Lemma mergeFiles_headers texts :
  (mergeFiles texts).1 =
    firstSeen (concat (map (λ t, columns (parseCsvText t)) texts)).
Proof.
  unfold mergeFiles. rewrite mergeFiles_fold. simpl. rewrite setAdd_fold. simpl.
  apply filter_all. intros y. by inversion 1.
Qed.

Lemma mergeFiles_rows texts :
  (mergeFiles texts).2 = concat (map (λ t, rows (parseCsvText t)) texts).
Proof. unfold mergeFiles. by rewrite mergeFiles_fold. Qed.

End MergeFacts.

(** ** The folder matcher *)

Section MatcherFacts.

Lemma startsWith_empty (d : string) : startsWith "" d = true.
Proof. by destruct d. Qed.

Lemma filter_true {A} (f : A → bool) (l : list A) :
  (∀ x, f x = true) → List.filter f l = l.
Proof.
  intros Hf. induction l as [|x l IH]; simpl; [done |]. by rewrite Hf, IH.
Qed.

Lemma matchFolders_filter (subdirs : list string) (key : string) :
  matchFolders subdirs key = List.filter (startsWith key) subdirs.
Proof.
  unfold matchFolders. destruct key as [|c key]; simpl; [|done].
  symmetry. by apply filter_true.
Qed.

Lemma matchFolders_entries (entries : list (string * node)) (key : string) :
  matchFolders (listImmediateSubdirs entries) key =
    (List.filter (λ e, isDirectory e.2 && startsWith key e.1) entries).*1.
Proof.
  rewrite matchFolders_filter. unfold listImmediateSubdirs.
  induction entries as [|[name n] entries IH]; csimpl; [done |].
  destruct (isDirectory n); csimpl; [|done].
  destruct (startsWith key name); csimpl; by rewrite IH.
Qed.

End MatcherFacts.

(** C6. The folders matched for a keyword are, in listing order, the
    names of the entries of the base directory that are directories
    and start with the trimmed keyword: a name is matched exactly
    when an entry of that name is a directory and the name starts
    with the trimmed keyword, so no file and nothing but an entry of
    the base directory is matched; when the trimmed keyword is empty
    they are all the immediate subdirectories, as they are for a
    keyword that is no string.  On a base directory the aggregate
    operation fails with the no-match error exactly when no folder is
    matched, and a report names the folders matched and the trimmed
    keyword. *)
Theorem C6_folder_matcher (dir : string) (entries : list (string * node))
    (keyword : string) :
  let key := trim keyword in
  let selected :=
    (List.filter (λ e, isDirectory e.2 && startsWith key e.1) entries).*1 in
  let all := (List.filter (λ e, isDirectory e.2) entries).*1 in
  matchFolders (listImmediateSubdirs entries) (keyOf (Some keyword)) = selected
  ∧ (∀ d, d ∈ selected ↔
          (∃ sub, (d, Dir sub) ∈ entries) ∧ startsWith key d = true)
  ∧ (∀ d, d ∈ all ↔ ∃ sub, (d, Dir sub) ∈ entries)
  ∧ (key = "" → selected = all)
  ∧ (loadCombinedCsvs dir (Some (Dir entries)) (Some keyword) = inl NoMatch
     ↔ selected = [])
  ∧ (∀ rep, loadCombinedCsvs dir (Some (Dir entries)) (Some keyword) = inr rep →
            matchedFolders (info rep) = selected
            ∧ startKeyword (info rep) = key)
  ∧ (loadCombinedCsvs dir (Some (Dir entries)) None = inl NoMatch ↔ all = [])
  ∧ (∀ rep, loadCombinedCsvs dir (Some (Dir entries)) None = inr rep →
            matchedFolders (info rep) = all ∧ startKeyword (info rep) = "").
Proof.
  intros key selected all.
  assert (matchFolders (listImmediateSubdirs entries) (keyOf (Some keyword))
          = selected) as Hsel by apply matchFolders_entries.
  assert (matchFolders (listImmediateSubdirs entries) (keyOf None) = all)
    as Hall by reflexivity.
  assert (∀ (f : string * node → bool) d,
            d ∈ (List.filter (λ e, isDirectory e.2 && f e) entries).*1 ↔
            ∃ sub, (d, Dir sub) ∈ entries ∧ f (d, Dir sub) = true) as Hmem.
  { intros f d. rewrite list_elem_of_fmap. split.
    - intros ([name n] & -> & Hin). apply list_elem_of_In, filter_In in Hin
        as [Hin Hf]. simpl in *. apply andb_true_iff in Hf as [Hd Hs].
      destruct n as [| sub |]; try done. exists sub.
      split; [by apply list_elem_of_In | done].
    - intros (sub & Hin & Hf). exists (d, Dir sub). split; [done |].
      apply list_elem_of_In, filter_In. split; [by apply list_elem_of_In |].
      simpl. by rewrite Hf. }
  assert (∀ kw matched,
            matchFolders (listImmediateSubdirs entries) (keyOf kw) = matched →
            (loadCombinedCsvs dir (Some (Dir entries)) kw = inl NoMatch
             ↔ matched = [])
            ∧ ∀ rep, loadCombinedCsvs dir (Some (Dir entries)) kw = inr rep →
                     matchedFolders (info rep) = matched
                     ∧ startKeyword (info rep) = keyOf kw) as Hload.
  { intros kw matched <-. unfold loadCombinedCsvs. cbv zeta. split.
    - case_bool_decide as Hm; [done |]. split; [|done].
      match goal with |- context [bool_decide (?fs = [])] => set (files := fs) end.
      case_bool_decide; [done |]. by destruct (mergeFiles files.*2).
    - intros rep. case_bool_decide as Hm; [done |].
      match goal with |- context [bool_decide (?fs = [])] => set (files := fs) end.
      case_bool_decide; [done |]. destruct (mergeFiles files.*2).
      by intros [= <-]. }
  split; [done |]. split; [| split; [| split]].
  - intros d. unfold selected. rewrite Hmem. split.
    + intros (sub & Hin & Hs). split; [by exists sub | done].
    + intros [[sub Hin] Hs]. by exists sub.
  - intros d. unfold all. rewrite list_elem_of_fmap. split.
    + intros ([name n] & -> & Hin). apply list_elem_of_In, filter_In in Hin
        as [Hin Hd]. destruct n as [| sub |]; try done.
      exists sub. by apply list_elem_of_In.
    + intros [sub Hin]. exists (d, Dir sub). split; [done |].
      apply list_elem_of_In, filter_In. split; [by apply list_elem_of_In | done].
  - intros Hkey. unfold selected, all. rewrite Hkey. f_equal.
    apply filter_ext. intros e. by rewrite startsWith_empty, andb_true_r.
  - destruct (Hload (Some keyword) selected Hsel) as [H1 H2].
    destruct (Hload None all Hall) as [H3 H4].
    split; [exact H1 | split; [exact H2 | split; [exact H3 | exact H4]]].
Qed.

(** ** The header parsers and the line splitter *)

Section HeaderFacts.

Implicit Types (s cur rest line : string) (out fields : list string).

Lemma dropQuotes_push_quote cur : dropQuotes (push_char cur dquote) = dropQuotes cur.
Proof.
  unfold push_char. induction cur as [|c cur IH]; simpl; [done |].
  by rewrite IH.
Qed.

Lemma dropQuotes_push cur ch :
  is_dquote ch = false →
  dropQuotes (push_char cur ch) = push_char (dropQuotes cur) ch.
Proof.
  intros Hch. unfold push_char. induction cur as [|c cur IH]; simpl.
  - by rewrite Hch.
  - rewrite IH. by destruct (is_dquote c).
Qed.

Lemma hasQuote_dropQuotes s : hasQuote (dropQuotes s) = false.
Proof.
  induction s as [|c s IH]; simpl; [done |].
  destruct (is_dquote c) eqn:E; simpl; [done |]. by rewrite E.
Qed.

Lemma hasQuote_trimStart s : hasQuote s = false → hasQuote (trimStart s) = false.
Proof.
  induction s as [|c s IH]; simpl; [done |]. intros H.
  apply orb_false_elim in H as [Hc Hs].
  destruct (isWhiteSpace c); [by apply IH |]. simpl. by rewrite Hc, Hs.
Qed.

Lemma hasQuote_trimEnd s : hasQuote s = false → hasQuote (trimEnd s) = false.
Proof.
  induction s as [|c s IH]; simpl; [done |]. intros H.
  apply orb_false_elim in H as [Hc Hs]. specialize (IH Hs).
  destruct (trimEnd s) as [|c' s'].
  - destruct (isWhiteSpace c); [done |]. simpl. by rewrite Hc.
  - change (hasQuote (String c (String c' s'))) with
      (is_dquote c || hasQuote (String c' s')).
    by rewrite Hc, IH.
Qed.

Lemma hasQuote_headerField f : hasQuote (headerField f) = false.
Proof.
  unfold headerField, trim.
  apply hasQuote_trimEnd, hasQuote_trimStart, hasQuote_dropQuotes.
Qed.

(** The quote stripping of the header parsers never finds a quote to
    strip: the loops copy no quote into a field. *)
Lemma stripQuotes_id s : hasQuote s = false → stripQuotes s = s.
Proof.
  destruct s as [|c s]; simpl; [done |]. intros H.
  apply orb_false_elim in H as [-> _]. done.
Qed.

Lemma headerOf_snoc out cur :
  headerOf (out ++ [cur]) =
    map headerField out
    ++ (if nonEmpty (dropQuotes cur) then [headerField cur] else []).
Proof.
  induction out as [|f out IH]; [done |].
  change (headerOf ((f :: out) ++ [cur])) with (headerOf (f :: (out ++ [cur]))).
  destruct (out ++ [cur]) as [|g rest] eqn:E; [by destruct out |].
  change (headerOf (f :: g :: rest)) with (headerField f :: headerOf (g :: rest)).
  by rewrite IH.
Qed.

(** The loop of the router's header parser walks the line as the
    splitter does, with the quotes left out of its fields. *)
Lemma headerLoop'_splitLoop (n : nat) rest out cur (inQ : bool) :
  (String.length rest ≤ n)%nat →
  headerLoop' rest (map headerField out) (dropQuotes cur) inQ =
    headerOf (splitLoop rest out cur inQ).
Proof.
  revert rest out cur inQ. induction n as [|n IH]; intros rest out cur inQ Hn.
  - destruct rest; [|simpl in Hn; lia]. simpl. rewrite headerOf_snoc.
    destruct (nonEmpty (dropQuotes cur)); [done | by rewrite app_nil_r].
  - destruct rest as [|ch rest'].
    { simpl. rewrite headerOf_snoc.
      destruct (nonEmpty (dropQuotes cur)); [done | by rewrite app_nil_r]. }
    simpl in Hn. simpl. destruct (is_dquote ch) eqn:Hq.
    + destruct inQ; [|apply IH; lia].
      destruct rest' as [|nx rest'']; [apply IH; simpl; lia |].
      destruct (is_dquote nx) eqn:Hnx; [|apply IH; simpl in *; lia].
      simpl. rewrite Hnx. simpl.
      rewrite <- (dropQuotes_push_quote cur). apply IH. simpl in Hn. lia.
    + destruct (is_comma ch && negb inQ) eqn:Hc.
      * change "" with (dropQuotes "") at 1.
        replace (map headerField out ++ [trim (dropQuotes cur)])
          with (map headerField (out ++ [cur])) by (by rewrite map_app).
        apply IH. lia.
      * rewrite <- dropQuotes_push by done. apply IH. lia.
Qed.

Lemma headerLoop_headerLoop' rest out cur (inQ : bool) :
  headerLoop rest (map stripQuotes out) cur inQ =
    map stripQuotes (headerLoop' rest out cur inQ).
Proof.
  revert out cur inQ. induction rest as [|ch rest IH]; intros out cur inQ; simpl.
  - destruct (nonEmpty cur); [by rewrite map_app | done].
  - destruct (is_dquote ch); [apply IH |].
    destruct (is_comma ch && negb inQ); [|apply IH].
    rewrite <- IH. by rewrite map_app.
Qed.

Lemma stripQuotes_headerOf fields : map stripQuotes (headerOf fields) = headerOf fields.
Proof.
  induction fields as [|f fields IH]; [done |].
  destruct fields as [|g rest].
  - simpl. destruct (nonEmpty (dropQuotes f)); [|done]. simpl.
    by rewrite stripQuotes_id by apply hasQuote_headerField.
  - change (headerOf (f :: g :: rest)) with (headerField f :: headerOf (g :: rest)).
    rewrite map_cons, IH. by rewrite stripQuotes_id by apply hasQuote_headerField.
Qed.

Lemma router_header line : parseCsvHeader line = headerOf (splitCsvLine line).
Proof.
  unfold parseCsvHeader, splitCsvLine.
  change (headerLoop' line [] "" false) with
    (headerLoop' line (map headerField []) (dropQuotes "") false).
  rewrite (headerLoop'_splitLoop (String.length line)) by done.
  apply stripQuotes_headerOf.
Qed.

Lemma server_header line : parseCsvHeader_server line = parseCsvHeader line.
Proof.
  unfold parseCsvHeader_server, parseCsvHeader.
  by rewrite <- headerLoop_headerLoop'.
Qed.

Lemma dropQuotes_id s : hasQuote s = false → dropQuotes s = s.
Proof.
  induction s as [|c s IH]; simpl; [done |].
  intros [-> Hs]%orb_false_elim. by rewrite IH.
Qed.

(** Where the two parsers and the splitter agree: on a line whose
    fields hold no quote and no white space at either end, and whose
    last field is not empty. *)
Lemma headerOf_clean fields :
  Forall (λ f, hasQuote f = false ∧ trim f = f) fields →
  last fields ≠ Some "" →
  headerOf fields = fields.
Proof.
  induction fields as [|f fields IH]; [done |].
  intros Hall Hlast. apply Forall_cons in Hall as [[Hq Ht] Hall].
  assert (headerField f = f) as Hf.
  { unfold headerField. by rewrite dropQuotes_id, Ht. }
  destruct fields as [|g rest].
  - simpl. rewrite dropQuotes_id by done. rewrite Hf.
    destruct f; [by destruct Hlast | done].
  - change (headerOf (f :: g :: rest)) with (headerField f :: headerOf (g :: rest)).
    rewrite Hf. f_equal. apply IH; [done |]. by rewrite last_cons_cons in Hlast.
Qed.

End HeaderFacts.

(** C7, as stated, fails for both header parsers: they trim a field
    that the splitter leaves as it is, leave out an empty last field,
    and lose an escaped quote. *)
Lemma C7_header_differs :
  splitCsvLine "a, b" = ["a"; " b"]
  ∧ parseCsvHeader "a, b" = ["a"; "b"]
  ∧ parseCsvHeader_server "a, b" = ["a"; "b"]
  ∧ splitCsvLine "a," = ["a"; ""]
  ∧ parseCsvHeader "a," = ["a"]
  ∧ parseCsvHeader_server "a," = ["a"]
  ∧ splitCsvLine line_said = [he_said_hi]
  ∧ parseCsvHeader line_said = ["he said hi"]
  ∧ ¬ (∀ line, parseCsvHeader line = splitCsvLine line)
  ∧ ¬ (∀ line, parseCsvHeader_server line = splitCsvLine line).
Proof.
  repeat (split; [by vm_compute |]).
  split; intros H; by specialize (H "a, b").
Qed.

(** C7, amended. For every line, each of the two header parsers
    returns the fields of [splitCsvLine] for that line with the quotes
    left in a field removed and the field trimmed, and without the
    last field when nothing but quotes is in it. *)
Theorem C7_header_of_splitter (line : string) :
  parseCsvHeader line = headerOf (splitCsvLine line)
  ∧ parseCsvHeader_server line = headerOf (splitCsvLine line).
Proof.
  split; [apply router_header |].
  rewrite server_header. apply router_header.
Qed.

(** ** Column inspection and the data directory *)

Section ColumnsFacts.

Variable dirname : string.
Variable readFile : string → readResult.

(** What the guard of server.js does give: a path handed to
    [fs.readFile] has the text of the data directory for a prefix. *)
Lemma handleApiColumns_reads (m : method) (flow : option string) (p : string) :
  p ∈ (handleApiColumns dirname readFile m flow).2 →
  startsWith (DATA_DIR dirname) p = true.
Proof.
  unfold handleApiColumns. destruct m; simpl; try by inversion 1.
  destruct flow as [[|c flow]|]; simpl; try by inversion 1.
  match goal with |- context [startsWith ?d ?x] =>
    destruct (startsWith d x) eqn:E end; simpl; [|by inversion 1].
  intros ->%list_elem_of_singleton. exact E.
Qed.

(** The router's [handleColumns] reads the joined path whatever the
    flow name is. *)
Lemma handleColumns_reads (c : ascii) (flow : string) :
  (handleColumns dirname readFile GET (Some (String c flow))).2
  = [Path.join2 (DATA_DIR dirname) (String c flow +:+ ".csv")].
Proof. reflexivity. Qed.

(** An answer of the invalid-flow kind comes with no read. *)
Lemma handleApiColumns_rejects (m : method) (flow : option string) :
  (handleApiColumns dirname readFile m flow).1
    = errorReply 400 "Invalid flow name" →
  (handleApiColumns dirname readFile m flow).2 = [].
Proof.
  unfold handleApiColumns. destruct m; simpl; try done.
  destruct flow as [[|c flow]|]; simpl; try done.
  match goal with |- context [startsWith ?d ?x] =>
    destruct (startsWith d x) eqn:E end; simpl; [|done].
  destruct (readFile _); try done.
  by destruct (List.filter _ _).
Qed.

End ColumnsFacts.

(** C8, at flow names that leave the data directory.  With the server
    in /srv/app, the data directory is /srv/app/data.  The router's
    [handleColumns] has no check: for the flow ../secret it reads
    /srv/app/secret.csv and answers with its header.  The check of
    [handleApiColumns] in server.js compares texts, not path segments:
    it turns ../secret down without a read, but for the flow
    ../database it reads /srv/app/database.csv and answers with its
    header.  Neither file lies below the data directory. *)
Theorem C8_escaping_flow_is_read :
  DATA_DIR "/srv/app" = "/srv/app/data"
  ∧ handleColumns "/srv/app" (oneFile "/srv/app/secret.csv" "user,password")
      GET (Some "../secret")
    = (fieldsReply ["user"; "password"], ["/srv/app/secret.csv"])
  ∧ ¬ Path.below "/srv/app/data" "/srv/app/secret.csv"
  ∧ handleApiColumns "/srv/app" (oneFile "/srv/app/secret.csv" "user,password")
      GET (Some "../secret")
    = (errorReply 400 "Invalid flow name", [])
  ∧ handleApiColumns "/srv/app"
      (oneFile "/srv/app/database.csv" "user,password")
      GET (Some "../database")
    = (fieldsReply ["user"; "password"], ["/srv/app/database.csv"])
  ∧ ¬ Path.below "/srv/app/data" "/srv/app/database.csv"
  ∧ Path.below "/srv/app/data" "/srv/app/data/plan.csv".
Proof.
  split; [by vm_compute |]. split; [by vm_compute |].
  split; [by apply (bool_decide_unpack _); vm_compute |].
  split; [by vm_compute |]. split; [by vm_compute |].
  split; by apply (bool_decide_unpack _); vm_compute.
Qed.

(** ** Replacing the task list *)

Section TaskFacts.

(** The check of the size at every chunk is a check of the whole
    body. *)
Lemma dropped_from (sizes : list N) (soFar : N) :
  (soFar ≤ bodyLimit)%N →
  dropped sizes soFar = (bodyLimit <? soFar + totalSize sizes)%N.
Proof.
  revert soFar. induction sizes as [|size sizes IH]; intros soFar Hs.
  - cbn [dropped totalSize foldr]. rewrite N.add_0_r.
    symmetry. apply N.ltb_ge. exact Hs.
  - cbn [dropped totalSize foldr]. fold (totalSize sizes).
    destruct (bodyLimit <? soFar + size)%N eqn:E.
    + apply N.ltb_lt in E. symmetry. apply N.ltb_lt. lia.
    + apply N.ltb_ge in E. cbn [orb]. rewrite IH by done.
      by rewrite N.add_assoc.
Qed.

Lemma dropped_total (sizes : list N) :
  dropped sizes 0 = (bodyLimit <? totalSize sizes)%N.
Proof. rewrite dropped_from by done. by rewrite N.add_0_l. Qed.

End TaskFacts.

(** C9, as stated, fails at the empty body: it is no JSON array, yet
    both handlers take it for the empty array, write it and answer
    with success, so a stored list is replaced by the empty one. *)
Lemma C9_empty_body_replaces :
  isArrayText EmptyText = false
  ∧ handleTasks PUT oneTask false EmptyText
    = (Some (Reply 200 (JObj [("ok", JBool true)])), Some (TextOf (JArr [])))
  ∧ handleApiTasks PUT oneTask false [] EmptyText
    = (Some (Reply 200 (JObj [("ok", JBool true)])), Some (TextOf (JArr [])))
  ∧ storedAfter false oneTask oneTask (handleTasks PUT oneTask false EmptyText).2
    = FileText (TextOf (JArr []))
  ∧ ¬ (∀ body, isArrayText body = false →
               invalidInput (handleTasks PUT oneTask false body).1
               ∧ (handleTasks PUT oneTask false body).2 = None).
Proof.
  repeat (split; [reflexivity |]).
  intros H. destruct (H EmptyText eq_refl) as [_ Hw]. done.
Qed.

(** C9, amended. For every body that is not empty and is not the text
    of a JSON array (a text that is no JSON, or the text of another
    value), the router answers a PUT with an invalid-input error and
    passes nothing to [fs.writeFile], so the stored document is what
    it was.  server.js does the same for a body of at most 5 times
    1024 times 1024 characters; for a longer one it drops the
    connection: nothing is answered, and nothing is written either. *)
Theorem C9_non_array_rejected (writeFails : bool) (body : jsonText)
    (left file : taskFile) (sizes : list N) :
  body ≠ EmptyText →
  isArrayText body = false →
  invalidInput (handleTasks PUT file writeFails body).1
  ∧ (handleTasks PUT file writeFails body).2 = None
  ∧ storedAfter writeFails left file (handleTasks PUT file writeFails body).2
    = file
  ∧ ((totalSize sizes ≤ 5 * 1024 * 1024)%N →
     invalidInput (handleApiTasks PUT file writeFails sizes body).1)
  ∧ ((5 * 1024 * 1024 < totalSize sizes)%N →
     (handleApiTasks PUT file writeFails sizes body).1 = None)
  ∧ (handleApiTasks PUT file writeFails sizes body).2 = None
  ∧ storedAfter writeFails left file
      (handleApiTasks PUT file writeFails sizes body).2 = file.
Proof.
  intros Hne Harr. unfold invalidInput.
  assert ((∃ msg, (handleTasks PUT file writeFails body).1
                  = Some (errorReply 400 msg))
          ∧ (handleTasks PUT file writeFails body).2 = None) as [Hr Hw].
  { destruct body as [| | v]; [done | by simpl; eauto |].
    destruct v; try done; simpl; eauto. }
  split; [done |]. split; [done |]. split; [by rewrite Hw |].
  cbn [handleApiTasks]. rewrite dropped_total.
  destruct (bodyLimit <? totalSize sizes)%N eqn:E.
  - apply N.ltb_lt in E. unfold bodyLimit in E.
    split; [intros H; lia |]. by repeat split.
  - apply N.ltb_ge in E. unfold bodyLimit in E.
    destruct body as [| | v]; [done | |]; [| destruct v; try done]; simpl;
      (split; [intros _; eauto |]); (split; [intros H; lia |]); done.
Qed.

Lemma C9_non_array_rejected_witness :
  invalidInput (handleTasks PUT oneTask false notAnArray).1
  ∧ (handleTasks PUT oneTask false notAnArray).2 = None
  ∧ storedAfter false NoFile oneTask (handleTasks PUT oneTask false notAnArray).2
    = oneTask
  ∧ ((totalSize [8; 6] ≤ 5 * 1024 * 1024)%N →
     invalidInput (handleApiTasks PUT oneTask false [8; 6]%N notAnArray).1)
  ∧ ((5 * 1024 * 1024 < totalSize [8; 6])%N →
     (handleApiTasks PUT oneTask false [8; 6]%N notAnArray).1 = None)
  ∧ (handleApiTasks PUT oneTask false [8; 6]%N notAnArray).2 = None
  ∧ storedAfter false NoFile oneTask
      (handleApiTasks PUT oneTask false [8; 6]%N notAnArray).2 = oneTask.
Proof.
  apply (C9_non_array_rejected false notAnArray NoFile oneTask [8; 6]%N);
    [done | reflexivity].
Defined.

(** * Further properties of the code *)

(** ** The line splitter keeps what it reads *)

Section SplitterConservation.

Implicit Types (s cur rest line : string) (out fields : list string).

Lemma join_snoc (sep : string) fields s :
  join sep (fields ++ [s]) =
    match fields with
    | [] => s
    | _ => join sep fields +:+ sep +:+ s
    end.
Proof.
  induction fields as [|f fields IH]; [done |].
  change ((f :: fields) ++ [s]) with (f :: (fields ++ [s])).
  destruct fields as [|g fields]; [done |].
  change (join sep (f :: (g :: fields) ++ [s])) with
    (f +:+ sep +:+ join sep ((g :: fields) ++ [s])).
  rewrite IH.
  change (join sep (f :: g :: fields)) with (f +:+ sep +:+ join sep (g :: fields)).
  by rewrite !sapp_assoc.
Qed.

Lemma dropQuotes_app s1 s2 : dropQuotes (s1 +:+ s2) = dropQuotes s1 +:+ dropQuotes s2.
Proof.
  induction s1 as [|c s1 IH]; simpl; [done |].
  destruct (is_dquote c); simpl; by rewrite IH.
Qed.

Lemma readSoFar_push out cur ch :
  is_dquote ch = false →
  readSoFar out (push_char cur ch) = readSoFar out cur +:+ String ch "".
Proof.
  intros Hch. unfold readSoFar. rewrite !map_app. simpl.
  rewrite !join_snoc, dropQuotes_push by done. unfold push_char.
  destruct (map dropQuotes out); [done |]. by rewrite !sapp_assoc.
Qed.

Lemma readSoFar_quote out cur :
  readSoFar out (push_char cur dquote) = readSoFar out cur.
Proof.
  unfold readSoFar. rewrite !map_app. simpl. by rewrite dropQuotes_push_quote.
Qed.

Lemma readSoFar_comma out cur :
  readSoFar (out ++ [cur]) "" = readSoFar out cur +:+ String comma "".
Proof.
  unfold readSoFar. rewrite (map_app _ (out ++ [cur])). simpl.
  rewrite (join_snoc _ (map dropQuotes (out ++ [cur]))).
  rewrite map_app. simpl. by destruct (map dropQuotes out).
Qed.

Lemma splitLoop_keeps (n : nat) rest out cur (inQ : bool) :
  (String.length rest ≤ n)%nat →
  join (String comma "") (map dropQuotes (splitLoop rest out cur inQ))
  = readSoFar out cur +:+ dropQuotes rest.
Proof.
  revert rest out cur inQ. induction n as [|n IH]; intros rest out cur inQ Hn.
  - destruct rest; [|simpl in Hn; lia]. simpl. by rewrite sapp_nil_r.
  - destruct rest as [|ch rest']; [simpl; by rewrite sapp_nil_r |].
    simpl in Hn. simpl. destruct (is_dquote ch) eqn:Hq.
    + destruct inQ; [|apply IH; lia].
      destruct rest' as [|nx rest'']; [apply IH; simpl; lia |].
      destruct (is_dquote nx) eqn:Hnx.
      * rewrite IH by (simpl in Hn; lia). simpl. by rewrite Hnx, readSoFar_quote.
      * rewrite IH by (simpl in *; lia). done.
    + destruct (is_comma ch && negb inQ) eqn:Hc.
      * rewrite IH by lia. rewrite readSoFar_comma.
        apply andb_true_iff in Hc as [Hc _]. apply Ascii.eqb_eq in Hc. subst ch.
        by rewrite sapp_assoc.
      * rewrite IH by lia. rewrite readSoFar_push by done. by rewrite sapp_assoc.
Qed.

(** On a line without quotes the loop never enters quote mode. *)
Lemma splitLoop_plain rest out cur :
  hasQuote rest = false →
  Forall (λ f, needsQuotes f = false) out → needsQuotes cur = false →
  Forall (λ f, needsQuotes f = false) (splitLoop rest out cur false).
Proof.
  revert out cur. induction rest as [|ch rest IH]; intros out cur Hq Hout Hcur.
  - simpl. apply Forall_app. split; [done |]. by constructor.
  - simpl in Hq. apply orb_false_elim in Hq as [Hch Hrest].
    simpl. rewrite Hch. destruct (is_comma ch) eqn:Hc; simpl.
    + apply IH; [done | | done]. apply Forall_app. split; [done |]. by constructor.
    + apply IH; [done | done |]. unfold push_char.
      clear -Hcur Hch Hc. induction cur as [|c cur IHc]; simpl.
      * by rewrite Hch, Hc.
      * simpl in Hcur. apply orb_false_elim in Hcur as [Hcc Hcur].
        rewrite Hcc. simpl. by apply IHc.
Qed.

Lemma needsQuotes_hasQuote s : needsQuotes s = false → hasQuote s = false.
Proof.
  induction s as [|c s IH]; simpl; [done |].
  intros [[-> _]%orb_false_elim Hs]%orb_false_elim. by apply IH.
Qed.

End SplitterConservation.

(** [splitCsvLine] loses nothing but quotes: for every line, the
    fields without their quotes, joined by commas, are the line
    without its quotes. *)
Theorem splitCsvLine_keeps_text (line : string) :
  join (String comma "") (map dropQuotes (splitCsvLine line)) = dropQuotes line.
Proof.
  unfold splitCsvLine. rewrite (splitLoop_keeps (String.length line)) by done.
  reflexivity.
Qed.

(** On a line without a double quote, [splitCsvLine] cuts at every
    comma: no field holds a comma or a quote, and the fields joined by
    commas are the line. *)
Theorem splitCsvLine_plain_line (line : string) :
  hasQuote line = false →
  Forall (λ f, needsQuotes f = false) (splitCsvLine line)
  ∧ join (String comma "") (splitCsvLine line) = line.
Proof.
  intros Hq.
  assert (Forall (λ f, needsQuotes f = false) (splitCsvLine line)) as Hf.
  { unfold splitCsvLine. by apply splitLoop_plain. }
  split; [done |].
  rewrite <- (dropQuotes_id line) at 2 by done.
  change (dropQuotes line) with (readSoFar [] "" +:+ dropQuotes line).
  rewrite <- (splitLoop_keeps (String.length line) line [] "" false) by done.
  fold (splitCsvLine line). f_equal.
  induction Hf as [|f fs Hf _ IH]; [done |]. simpl.
  rewrite dropQuotes_id by (by apply needsQuotes_hasQuote). by rewrite <- IH.
Qed.

Lemma splitCsvLine_plain_line_witness :
  hasQuote "a,,b c," = false
  ∧ Forall (λ f, needsQuotes f = false) (splitCsvLine "a,,b c,")
  ∧ join (String comma "") (splitCsvLine "a,,b c,") = "a,,b c,".
Proof.
  split; [reflexivity |]. by apply (splitCsvLine_plain_line "a,,b c,").
Defined.

(** ** Rows and their keys *)

Section RowFacts.

Implicit Types (r : row) (k : string) (cols : list string).

Lemma lastIndexOf_lt k cols (i : nat) :
  lastIndexOf k cols = Some i → (i < length cols)%nat.
Proof.
  intros [Hi _]%lastIndexOf_Some. by eapply lookup_lt_Some.
Qed.

Lemma parseRow_dom cols (line : string) :
  dom (parseRow cols line) = list_to_set cols ∖ {["__proto__"]}.
Proof.
  apply set_eq. intros k.
  rewrite elem_of_dom, elem_of_difference, elem_of_list_to_set,
    not_elem_of_singleton.
  split.
  - apply parseRow_keys.
  - intros [Hin Hk]. rewrite parseRow_lookup by done.
    destruct (lastIndexOf_elem k cols Hin) as [i ->]. by eexists.
Qed.

End RowFacts.

(** Every row of a parsed table has the same keys: the column names
    of the table, [__proto__] left out. *)
Theorem rows_share_keys (text : string) (r : row) :
  r ∈ rows (parseCsvText text) →
  dom r = list_to_set (columns (parseCsvText text)) ∖ {["__proto__"]}.
Proof.
  intros (line & _ & ->)%parse_rows_elem. apply parseRow_dom.
Qed.

Lemma rows_share_keys_witness :
  parseRow ["a"; "b"] "1" ∈ rows (parseCsvText short_text)
  ∧ dom (parseRow ["a"; "b"] "1")
    = list_to_set (columns (parseCsvText short_text)) ∖ {["__proto__"]}.
Proof.
  assert (parseRow ["a"; "b"] "1" ∈ rows (parseCsvText short_text)) as H.
  { vm_compute. apply list_elem_of_here. }
  split; [exact H |]. exact (rows_share_keys short_text _ H).
Defined.

(** A data line gives its row through its first fields only, as many
    as the table has columns: the fields after them are dropped. *)
Theorem parseRow_ignores_extra_fields (cols : list string) (line1 line2 : string) :
  take (length cols) (splitCsvLine line1) = take (length cols) (splitCsvLine line2) →
  parseRow cols line1 = parseRow cols line2.
Proof.
  intros Htake. apply map_eq. intros k.
  destruct (decide (k = "__proto__")) as [-> | Hk].
  - by rewrite !parseRow_proto.
  - rewrite !parseRow_lookup by done.
    destruct (lastIndexOf k cols) as [i|] eqn:Hi; [|done]. simpl.
    apply lastIndexOf_lt in Hi.
    rewrite <- (lookup_take_lt (splitCsvLine line1) (length cols)) by done.
    rewrite <- (lookup_take_lt (splitCsvLine line2) (length cols)) by done.
    by rewrite Htake.
Qed.

Lemma parseRow_ignores_extra_fields_witness :
  parseRow ["a"; "b"] "1,2,3,4" = parseRow ["a"; "b"] "1,2".
Proof.
  apply (parseRow_ignores_extra_fields ["a"; "b"] "1,2,3,4" "1,2").
  reflexivity.
Defined.

(** ** The order of the keys in the typing loop *)

(** The typing loop gives the same row in whatever order the keys are
    listed. *)
Theorem retype_any_order (ks ks' : list string) (r : row) :
  ks ≡ₚ ks' → NoDup ks → r !! "__proto__" = None →
  retype ks r = retype ks' r.
Proof.
  intros Hp Hnd Hr. apply map_eq. intros j.
  rewrite !retype_lookup by (done || by rewrite <- Hp).
  destruct (decide (j ∈ ks)) as [Hin | Hin].
  - by rewrite decide_True by (by rewrite <- Hp).
  - by rewrite decide_False by (by rewrite <- Hp).
Qed.

Lemma retype_any_order_witness :
  retype ["a"; "b"] (fillRow ["a"; "b"] 0 ["1"; "x"] ∅)
  = retype ["b"; "a"] (fillRow ["a"; "b"] 0 ["1"; "x"] ∅).
Proof.
  apply retype_any_order.
  - apply perm_swap.
  - by apply (bool_decide_unpack _); vm_compute.
  - by vm_compute.
Defined.

(** ** Lines and line breaks *)

Section LineFacts.

Implicit Types (s a b pre : string) (c : ascii).

Lemma splitLF_pieces c s :
  without c s = true → Forall (λ l, without c l = true) (splitLF s).
Proof.
  induction s as [|c' s IH]; simpl; [by repeat constructor |].
  intros [Hc Hs]%andb_true_iff. specialize (IH Hs).
  destruct (Ascii.eqb c' LF); [by constructor |].
  destruct (splitLF s) as [|hd tl]; [repeat constructor; simpl; by rewrite Hc |].
  apply Forall_cons in IH as [Hhd Htl]. constructor; [|done].
  simpl. by rewrite Hc, Hhd.
Qed.

Lemma splitLF_no_LF s : Forall (λ l, without LF l = true) (splitLF s).
Proof.
  induction s as [|c s IH]; simpl; [by repeat constructor |].
  destruct (Ascii.eqb c LF) eqn:Hc; [by constructor |].
  destruct (splitLF s) as [|hd tl]; [repeat constructor; simpl; by rewrite Hc |].
  apply Forall_cons in IH as [Hhd Htl]. constructor; [|done].
  simpl. by rewrite Hc, Hhd.
Qed.

Lemma replaceCR_no_CR s : without CR (replaceCR s) = true.
Proof.
  induction s as [|c s IH]; simpl; [done |]. rewrite IH, andb_true_r.
  destruct (Ascii.eqb c CR) eqn:Hc; [done |]. by rewrite Hc.
Qed.

Lemma replaceCR_id s : without CR s = true → replaceCR s = s.
Proof.
  induction s as [|c s IH]; simpl; [done |].
  intros [Hc Hs]%andb_true_iff. apply negb_true_iff in Hc.
  by rewrite Hc, IH.
Qed.

Lemma replaceCRLF_id s : without CR s = true → replaceCRLF s = s.
Proof.
  induction s as [|c s IH]; [done |]. intros H.
  pose proof H as [Hc Hs]%andb_true_iff. apply negb_true_iff in Hc.
  rewrite replaceCRLF_other; [by rewrite IH |].
  intros r' ->. by rewrite Ascii.eqb_refl in Hc.
Qed.

Lemma without_withCR s : without CR s = true → without LF (withCR s) = true.
Proof.
  induction s as [|c s IH]; simpl; [done |].
  intros [Hc Hs]%andb_true_iff. rewrite IH, andb_true_r by done.
  destruct (Ascii.eqb c LF) eqn:E; [done |]. by rewrite E.
Qed.

Lemma replaceCRLF_no_LF s : without LF s = true → replaceCRLF s = s.
Proof.
  induction s as [|c s IH]; [done |]. intros H.
  pose proof H as [Hc Hs]%andb_true_iff.
  rewrite replaceCRLF_other; [by rewrite IH |].
  intros r' _ ->.
  change (without LF (String LF r')) with
    (negb (Ascii.eqb LF LF) && without LF r') in Hs.
  by rewrite Ascii.eqb_refl in Hs.
Qed.

Lemma replaceCR_withCR s : without CR s = true → replaceCR (withCR s) = s.
Proof.
  induction s as [|c s IH]; simpl; [done |].
  intros [Hc Hs]%andb_true_iff. apply negb_true_iff in Hc. rewrite IH by done.
  destruct (Ascii.eqb c LF) eqn:E.
  - apply Ascii.eqb_eq in E. subst c. by rewrite Ascii.eqb_refl.
  - by rewrite Hc.
Qed.

Lemma replaceCRLF_withCRLF s : without CR s = true → replaceCRLF (withCRLF s) = s.
Proof.
  induction s as [|c s IH]; [done |]. intros H.
  pose proof H as [Hc Hs]%andb_true_iff. apply negb_true_iff in Hc.
  simpl. destruct (Ascii.eqb c LF) eqn:E.
  - apply Ascii.eqb_eq in E. subst c. rewrite replaceCRLF_CRLF. by rewrite IH.
  - rewrite replaceCRLF_other; [by rewrite IH |].
    intros r' ->. by rewrite Ascii.eqb_refl in Hc.
Qed.

(** *** Lines of two texts joined by a line feed *)

Lemma textLines_nonempty s : textLines s ≠ [].
Proof.
  destruct s as [|c s]; simpl; [done |].
  destruct (Ascii.eqb c LF); [done |].
  destruct (Ascii.eqb c CR); [by destruct s as [|c' s]; [|destruct (Ascii.eqb c' LF)] |].
  by destruct (textLines s).
Qed.

Lemma prependHead_twice pre c (lines : list string) :
  lines ≠ [] →
  prependHead pre (prependHead (String c "") lines)
  = prependHead (push_char pre c) lines.
Proof.
  destruct lines as [|hd tl]; [done |]. intros _. simpl.
  by rewrite push_char_app.
Qed.

Lemma textLines_plain c s :
  Ascii.eqb c LF = false → Ascii.eqb c CR = false →
  textLines (String c s) = prependHead (String c "") (textLines s).
Proof.
  intros H1 H2.
  change (textLines (String c s)) with
    (if Ascii.eqb c LF then "" :: textLines s
     else if Ascii.eqb c CR then
       match s with
       | String c' r' =>
           if Ascii.eqb c' LF then "" :: textLines r' else "" :: textLines s
       | "" => "" :: textLines s
       end
     else match textLines s with
          | [] => [String c ""]
          | hd :: tl => String c hd :: tl
          end).
  rewrite H1, H2. by destruct (textLines s).
Qed.

Lemma kept_joined (n : nat) a b pre :
  (String.length a ≤ n)%nat →
  List.filter nonBlank (prependHead pre (textLines (a +:+ String LF b)))
  = List.filter nonBlank (prependHead pre (textLines a))
    ++ List.filter nonBlank (textLines b).
Proof.
  assert (∀ pre, List.filter nonBlank
                   (prependHead pre (textLines ("" +:+ String LF b)))
                 = List.filter nonBlank (prependHead pre (textLines ""))
                   ++ List.filter nonBlank (textLines b)) as Hbase.
  { intros pre'.
    change (textLines ("" +:+ String LF b)) with ("" :: textLines b).
    change (textLines "") with [""]. simpl.
    by destruct (nonBlank (pre' +:+ "")). }
  revert a pre. induction n as [|n IH]; intros a pre Hn.
  - destruct a; [|simpl in Hn; lia]. apply Hbase.
  - destruct a as [|c a]; [apply Hbase |]. simpl in Hn.
    destruct (Ascii.eqb c LF) eqn:Hlf.
    { apply Ascii.eqb_eq in Hlf. subst c.
      change (textLines (String LF a +:+ String LF b)) with
        ("" :: textLines (a +:+ String LF b)).
      change (textLines (String LF a)) with ("" :: textLines a).
      simpl. pose proof (IH a "" ltac:(lia)) as H.
      assert (∀ l : list string, l ≠ [] → prependHead "" l = l) as Hid
        by (by intros [|??]).
      rewrite !Hid in H by apply textLines_nonempty.
      rewrite H. by destruct (nonBlank (pre +:+ "")). }
    destruct (Ascii.eqb c CR) eqn:Hcr.
    { apply Ascii.eqb_eq in Hcr. subst c.
      assert (∀ l : list string, l ≠ [] → prependHead "" l = l) as Hid
        by (by intros [|??]).
      destruct a as [|c' a].
      - change (textLines (String CR "" +:+ String LF b)) with ("" :: textLines b).
        change (textLines (String CR "")) with ["" ; ""].
        simpl. by destruct (nonBlank (pre +:+ "")).
      - destruct (Ascii.eqb c' LF) eqn:Hlf'.
        + apply Ascii.eqb_eq in Hlf'. subst c'.
          change (textLines (String CR (String LF a) +:+ String LF b)) with
            ("" :: textLines (a +:+ String LF b)).
          change (textLines (String CR (String LF a))) with ("" :: textLines a).
          simpl. pose proof (IH a "" ltac:(simpl in Hn; lia)) as H.
          rewrite !Hid in H by apply textLines_nonempty.
          rewrite H. by destruct (nonBlank (pre +:+ "")).
        + change (textLines (String CR (String c' a) +:+ String LF b)) with
            (if Ascii.eqb c' LF then "" :: textLines (a +:+ String LF b)
             else "" :: textLines (String c' a +:+ String LF b)).
          change (textLines (String CR (String c' a))) with
            (if Ascii.eqb c' LF then "" :: textLines a
             else "" :: textLines (String c' a)).
          rewrite Hlf'. simpl.
          pose proof (IH (String c' a) "" ltac:(lia)) as H.
          rewrite !Hid in H by apply textLines_nonempty.
          simpl in H. rewrite H. by destruct (nonBlank (pre +:+ "")). }
    change (String c a +:+ String LF b) with (String c (a +:+ String LF b)).
    rewrite !textLines_plain by done.
    rewrite !prependHead_twice by apply textLines_nonempty.
    apply IH. lia.
Qed.

(** *** Trimming twice *)

Lemma trimEnd_idem s : trimEnd (trimEnd s) = trimEnd s.
Proof.
  induction s as [|c s IH]; [done |].
  change (trimEnd (String c s)) with
    (match trimEnd s with
     | "" => if isWhiteSpace c then "" else String c ""
     | r' => String c r'
     end).
  destruct (trimEnd s) as [|c' r'] eqn:E.
  - destruct (isWhiteSpace c) eqn:Hc; [done |]. simpl. by rewrite Hc.
  - change (trimEnd (String c (String c' r'))) with
      (match trimEnd (String c' r') with
       | "" => if isWhiteSpace c then "" else String c ""
       | r'' => String c r''
       end).
    by rewrite IH.
Qed.

Lemma trimEnd_head c s :
  isWhiteSpace c = false → ∃ r, trimEnd (String c s) = String c r.
Proof.
  intros Hc. simpl. destruct (trimEnd s); [rewrite Hc |]; eauto.
Qed.

Lemma trimStart_head s : trimStart s = "" ∨ ∃ c r, trimStart s = String c r ∧ isWhiteSpace c = false.
Proof.
  induction s as [|c s IH]; simpl; [by left |].
  destruct (isWhiteSpace c) eqn:Hc; [done |]. right. eauto.
Qed.

Lemma trim_idem s : trim (trim s) = trim s.
Proof.
  unfold trim. destruct (trimStart_head s) as [-> | (c & r & -> & Hc)]; [done |].
  destruct (trimEnd_head c r Hc) as [r' Hr]. rewrite Hr.
  simpl trimStart. rewrite Hc. rewrite <- Hr. apply trimEnd_idem.
Qed.

End LineFacts.

(** The lines that [parseCsvText] keeps hold no CR and no LF, and none
    of them is blank. *)
Theorem keptLines_clean (text line : string) :
  line ∈ keptLines text →
  without CR line = true ∧ without LF line = true ∧ trim line ≠ "".
Proof.
  unfold keptLines. intros [Hin Hnb]%list_elem_of_In%filter_In.
  apply list_elem_of_In in Hin.
  split; [| split].
  - pose proof (splitLF_pieces CR _ (replaceCR_no_CR (replaceCRLF text))) as H.
    rewrite Forall_forall in H. by apply H.
  - pose proof (splitLF_no_LF (replaceCR (replaceCRLF text))) as H.
    rewrite Forall_forall in H. by apply H.
  - by destruct (trim line).
Qed.

Lemma keptLines_clean_witness :
  "1" ∈ keptLines short_text
  ∧ without CR "1" = true ∧ without LF "1" = true ∧ trim "1" ≠ "".
Proof.
  assert ("1" ∈ keptLines short_text) as H.
  { vm_compute. apply list_elem_of_further, list_elem_of_here. }
  split; [exact H |]. exact (keptLines_clean short_text "1" H).
Defined.

(** The column names of a parsed table are trimmed: trimming one again
    changes nothing. *)
Theorem columns_are_trimmed (text c : string) :
  c ∈ columns (parseCsvText text) → trim c = c.
Proof.
  unfold parseCsvText. destruct (keptLines text) as [|header data]; simpl.
  - by inversion 1.
  - intros (f & <- & _)%list_elem_of_In%in_map_iff. apply trim_idem.
Qed.

Lemma columns_are_trimmed_witness :
  "b" ∈ columns (parseCsvText ("a , b " +:+ String LF "1,2")) ∧ trim "b" = "b".
Proof.
  assert ("b" ∈ columns (parseCsvText ("a , b " +:+ String LF "1,2"))) as H.
  { vm_compute. apply list_elem_of_further, list_elem_of_here. }
  split; [exact H |]. exact (columns_are_trimmed _ "b" H).
Defined.

(** A text parses to the same table whether its line breaks are
    written LF, CR LF or CR. *)
Theorem line_endings_do_not_matter (text : string) :
  without CR text = true →
  parseCsvText (withCRLF text) = parseCsvText text
  ∧ parseCsvText (withCR text) = parseCsvText text.
Proof.
  intros H.
  assert (keptLines (withCRLF text) = keptLines text) as H1.
  { unfold keptLines. rewrite replaceCRLF_withCRLF by done.
    by rewrite (replaceCRLF_id text). }
  assert (keptLines (withCR text) = keptLines text) as H2.
  { unfold keptLines.
    rewrite (replaceCRLF_no_LF (withCR text)) by (by apply without_withCR).
    rewrite replaceCR_withCR by done.
    by rewrite (replaceCRLF_id text), (replaceCR_id text). }
  unfold parseCsvText. by rewrite H1, H2.
Qed.

Lemma line_endings_do_not_matter_witness :
  parseCsvText (withCRLF short_text) = parseCsvText short_text
  ∧ parseCsvText (withCR short_text) = parseCsvText short_text.
Proof. apply (line_endings_do_not_matter short_text). reflexivity. Defined.

(** The lines kept of two texts joined by a line feed are the lines
    kept of the first, then those of the second; so a line feed at the
    end of a text, or an empty line inside it, changes no table. *)
Theorem keptLines_joined (a b : string) :
  keptLines (a +:+ String LF b) = keptLines a ++ keptLines b
  ∧ parseCsvText (a +:+ String LF "") = parseCsvText a
  ∧ parseCsvText (a +:+ String LF (String LF b))
    = parseCsvText (a +:+ String LF b).
Proof.
  assert (∀ x y, keptLines (x +:+ String LF y) = keptLines x ++ keptLines y) as H.
  { intros x y. rewrite !keptLines_textLines.
    pose proof (kept_joined (String.length x) x y "" ltac:(lia)) as Hk.
    assert (∀ l : list string, l ≠ [] → prependHead "" l = l) as Hid
      by (by intros [|??]).
    by rewrite !Hid in Hk by apply textLines_nonempty. }
  split; [apply H |]. split.
  - unfold parseCsvText. rewrite H.
    change (keptLines "") with (@nil string). by rewrite app_nil_r.
  - unfold parseCsvText. rewrite !H.
    change (String LF b) with ("" +:+ String LF b). rewrite H.
    reflexivity.
Qed.

(** ** Walking a directory *)

Section WalkFacts.

Implicit Types (n : node) (entries sub : list (string * node))
  (out : list (string * string)) (x : string * string).

Lemma node_induction (P : node → Prop) :
  (∀ text, P (File text)) → P Special →
  (∀ entries, Forall (λ e, P e.2) entries → P (Dir entries)) →
  ∀ n, P n.
Proof.
  intros Hfile Hspecial Hdir. fix IH 1. intros [text | entries |].
  - apply Hfile.
  - apply Hdir. induction entries as [|[name n] entries IHe]; constructor.
    + apply IH.
    + apply IHe.
  - apply Hspecial.
Qed.

(** A loop that only adds: what is in the result was there before or
    was added for one of the items. *)
Lemma foldl_adds {A B} (f : list A → B → list A) (Q : B → A → Prop)
    (items : list B) :
  Forall (λ b, ∀ acc a, a ∈ f acc b ↔ a ∈ acc ∨ Q b a) items →
  ∀ acc a, a ∈ foldl f acc items ↔ a ∈ acc ∨ ∃ b, b ∈ items ∧ Q b a.
Proof.
  induction 1 as [|b items Hb _ IH]; intros acc a; simpl.
  - split; [by left |]. intros [? | (b & Hb & _)]; [done | by inversion Hb].
  - rewrite IH, Hb. split.
    + intros [[? | ?] | (b' & ? & ?)]; [by left | right | right].
      * exists b. split; [constructor | done].
      * exists b'. split; [by constructor | done].
    + intros [? | (b' & Hin & ?)]; [by left; left |].
      apply elem_of_cons in Hin as [-> | Hin]; [by left; right |].
      right. eauto.
Qed.

Lemma foldl_appends {A B} (f : list A → B → list A) (items : list B) :
  Forall (λ b, ∀ acc, f acc b = acc ++ f [] b) items →
  ∀ acc, foldl f acc items = acc ++ foldl f [] items.
Proof.
  induction 1 as [|b items Hb _ IH]; intros acc; simpl.
  - by rewrite app_nil_r.
  - rewrite IH, Hb, (IH (f [] b)). by rewrite app_assoc.
Qed.

Lemma visit_adds n :
  ∀ full name out x, x ∈ visit full name n out ↔ x ∈ out ∨ added full name n x.
Proof.
  induction n as [text | | entries IH] using node_induction;
    intros full name out x.
  - simpl. fold (csvName name). destruct (csvName name).
    + rewrite elem_of_app, list_elem_of_singleton. naive_solver.
    + naive_solver.
  - simpl. naive_solver.
  - change (visit full name (Dir entries) out) with
      (foldl (λ out e, visit (Path.join2 full e.1) e.1 e.2 out) out entries).
    rewrite (foldl_adds _ (λ e x, added (Path.join2 full e.1) e.1 e.2 x)).
    + simpl. split; (intros [? | H]; [by left | right]).
      * destruct H as ([nm [t | sub' |]] & Hin & Hadd); simpl in Hadd.
        -- destruct Hadd as [Hcsv ->]. by eapply under_here.
        -- by eapply under_below.
        -- done.
      * destruct x as [p t]. simpl in H. inversion H; subst.
        -- eexists (_, File _). split; [done |]. by simpl.
        -- eexists (_, Dir _). split; [done |]. by simpl.
    + eapply Forall_impl; [exact IH |]. intros [nm c] Hc acc a. apply Hc.
Qed.

Lemma visit_appends n :
  ∀ full name out, visit full name n out = out ++ visit full name n [].
Proof.
  induction n as [text | | entries IH] using node_induction;
    intros full name out.
  - simpl. destruct (endsWith _ _); [done | by rewrite app_nil_r].
  - simpl. by rewrite app_nil_r.
  - change (visit full name (Dir entries) ?o) with
      (foldl (λ out e, visit (Path.join2 full e.1) e.1 e.2 out) o entries).
    apply foldl_appends.
    eapply Forall_impl; [exact IH |]. intros [nm c] Hc acc. apply Hc.
Qed.

Lemma walk_adds dir entries out x :
  x ∈ walkCsvFiles dir entries out ↔ x ∈ out ∨ under dir entries x.1 x.2.
Proof. apply (visit_adds (Dir entries) dir ""). Qed.

Lemma walk_appends dir entries out :
  walkCsvFiles dir entries out = out ++ walkCsvFiles dir entries [].
Proof. apply (visit_appends (Dir entries) dir ""). Qed.

Lemma collected_elem (baseDir : string) entries (matched : list string) x :
  x ∈ collected baseDir entries matched ↔
  ∃ d, d ∈ matched
       ∧ under (Path.join2 baseDir d) (entriesOf entries d) x.1 x.2.
Proof.
  unfold collected.
  rewrite (foldl_adds _ (λ d x, under (Path.join2 baseDir d)
                                   (entriesOf entries d) x.1 x.2)).
  - split; [intros [H | H]; [by inversion H | done] | by right].
  - apply Forall_forall. intros d _ acc a. apply walk_adds.
Qed.

End WalkFacts.

(** [walkCsvFiles] leaves the files found before in place and puts
    after them exactly the regular files below the directory, at any
    depth, whose name ends in .csv in any case of letters. *)
Theorem walkCsvFiles_finds (dir : string) (entries : list (string * node))
    (outFiles : list (string * string)) :
  walkCsvFiles dir entries outFiles = outFiles ++ walkCsvFiles dir entries []
  ∧ ∀ p text, (p, text) ∈ walkCsvFiles dir entries [] ↔ under dir entries p text.
Proof.
  split; [apply walk_appends |]. intros p text. rewrite walk_adds. simpl.
  split; [intros [H | H]; [by inversion H | done] | by right].
Qed.

(** ** The aggregate operation as a whole *)

Section AggregateFacts.

Implicit Types (l : list string) (texts : list string).

Lemma loadCombinedCsvs_unfold (dir : string) (entries : list (string * node))
    (kw : option string) :
  loadCombinedCsvs dir (Some (Dir entries)) kw =
    let matched := matchFolders (listImmediateSubdirs entries) (keyOf kw) in
    let files := collected dir entries matched in
    if bool_decide (matched = []) then inl NoMatch
    else if bool_decide (files = []) then inl NoCsvFiles
    else inr (MkReport (mergeFiles files.*2).1 (mergeFiles files.*2).2
                (Meta dir (keyOf kw) matched (length files)
                   (length (mergeFiles files.*2).2)
                   (length (mergeFiles files.*2).1))).
Proof.
  unfold loadCombinedCsvs. fold (collected dir entries
    (matchFolders (listImmediateSubdirs entries) (keyOf kw))).
  simpl. case_bool_decide; [done |]. case_bool_decide; [done |].
  by destruct (mergeFiles _).
Qed.

Lemma matchFolders_foldersFor (entries : list (string * node))
    (kw : option string) :
  matchFolders (listImmediateSubdirs entries) (keyOf kw) = foldersFor entries kw.
Proof. rewrite matchFolders_entries. by destruct kw. Qed.

Lemma firstSeen_size l : length (firstSeen l) = size (list_to_set l : gset string).
Proof.
  rewrite <- (size_list_to_set (C:=gset string) (firstSeen l))
    by apply firstSeen_NoDup.
  f_equal. apply set_eq. intros x.
  by rewrite !elem_of_list_to_set, firstSeen_elem.
Qed.

Lemma length_rows (text : string) :
  length (rows (parseCsvText text)) = pred (length (keptLines text)).
Proof.
  unfold parseCsvText. destruct (keptLines text); simpl; [done |].
  by rewrite length_map.
Qed.

Lemma length_concat_rows texts :
  length (concat (map (λ t, rows (parseCsvText t)) texts))
  = sum_list (map (λ t, pred (length (keptLines t))) texts).
Proof.
  induction texts as [|t texts IH]; simpl; [done |].
  by rewrite length_app, IH, length_rows.
Qed.

End AggregateFacts.

(** ** The merged report *)

(** C3. The headers of a merge are the first-seen-order,
    duplicate-free union of the column lists of the parsed files: no
    name twice, and a name is a header exactly when it is a column of
    one of the files; the rows are the rows of the files, in order.
    A report that [loadCombinedCsvs] returns is this merge of the
    files it found: the csv files that stand at any depth below the
    matched folders of the base directory, in the order of the walk;
    its headers are the union of their columns and its rows are
    their rows.  When a first file has the columns x, y and a second
    one y, z the headers are x, y, z and no row of the first file has
    the key z; so it is for the report on a folder with two such
    files. *)
Theorem C3_merged_headers :
  (∀ texts : list string,
     let tables := map parseCsvText texts in
     (mergeFiles texts).1 = firstSeen (concat (map columns tables))
     ∧ NoDup (mergeFiles texts).1
     ∧ (∀ c, c ∈ (mergeFiles texts).1 ↔ ∃ t, t ∈ tables ∧ c ∈ columns t)
     ∧ (mergeFiles texts).2 = concat (map rows tables))
  ∧ (∀ (dir : string) (base : option node) (kw : option string) (rep : report),
       loadCombinedCsvs dir base kw = inr rep →
       ∃ entries,
         base = Some (Dir entries)
         ∧ let files := collected dir entries (matchedFolders (info rep)) in
           let tables := map (λ f, parseCsvText f.2) files in
           (∀ p text, (p, text) ∈ files ↔
              ∃ d, d ∈ matchedFolders (info rep)
                   ∧ under (Path.join2 dir d) (entriesOf entries d) p text)
           ∧ files ≠ []
           ∧ headers rep = firstSeen (concat (map columns tables))
           ∧ NoDup (headers rep)
           ∧ (∀ c, c ∈ headers rep ↔ ∃ t, t ∈ tables ∧ c ∈ columns t)
           ∧ allRows rep = concat (map rows tables))
  ∧ (∀ text1 text2 : string,
       columns (parseCsvText text1) = ["x"; "y"] →
       columns (parseCsvText text2) = ["y"; "z"] →
       (mergeFiles [text1; text2]).1 = ["x"; "y"; "z"]
       ∧ ∀ r, r ∈ rows (parseCsvText text1) → r !! "z" = None)
  ∧ (∃ rep r1 r2,
       loadCombinedCsvs "/base" (Some (Dir twoFileTree)) None = inr rep
       ∧ headers rep = ["x"; "y"; "z"]
       ∧ allRows rep = [r1; r2]
       ∧ r1 !! "x" = Some (CNum (Number "1")) ∧ r1 !! "z" = None
       ∧ r2 !! "x" = None ∧ r2 !! "z" = Some (CNum (Number "4"))).
Proof.
  assert (∀ texts : list string,
     let tables := map parseCsvText texts in
     (mergeFiles texts).1 = firstSeen (concat (map columns tables))
     ∧ NoDup (mergeFiles texts).1
     ∧ (∀ c, c ∈ (mergeFiles texts).1 ↔ ∃ t, t ∈ tables ∧ c ∈ columns t)
     ∧ (mergeFiles texts).2 = concat (map rows tables)) as Hmerge.
  { intros texts tables. subst tables.
    rewrite mergeFiles_headers, mergeFiles_rows, !map_map.
    split; [done |]. split; [apply firstSeen_NoDup |]. split; [|done].
    intros c. rewrite firstSeen_elem, elem_of_concat. split.
    + intros (cs & Hcs & Hc). apply list_elem_of_In, in_map_iff in Hcs
        as (t & <- & Ht).
      exists (parseCsvText t). split; [|done].
      apply list_elem_of_In, in_map_iff. eauto.
    + intros (t & Ht & Hc). apply list_elem_of_In, in_map_iff in Ht
        as (text & <- & Ht).
      exists (columns (parseCsvText text)). split; [|done].
      apply list_elem_of_In, in_map_iff. eauto. }
  split; [exact Hmerge |]. split; [| split].
  - intros dir base kw rep Hrep.
    destruct base as [[text|entries|]|]; try done. exists entries.
    split; [done |]. rewrite loadCombinedCsvs_unfold in Hrep. cbv zeta in Hrep.
    case_bool_decide as Hm; [done |]. case_bool_decide as Hf; [done |].
    injection Hrep as <-. cbn [info matchedFolders headers allRows]. cbv zeta.
    set (matched := matchFolders (listImmediateSubdirs entries) (keyOf kw)) in *.
    set (files := collected dir entries matched) in *.
    split.
    { intros p text. apply (collected_elem dir entries matched (p, text)). }
    split; [done |].
    destruct (Hmerge files.*2) as (H1 & H2 & H3 & H4).
    assert (map parseCsvText files.*2 = map (λ f, parseCsvText f.2) files) as E.
    { change (files.*2) with (map snd files). by rewrite map_map. }
    cbv zeta in H1, H3, H4. rewrite E in H1, H3, H4. done.
  - intros text1 text2 H1 H2. split.
    + rewrite mergeFiles_headers. simpl. rewrite H1, H2. by vm_compute.
    + intros r (line & _ & ->)%parse_rows_elem.
      destruct (parseRow (columns (parseCsvText text1)) line !! "z") eqn:E;
        [|done].
      assert (is_Some (parseRow (columns (parseCsvText text1)) line !! "z"))
        as Hs by eauto.
      apply parseRow_keys in Hs as [Hs _]. rewrite H1 in Hs.
      exfalso. by vm_compute in Hs; set_solver.
  - eexists _, _, _. split; [by vm_compute |]. by vm_compute.
Qed.

(** The outcomes of the aggregate operation come in the order of its
    checks.  It fails with the error of [fs.stat] exactly when nothing
    stands at the base path, with the not-a-directory error exactly
    when something stands there that is no directory, and with the
    no-match error exactly when the base is a directory none of whose
    folders is matched by the keyword.  It fails with the no-csv error
    only when folders are matched and no csv file stands below any of
    them, and it gives a report only when a csv file stands at some
    depth below a matched folder. *)
Theorem loadCombinedCsvs_outcomes (dir : string) (base : option node)
    (kw : option string) :
  (loadCombinedCsvs dir base kw = inl StatFailed ↔ base = None)
  ∧ (loadCombinedCsvs dir base kw = inl NotADirectory ↔
     ∃ n, base = Some n ∧ isDirectory n = false)
  ∧ (loadCombinedCsvs dir base kw = inl NoMatch ↔
     ∃ entries, base = Some (Dir entries) ∧ foldersFor entries kw = [])
  ∧ (loadCombinedCsvs dir base kw = inl NoCsvFiles →
     ∃ entries,
       base = Some (Dir entries)
       ∧ foldersFor entries kw ≠ []
       ∧ ∀ d p text,
           d ∈ foldersFor entries kw →
           ¬ under (Path.join2 dir d) (entriesOf entries d) p text)
  ∧ (∀ rep, loadCombinedCsvs dir base kw = inr rep →
     ∃ entries d p text,
       base = Some (Dir entries)
       ∧ d ∈ foldersFor entries kw
       ∧ under (Path.join2 dir d) (entriesOf entries d) p text).
Proof.
  destruct base as [[text | entries |]|].
  - simpl. repeat split; try naive_solver; intros _; by eexists.
  - rewrite loadCombinedCsvs_unfold, matchFolders_foldersFor.
    set (matched := foldersFor entries kw).
    set (files := collected dir entries matched).
    assert (files = [] → ∀ d p text, d ∈ matched →
              ¬ under (Path.join2 dir d) (entriesOf entries d) p text) as Hnil.
    { intros Hf d p text Hd Hu.
      assert ((p, text) ∈ files) as Hin
        by (apply collected_elem; by exists d).
      rewrite Hf in Hin. by inversion Hin. }
    assert (files ≠ [] → ∃ d p text, d ∈ matched
              ∧ under (Path.join2 dir d) (entriesOf entries d) p text) as Hsome.
    { intros Hne. destruct files as [|[p text] files'] eqn:E; [done |].
      assert ((p, text) ∈ files) as Hin by (rewrite E; constructor).
      apply collected_elem in Hin as (d & Hd & Hu). by exists d, p, text. }
    cbv zeta. split; [| split; [| split; [| split]]].
    + case_bool_decide; [done |]. by case_bool_decide.
    + split; [case_bool_decide; [done |]; by case_bool_decide |].
      by intros (n & [= <-] & ?).
    + split.
      * case_bool_decide as Hm; [by exists entries |]. by case_bool_decide.
      * intros (es & [= <-] & Hm). fold matched in Hm.
        by rewrite bool_decide_eq_true_2.
    + case_bool_decide as Hm; [done |]. case_bool_decide as Hf; [|done].
      intros _. exists entries. split; [done |]. split; [done |].
      exact (Hnil Hf).
    + intros rep. case_bool_decide as Hm; [done |].
      case_bool_decide as Hf; [done |]. intros _.
      destruct (Hsome Hf) as (d & p & text & Hd & Hu).
      by exists entries, d, p, text.
  - simpl. repeat split; try naive_solver; intros _; by eexists.
  - simpl. repeat split; naive_solver.
Qed.

(** The counts of a report are those of the files found, the csv files
    that the walk collects below the folders matched: as many files
    as were found, as many rows as these files have kept lines after
    their header line, as many columns as they have distinct column
    names; and the report names the folders matched, its base
    directory and the trimmed keyword. *)
Theorem report_counts (dir : string) (entries : list (string * node))
    (kw : option string) (rep : report) :
  loadCombinedCsvs dir (Some (Dir entries)) kw = inr rep →
  let files := collected dir entries (foldersFor entries kw) in
  (∀ p text, (p, text) ∈ files ↔
     ∃ d, d ∈ foldersFor entries kw
          ∧ under (Path.join2 dir d) (entriesOf entries d) p text)
  ∧ matchedFolders (info rep) = foldersFor entries kw
  ∧ csvCount (info rep) = length files
  ∧ (0 < csvCount (info rep))%nat
  ∧ rowCount (info rep) = length (allRows rep)
  ∧ rowCount (info rep)
    = sum_list (map (λ f, pred (length (keptLines f.2))) files)
  ∧ colCount (info rep) = length (headers rep)
  ∧ colCount (info rep)
    = size (list_to_set (concat (map (λ f, columns (parseCsvText f.2)) files))
            : gset string)
  ∧ baseDir (info rep) = dir
  ∧ startKeyword (info rep) = match kw with Some s => trim s | None => "" end.
Proof.
  rewrite loadCombinedCsvs_unfold, matchFolders_foldersFor. cbv zeta.
  case_bool_decide; [done |]. case_bool_decide as Hf; [done |].
  intros [= <-]. cbn [info headers allRows matchedFolders csvCount rowCount
                       colCount baseDir startKeyword].
  set (files := collected dir entries (foldersFor entries kw)) in *.
  rewrite mergeFiles_rows, mergeFiles_headers, length_concat_rows, firstSeen_size.
  assert (∀ {A} (g : string → A), map g files.*2 = map (λ f, g f.2) files) as E.
  { intros A g. change (files.*2) with (map snd files). by rewrite map_map. }
  rewrite !E.
  split; [intros p text; apply (collected_elem dir entries _ (p, text)) |].
  repeat split; try done. destruct files; [done | simpl; lia].
Qed.

Lemma report_counts_witness :
  ∃ rep, loadCombinedCsvs "/data" (Some (Dir sampleTree)) (Some " proj ") = inr rep
  ∧ let files := collected "/data" sampleTree (foldersFor sampleTree (Some " proj ")) in
    (∀ p text, (p, text) ∈ files ↔
       ∃ d, d ∈ foldersFor sampleTree (Some " proj ")
            ∧ under (Path.join2 "/data" d) (entriesOf sampleTree d) p text)
    ∧ matchedFolders (info rep) = foldersFor sampleTree (Some " proj ")
    ∧ csvCount (info rep) = length files
    ∧ (0 < csvCount (info rep))%nat
    ∧ rowCount (info rep) = length (allRows rep)
    ∧ rowCount (info rep)
      = sum_list (map (λ f, pred (length (keptLines f.2))) files)
    ∧ colCount (info rep) = length (headers rep)
    ∧ colCount (info rep)
      = size (list_to_set (concat (map (λ f, columns (parseCsvText f.2)) files))
              : gset string)
    ∧ baseDir (info rep) = "/data"
    ∧ startKeyword (info rep) = trim " proj ".
Proof.
  eexists. split; [vm_compute; reflexivity |].
  eapply (report_counts "/data" sampleTree (Some " proj ")).
  vm_compute. reflexivity.
Defined.

(** Reading more files never removes or moves what the files read
    before gave: the headers and the rows of the first files stay in
    front, in their order. *)
Theorem merge_is_stable (texts more : list string) :
  (∃ extra, (mergeFiles (texts ++ more)).1 = (mergeFiles texts).1 ++ extra
            ∧ ∀ c, c ∈ extra → c ∉ (mergeFiles texts).1)
  ∧ (mergeFiles (texts ++ more)).2 = (mergeFiles texts).2 ++ (mergeFiles more).2.
Proof.
  unfold mergeFiles. rewrite foldl_app.
  rewrite (mergeFiles_fold more (foldl mergeFile ([], []) texts)).
  rewrite (mergeFiles_fold more ([], [])). simpl. split; [|done].
  rewrite setAdd_fold. eexists. split; [reflexivity |].
  intros c Hc. by apply list_elem_of_filter in Hc as [Hc _].
Qed.

(** ** The task list, written then read *)


(** ** Joining paths *)

Section PathFacts.

Implicit Types (a b p rel seg : string) (L S acc : list string).

Lemma segments_nonempty p : Path.segments p ≠ [].
Proof.
  destruct p as [|c p]; simpl; [done |].
  destruct (Ascii.eqb c Path.slash); [done |]. by destruct (Path.segments p).
Qed.

Lemma segments_app a b :
  Path.segments (a +:+ String Path.slash b) = Path.segments a ++ Path.segments b.
Proof.
  induction a as [|c a IH].
  - reflexivity.
  - change (String c a +:+ String Path.slash b) with
      (String c (a +:+ String Path.slash b)).
    simpl. rewrite IH. destruct (Ascii.eqb c Path.slash); [done |].
    pose proof (segments_nonempty a). by destruct (Path.segments a).
Qed.

Lemma segments_slashfree p : without Path.slash p = true → Path.segments p = [p].
Proof.
  induction p as [|c p IH]; simpl; [done |].
  intros [Hc Hp]%andb_true_iff. apply negb_true_iff in Hc.
  by rewrite Hc, IH.
Qed.

Lemma segments_no_slash p :
  Forall (λ seg, without Path.slash seg = true) (Path.segments p).
Proof.
  induction p as [|c p IH]; simpl; [by repeat constructor |].
  destruct (Ascii.eqb c Path.slash) eqn:Hc; [by constructor |].
  destruct (Path.segments p) as [|hd tl]; [repeat constructor; simpl; by rewrite Hc |].
  apply Forall_cons in IH as [Hhd Htl]. constructor; [|done].
  simpl. by rewrite Hc, Hhd.
Qed.

Lemma cleanSeg_kept seg :
  cleanSeg seg = true →
  String.eqb seg "" = false ∧ String.eqb seg "." = false
  ∧ String.eqb seg ".." = false ∧ without Path.slash seg = true.
Proof.
  unfold cleanSeg. intros [[[H1 H2]%andb_true_iff H3]%andb_true_iff H4]%andb_true_iff.
  apply negb_true_iff in H2, H3. repeat split; try done. by destruct seg.
Qed.

Lemma keptSegs_clean L : Forall (λ seg, cleanSeg seg = true) L → keptSegs L = L.
Proof.
  induction 1 as [|seg L Hseg _ IH]; [done |]. simpl.
  apply cleanSeg_kept in Hseg as (-> & -> & _). simpl. by rewrite IH.
Qed.

(** Without two dots among them, the segments are pushed one by one. *)
Lemma normalize_fold (allow : bool) S acc :
  ".." ∉ S →
  foldl (Path.normalizeStep allow) acc S = rev (keptSegs S) ++ acc.
Proof.
  revert acc. induction S as [|seg S IH]; intros acc Hdd; [done |].
  apply not_elem_of_cons in Hdd as [Hseg Hdd]. simpl.
  rewrite IH by done. unfold Path.normalizeStep.
  destruct (String.eqb seg "" || String.eqb seg ".") eqn:E; simpl; [done |].
  destruct (String.eqb seg "..") eqn:E2.
  - apply String.eqb_eq in E2. by subst.
  - by rewrite <- app_assoc.
Qed.

Lemma normalizeSegments_app (allow : bool) L S :
  ".." ∉ S →
  Path.normalizeSegments allow (L ++ S)
  = Path.normalizeSegments allow L ++ keptSegs S.
Proof.
  intros Hdd. unfold Path.normalizeSegments.
  rewrite foldl_app, normalize_fold by done.
  by rewrite rev_app_distr, rev_involutive.
Qed.

Lemma clean_no_dotdot L : Forall (λ seg, cleanSeg seg = true) L → ".." ∉ L.
Proof.
  intros H Hin. rewrite Forall_forall in H. by specialize (H _ Hin).
Qed.

Lemma join_app L S :
  join "/" (L ++ S) =
    match L, S with
    | [], _ => join "/" S
    | _, [] => join "/" L
    | _, _ => join "/" L +:+ "/" +:+ join "/" S
    end.
Proof.
  induction L as [|a L IH]; [done |].
  destruct S as [|b S]; [by rewrite app_nil_r |].
  change ((a :: L) ++ b :: S) with (a :: (L ++ b :: S)).
  destruct L as [|a' L]; [done |].
  change (join "/" (a :: (a' :: L) ++ b :: S)) with
    (a +:+ "/" +:+ join "/" ((a' :: L) ++ b :: S)).
  rewrite IH.
  change (join "/" (a :: a' :: L)) with (a +:+ "/" +:+ join "/" (a' :: L)).
  by rewrite !sapp_assoc.
Qed.

Lemma segments_join L :
  L ≠ [] → Forall (λ seg, without Path.slash seg = true) L →
  Path.segments (join "/" L) = L.
Proof.
  intros Hne HL. induction HL as [|seg L Hseg HL IH]; [done |].
  destruct L as [|seg' L]; [by apply segments_slashfree |].
  change (join "/" (seg :: seg' :: L)) with
    (seg +:+ String Path.slash (join "/" (seg' :: L))).
  rewrite segments_app, segments_slashfree by done.
  by rewrite IH.
Qed.

Lemma segments_absPath L :
  Forall (λ seg, cleanSeg seg = true) L →
  Path.segments (absPath L) = "" :: (if L is [] then [""] else L).
Proof.
  intros HL. unfold absPath.
  change ("/" +:+ join "/" L) with ("" +:+ String Path.slash (join "/" L)).
  rewrite segments_app. simpl. f_equal.
  destruct L as [|seg L]; [done |]. apply segments_join; [done |].
  eapply Forall_impl; [exact HL |]. intros x Hx.
  by apply cleanSeg_kept in Hx as (_ & _ & _ & Hx).
Qed.

Lemma parts_absPath L :
  Forall (λ seg, cleanSeg seg = true) L → Path.parts (absPath L) = L.
Proof.
  intros HL. unfold Path.parts. rewrite segments_absPath by done.
  destruct L as [|seg L]; [done |].
  change ("" :: seg :: L) with ([""] ++ seg :: L).
  rewrite normalizeSegments_app by (by apply clean_no_dotdot).
  by rewrite keptSegs_clean.
Qed.

Lemma keptSegs_are_clean S :
  Forall (λ seg, without Path.slash seg = true) S → ".." ∉ S →
  Forall (λ seg, cleanSeg seg = true) (keptSegs S).
Proof.
  induction 1 as [|seg S Hseg _ IH]; intros Hdd; [constructor |].
  apply not_elem_of_cons in Hdd as [Hne Hdd]. simpl.
  destruct (String.eqb seg "" || String.eqb seg ".") eqn:E; simpl; [by apply IH |].
  apply orb_false_elim in E as [E1 E2]. constructor; [|by apply IH].
  unfold cleanSeg. rewrite E2, Hseg. simpl.
  assert (String.eqb seg ".." = false) as -> by (by apply String.eqb_neq).
  by destruct seg.
Qed.

Lemma startsWith_app a b : startsWith a (a +:+ b) = true.
Proof.
  induction a as [|c a IH]; simpl; [done |]. by rewrite Ascii.eqb_refl.
Qed.

Lemma startsWith_absPath L S t : startsWith (absPath L) (absPath (L ++ S) +:+ t) = true.
Proof.
  unfold absPath. rewrite join_app.
  destruct L as [|a L].
  - reflexivity.
  - destruct S as [|b S].
    + apply (startsWith_app ("/" +:+ join "/" (a :: L))).
    + replace (("/" +:+ join "/" (a :: L) +:+ "/" +:+ join "/" (b :: S)) +:+ t)
        with (("/" +:+ join "/" (a :: L)) +:+ ("/" +:+ join "/" (b :: S) +:+ t))
        by (simpl; by rewrite !sapp_assoc).
      apply startsWith_app.
Qed.

Lemma nonEmpty_join_snoc L seg : nonEmpty seg = true → nonEmpty (join "/" (L ++ [seg])) = true.
Proof.
  intros Hs. rewrite join_snoc. destruct L as [|a L]; [done |].
  destruct (join "/" (a :: L)); [done | done].
Qed.

Lemma nonEmpty_join L :
  L ≠ [] → Forall (λ seg, cleanSeg seg = true) L → nonEmpty (join "/" L) = true.
Proof.
  intros Hne HL. destruct L as [|a L]; [done |].
  apply Forall_cons in HL as [Ha _]. apply cleanSeg_kept in Ha as (Ha & _).
  destruct a; [done |]. by destruct L.
Qed.

(** Joining a relative path without two dots to a normal absolute
    path: its kept segments are added, with a slash at the end at
    most. *)
Lemma join2_absPath L rel :
  Forall (λ seg, cleanSeg seg = true) L → nonEmpty rel = true →
  ".." ∉ Path.segments rel →
  ∃ t, (t = "" ∨ t = "/" ∧ L ++ keptSegs (Path.segments rel) ≠ [])
       ∧ Path.join2 (absPath L) rel
         = absPath (L ++ keptSegs (Path.segments rel)) +:+ t
       ∧ (Path.trailingSeparator rel = false → t = "").
Proof.
  intros HL Hrel Hdd. unfold Path.join2. rewrite Hrel.
  change (nonEmpty (absPath L)) with true. cbn match.
  set (p := absPath L +:+ "/" +:+ rel).
  assert (Path.segments p = Path.segments (absPath L) ++ Path.segments rel) as Hseg.
  { unfold p. change ("/" +:+ rel) with (String Path.slash rel).
    apply segments_app. }
  assert (Path.normalizeSegments false (Path.segments p)
          = L ++ keptSegs (Path.segments rel)) as Hnorm.
  { rewrite Hseg, normalizeSegments_app by done.
    fold (Path.parts (absPath L)). by rewrite parts_absPath. }
  assert (Path.trailingSeparator p = Path.trailingSeparator rel) as Htr.
  { unfold Path.trailingSeparator. rewrite Hseg, Hrel.
    pose proof (segments_nonempty rel) as Hne.
    destruct (Path.segments rel) as [|x xs] eqn:E; [done |].
    rewrite last_app_cons. (* the last segment is the last of [rel] *)
    by destruct (last (x :: xs)) as [[|??]|]. }
  unfold Path.normalize. change (nonEmpty p) with true.
  change (Path.isAbsolute p) with true. cbn [negb].
  rewrite Hnorm, Htr.
  destruct (nonEmpty (join "/" (L ++ keptSegs (Path.segments rel)))) eqn:Hbody.
  - cbn [negb]. destruct (Path.trailingSeparator rel).
    + exists "/". split; [right; split; [done |]; by intros E; rewrite E in Hbody |].
      split; [|done]. unfold absPath. by rewrite sapp_assoc.
    + exists "". split; [by left |]. split; [|done].
      unfold absPath. by rewrite sapp_nil_r.
  - cbn [negb]. exists "". split; [by left |]. split; [|done].
    unfold absPath.
    destruct (join "/" (L ++ keptSegs (Path.segments rel))); done.
Qed.

End PathFacts.

(** ** Suffixes *)

Section SuffixFacts.

Implicit Types (s x p : string).

Lemma length_sapp x p : String.length (x +:+ p) = (String.length x + String.length p)%nat.
Proof. induction x as [|c x IH]; simpl; [done | by rewrite IH]. Qed.

Lemma substring_all p : substring 0 (String.length p) p = p.
Proof. induction p as [|c p IH]; simpl; [done | by rewrite IH]. Qed.

Lemma substring_skip x p : substring (String.length x) (String.length p) (x +:+ p) = p.
Proof.
  induction x as [|c x IH]; simpl; [apply substring_all | apply IH].
Qed.

Lemma substring_front x p : substring 0 (String.length x) (x +:+ p) = x.
Proof.
  induction x as [|c x IH]; simpl; [by destruct p | by rewrite IH].
Qed.

Lemma substring_split s (m : nat) :
  (m ≤ String.length s)%nat →
  s = substring 0 m s +:+ substring m (String.length s - m) s.
Proof.
  revert m. induction s as [|c s IH]; intros m Hm.
  - simpl in Hm. by replace m with 0%nat by lia.
  - destruct m as [|m].
    + simpl. by rewrite substring_all.
    + simpl in *. rewrite <- IH by lia. done.
Qed.

Lemma endsWith_app x p : endsWith p (x +:+ p) = true.
Proof.
  unfold endsWith. rewrite length_sapp.
  replace (String.length x + String.length p - String.length p)%nat
    with (String.length x) by lia.
  rewrite substring_skip, String.eqb_refl, andb_true_r.
  apply Nat.leb_le. lia.
Qed.

Lemma endsWith_split p s :
  endsWith p s = true →
  s = substring 0 (String.length s - String.length p) s +:+ p.
Proof.
  unfold endsWith. intros [Hle Heq]%andb_true_iff.
  apply Nat.leb_le in Hle. apply String.eqb_eq in Heq.
  rewrite (substring_split s (String.length s - String.length p)) at 1 by lia.
  replace (String.length s - (String.length s - String.length p))%nat
    with (String.length p) by lia.
  by rewrite Heq.
Qed.

Lemma toLowerCase_app x p : toLowerCase (x +:+ p) = toLowerCase x +:+ toLowerCase p.
Proof. induction x as [|c x IH]; simpl; [done | by rewrite IH]. Qed.

Lemma sapp_inj_r x y p : x +:+ p = y +:+ p → x = y.
Proof.
  revert y. induction x as [|c x IH]; intros [|d y] H; try done.
  - apply (f_equal String.length) in H. simpl in H. rewrite length_sapp in H. lia.
  - apply (f_equal String.length) in H. simpl in H. rewrite length_sapp in H. lia.
  - simpl in H. injection H as -> H. f_equal. by apply IH.
Qed.

Lemma stripCsvSuffix_app x : stripCsvSuffix (x +:+ ".csv") = x.
Proof.
  unfold stripCsvSuffix. rewrite toLowerCase_app.
  change (toLowerCase ".csv") with ".csv". rewrite endsWith_app.
  rewrite length_sapp. simpl String.length.
  replace (String.length x + 4 - 4)%nat with (String.length x) by lia.
  apply substring_front.
Qed.

Lemma without_app (c : ascii) x p :
  without c (x +:+ p) = without c x && without c p.
Proof.
  induction x as [|d x IH]; simpl; [done |]. by rewrite IH, andb_assoc.
Qed.

End SuffixFacts.

(** router.js lists as flows, in the order of the directory listing,
    exactly the names that give the name of a file of the listing
    when .csv is put after them. *)
Theorem handleFlows_lists (files : list string) :
  ∃ flows,
    handleFlows GET (Listing files) = namesReply flows
    ∧ map (λ flow, flow +:+ ".csv") flows = List.filter (endsWith ".csv") files
    ∧ ∀ flow, flow ∈ flows ↔ flow +:+ ".csv" ∈ files.
Proof.
  exists (map stripCsvSuffix (List.filter (endsWith ".csv") files)).
  assert (map (λ flow, flow +:+ ".csv")
            (map stripCsvSuffix (List.filter (endsWith ".csv") files))
          = List.filter (endsWith ".csv") files) as Hmap.
  { induction files as [|f files IH]; [done |]. simpl.
    destruct (endsWith ".csv" f) eqn:E; [|done]. simpl. rewrite IH. f_equal.
    rewrite (endsWith_split _ _ E) at 2.
    by rewrite (endsWith_split _ _ E), stripCsvSuffix_app at 1. }
  split; [done |]. split; [done |]. intros flow. split.
  - intros Hin.
    assert (flow +:+ ".csv" ∈ List.filter (endsWith ".csv") files) as H.
    { rewrite <- Hmap. apply list_elem_of_In, in_map_iff.
      exists flow. by rewrite <- list_elem_of_In. }
    by apply list_elem_of_In, filter_In in H as [H%list_elem_of_In _].
  - intros Hin.
    assert (flow +:+ ".csv" ∈ List.filter (endsWith ".csv") files) as H.
    { apply list_elem_of_In, filter_In. split; [by apply list_elem_of_In |].
      apply endsWith_app. }
    rewrite <- Hmap in H. apply list_elem_of_In, in_map_iff in H
      as (flow' & Heq & H). apply sapp_inj_r in Heq. subst flow'.
    by apply list_elem_of_In.
Qed.

(** ** Flow names without a slash *)

Section FlowPathFacts.

Implicit Types (D M : list string) (flow name : string).

Lemma csv_name_clean name :
  without Path.slash name = true → cleanSeg (name +:+ ".csv") = true.
Proof.
  intros Hs. unfold cleanSeg. rewrite without_app, Hs.
  assert (nonEmpty (name +:+ ".csv") = true) as -> by (by destruct name).
  assert (String.eqb (name +:+ ".csv") "." = false) as ->.
  { apply String.eqb_neq. intros H. apply (f_equal String.length) in H.
    rewrite length_sapp in H. simpl in H. lia. }
  assert (String.eqb (name +:+ ".csv") ".." = false) as ->.
  { apply String.eqb_neq. intros H. apply (f_equal String.length) in H.
    rewrite length_sapp in H. simpl in H. lia. }
  reflexivity.
Qed.

Lemma join2_clean_segment D seg :
  Forall (λ s, cleanSeg s = true) D → cleanSeg seg = true →
  Path.join2 (absPath D) seg = absPath (D ++ [seg]).
Proof.
  intros HD Hseg. pose proof (cleanSeg_kept seg Hseg) as (H1 & H2 & H3 & H4).
  assert (Path.segments seg = [seg]) as Hsegs by (by apply segments_slashfree).
  assert (nonEmpty seg = true) as Hne by (by destruct seg).
  assert (".." ∉ Path.segments seg) as Hdd.
  { rewrite Hsegs. intros [E | H]%elem_of_cons; [|by inversion H].
    subst seg. done. }
  assert (Path.trailingSeparator seg = false) as Htr.
  { unfold Path.trailingSeparator. rewrite Hsegs. simpl. by destruct seg. }
  destruct (join2_absPath D seg HD Hne Hdd) as (t & _ & Hj & Ht).
  rewrite Hj, (Ht Htr), Hsegs, sapp_nil_r. simpl. by rewrite H1, H2.
Qed.

Lemma normalize_absPath M :
  Forall (λ s, cleanSeg s = true) M → Path.normalize (absPath M) = absPath M.
Proof.
  intros HM. unfold Path.normalize.
  change (nonEmpty (absPath M)) with true.
  change (Path.isAbsolute (absPath M)) with true. cbn [negb].
  fold (Path.parts (absPath M)). rewrite parts_absPath by done.
  destruct M as [|seg M]; [done |].
  rewrite nonEmpty_join by done. cbn [negb].
  assert (Path.trailingSeparator (absPath (seg :: M)) = false) as ->; [|done].
  unfold Path.trailingSeparator. rewrite segments_absPath by done.
  rewrite last_cons_cons.
  destruct (last (seg :: M)) as [x|] eqn:E; [|done].
  assert (x ∈ seg :: M) as Hin.
  { apply last_Some in E as [l' ->]. apply elem_of_app. right. constructor. }
  rewrite Forall_forall in HM. apply HM, cleanSeg_kept in Hin as (Hx & _).
  by destruct x.
Qed.

Lemma data_dir D :
  Forall (λ s, cleanSeg s = true) D → DATA_DIR (absPath D) = absPath (D ++ ["data"]).
Proof. intros HD. unfold DATA_DIR. by apply join2_clean_segment. Qed.

Lemma data_file D flow :
  Forall (λ s, cleanSeg s = true) D → without Path.slash flow = true →
  Path.join2 (DATA_DIR (absPath D)) (flow +:+ ".csv")
  = absPath (D ++ ["data"; flow +:+ ".csv"]).
Proof.
  intros HD Hflow. rewrite data_dir by done.
  rewrite join2_clean_segment.
  - by rewrite <- app_assoc.
  - apply Forall_app. split; [done |]. by repeat constructor.
  - by apply csv_name_clean.
Qed.

Lemma data_file_clean D flow :
  Forall (λ s, cleanSeg s = true) D → without Path.slash flow = true →
  Forall (λ s, cleanSeg s = true) (D ++ ["data"; flow +:+ ".csv"]).
Proof.
  intros HD Hflow. apply Forall_app. split; [done |].
  repeat constructor. by apply csv_name_clean.
Qed.

Lemma handleColumns_path (d : string) (rf : string → readResult) flow :
  flow ≠ "" →
  (handleColumns d rf GET (Some flow)).2
  = [Path.join2 (DATA_DIR d) (flow +:+ ".csv")].
Proof. destruct flow; [done | reflexivity]. Qed.

Lemma handleApiColumns_path (d : string) (rf : string → readResult) flow :
  flow ≠ "" →
  startsWith (DATA_DIR d)
    (Path.normalize (Path.join2 (DATA_DIR d) (flow +:+ ".csv"))) = true →
  (handleApiColumns d rf GET (Some flow)).2
  = [Path.normalize (Path.join2 (DATA_DIR d) (flow +:+ ".csv"))].
Proof.
  intros Hne H. destruct flow as [|c flow]; [done |].
  unfold handleApiColumns. cbv zeta. cbv iota beta. by rewrite H.
Qed.

End FlowPathFacts.

(** With the server in a normal absolute directory, a flow name that
    is not empty and holds no slash never leaves the data directory:
    both column handlers read one file, the file of that name with
    .csv after it in the data directory, and the check of server.js
    lets it through. *)
Theorem plain_flow_stays_below (D : list string) (flow : string)
    (readFile : string → readResult) :
  Forall (λ s, cleanSeg s = true) D →
  flow ≠ "" → without Path.slash flow = true →
  let file := absPath (D ++ ["data"; flow +:+ ".csv"]) in
  (handleColumns (absPath D) readFile GET (Some flow)).2 = [file]
  ∧ (handleApiColumns (absPath D) readFile GET (Some flow)).2 = [file]
  ∧ Path.below (DATA_DIR (absPath D)) file
  ∧ Path.parts file = Path.parts (DATA_DIR (absPath D)) ++ [flow +:+ ".csv"].
Proof.
  intros HD Hne Hflow file.
  assert (Path.parts file = Path.parts (DATA_DIR (absPath D)) ++ [flow +:+ ".csv"])
    as Hparts.
  { unfold file. rewrite data_dir, !parts_absPath; try done.
    - by rewrite <- app_assoc.
    - apply Forall_app. split; [done |]. by repeat constructor.
    - by apply data_file_clean. }
  assert (startsWith (DATA_DIR (absPath D)) file = true) as Hstarts.
  { rewrite data_dir by done.
    replace file with (absPath ((D ++ ["data"]) ++ [flow +:+ ".csv"]) +:+ "")
      by (unfold file; by rewrite sapp_nil_r, <- app_assoc).
    apply startsWith_absPath. }
  split; [| split; [| split]].
  - rewrite handleColumns_path by done. f_equal. by apply data_file.
  - pose proof (data_file D flow HD Hflow) as Hfile. fold file in Hfile.
    pose proof (normalize_absPath _ (data_file_clean D flow HD Hflow)) as Hn.
    fold file in Hn.
    rewrite handleApiColumns_path; [by rewrite Hfile, Hn | done |].
    by rewrite Hfile, Hn.
  - exists [flow +:+ ".csv"]. by split.
  - done.
Qed.

Lemma plain_flow_stays_below_witness :
  (handleColumns (absPath ["srv"; "app"]) (oneFile "" "") GET (Some "plan")).2
    = ["/srv/app/data/plan.csv"]
  ∧ (handleApiColumns (absPath ["srv"; "app"]) (oneFile "" "") GET (Some "plan")).2
    = ["/srv/app/data/plan.csv"]
  ∧ Path.below (DATA_DIR (absPath ["srv"; "app"])) "/srv/app/data/plan.csv"
  ∧ Path.parts "/srv/app/data/plan.csv"
    = Path.parts (DATA_DIR (absPath ["srv"; "app"])) ++ ["plan.csv"].
Proof.
  apply (plain_flow_stays_below ["srv"; "app"] "plan" (oneFile "" ""));
    [by repeat constructor | done | reflexivity].
Defined.
(** ** File names: extension and base name *)

Section NameFacts.

Import PathName.
Local Open Scope Z_scope.

Implicit Types (c x : ascii) (chars rest rp : list ascii) (i : Z)
  (dir stem e ext name suffix s : string).

Lemma chars_app s1 s2 :
  list_ascii_of_string (s1 +:+ s2)
  = list_ascii_of_string s1 ++ list_ascii_of_string s2.
Proof. induction s1 as [|c s1 IH]; simpl; [done | by rewrite IH]. Qed.

Lemma charsDown_app s1 s2 : charsDown (s1 +:+ s2) = charsDown s2 ++ charsDown s1.
Proof. unfold charsDown. by rewrite chars_app, rev_app_distr. Qed.

Lemma length_chars s : length (list_ascii_of_string s) = String.length s.
Proof. induction s as [|c s IH]; simpl; [done | by rewrite IH]. Qed.

Lemma length_charsDown s : length (charsDown s) = String.length s.
Proof. unfold charsDown. by rewrite length_rev, length_chars. Qed.

Lemma without_chars x s :
  without x s = true → Forall (λ c, Ascii.eqb c x = false) (charsDown s).
Proof.
  intros H. unfold charsDown. apply Forall_rev.
  induction s as [|c s IH]; [constructor |]. simpl in H.
  apply andb_true_iff in H as [Hc Hs]. apply negb_true_iff in Hc.
  constructor; [done | by apply IH].
Qed.

Lemma get_chars s (k : nat) : String.get k s = list_ascii_of_string s !! k.
Proof.
  revert k. induction s as [|c s IH]; intros [|k]; simpl; auto.
Qed.

(** *** The loop of [extname] *)

(** Before the first dot, a character that is no dot and no slash
    changes nothing once the end is set. *)
Lemma extLoop_ext chars rest i sp ee (ms : bool) pd :
  Forall (λ c, Ascii.eqb c Path.slash = false) chars →
  Forall (λ c, Ascii.eqb c dot = false) chars →
  ee ≠ -1 →
  extLoop (chars ++ rest) i (ExtState (-1) sp ee ms pd)
  = extLoop rest (i - Z.of_nat (length chars)) (ExtState (-1) sp ee ms pd).
Proof.
  intros Hs Hd Hee. revert i Hs Hd.
  induction chars as [|c chars IH]; intros i Hs Hd.
  - simpl. by rewrite Z.sub_0_r.
  - apply Forall_cons in Hs as [Hc Hs]. apply Forall_cons in Hd as [Hcd Hd].
    change ((c :: chars) ++ rest) with (c :: (chars ++ rest)).
    cbn [extLoop]. unfold is_slash, is_dot. rewrite Hc, Hcd.
    cbn [extEnd startDot]. rewrite (proj2 (Z.eqb_neq ee (-1)) Hee).
    cbn [startDot]. change (negb (-1 =? -1)) with false. cbv iota.
    rewrite IH by done. f_equal. cbn [length]. lia.
Qed.


(** From the start state, over the characters after the last dot, the
    dot and the characters before it, down to a slash or the start of
    the path. *)
Lemma extLoop_name chars stemChars rest i :
  chars ≠ [] → stemChars ≠ [] →
  Forall (λ c, Ascii.eqb c Path.slash = false) chars →
  Forall (λ c, Ascii.eqb c dot = false) chars →
  Forall (λ c, Ascii.eqb c Path.slash = false) stemChars →
  (rest = [] ∨ ∃ r, rest = Path.slash :: r) →
  Z.of_nat (length chars) ≤ i →
  ∃ sp pd,
    extLoop (chars ++ dot :: stemChars ++ rest) i (ExtState (-1) 0 (-1) true 0)
    = ExtState (i - Z.of_nat (length chars)) sp (i + 1) false pd
    ∧ (pd = 1 ∨ pd = -1).
Proof.
  intros Hne Hsne Hs Hd Hss Hrest Hi.
  destruct chars as [|c chars]; [done |].
  apply Forall_cons in Hs as [Hc Hs]. apply Forall_cons in Hd as [Hcd Hd].
  change ((c :: chars) ++ dot :: stemChars ++ rest)
    with (c :: (chars ++ dot :: stemChars ++ rest)).
  cbn [extLoop]. unfold is_slash, is_dot. rewrite Hc, Hcd.
  cbn [extEnd startDot]. change (-1 =? -1) with true. cbv iota.
  cbn [startDot]. change (negb (-1 =? -1)) with false. cbv iota.
  cbn [length] in Hi.
  rewrite extLoop_ext by (done || lia).
  cbn [extLoop]. unfold is_slash, is_dot.
  change (Ascii.eqb dot Path.slash) with false. rewrite Ascii.eqb_refl.
  cbv iota. cbn [extEnd startDot startPart matchedSlash preDotState].
  assert ((i + 1 =? -1) = false) as -> by (apply Z.eqb_neq; lia).
  change (-1 =? -1) with true. cbv iota.
  cbn [extEnd startDot startPart matchedSlash preDotState].
  set (d := i - 1 - Z.of_nat (length chars)).
  assert (d = i - Z.of_nat (length (c :: chars))) as Hd' by (cbn [length]; lia).
  rewrite <- Hd'. assert (0 ≤ d) as Hd0 by (cbn [length] in Hd'; lia).
  assert (i + 1 ≠ -1) as Hi1 by lia.
  clearbody d. clear Hd' Hi Hs Hd Hc Hcd Hne chars c.
  (* the characters before the dot *)
  assert (∀ stemChars j pd0,
    Forall (λ c, Ascii.eqb c Path.slash = false) stemChars →
    (stemChars = [] → pd0 = 1 ∨ pd0 = -1) →
    ∃ pd, extLoop (stemChars ++ rest) j (ExtState d 0 (i + 1) false pd0)
          = extLoop rest (j - Z.of_nat (length stemChars))
              (ExtState d 0 (i + 1) false pd)
          ∧ (pd = 1 ∨ pd = -1)) as Hstem.
  { clear stemChars Hsne Hss.
    induction stemChars as [|c stemChars IH]; intros j pd0 Hss Hpd.
    - exists pd0. split; [|by apply Hpd]. simpl. by rewrite Z.sub_0_r.
    - apply Forall_cons in Hss as [Hc Hss].
      change ((c :: stemChars) ++ rest) with (c :: (stemChars ++ rest)).
      cbn [extLoop]. unfold is_slash. rewrite Hc.
      cbn [extEnd startDot startPart matchedSlash preDotState].
      assert ((i + 1 =? -1) = false) as -> by (apply Z.eqb_neq; lia).
      cbn [extEnd startDot startPart matchedSlash preDotState].
      assert ((d =? -1) = false) as -> by (apply Z.eqb_neq; lia). cbn [negb].
      assert (∃ pd1, (pd1 = 1 ∨ pd1 = -1)
                ∧ (if is_dot c
                   then if negb (pd0 =? 1)
                        then ExtState d 0 (i + 1) false 1
                        else ExtState d 0 (i + 1) false pd0
                   else ExtState d 0 (i + 1) false (-1))
                  = ExtState d 0 (i + 1) false pd1) as (pd1 & Hpd1 & ->).
      { destruct (is_dot c).
        - destruct (pd0 =? 1) eqn:E; cbn [negb].
          + exists pd0. split; [left; lia | done].
          + exists 1. split; [by left | done].
        - exists (-1). split; [by right | done]. }
      destruct (IH (j - 1) pd1 Hss (λ _, Hpd1)) as (pd & -> & Hpd').
      exists pd. split; [|done]. f_equal. cbn [length]. lia. }
  change (-1 =? -1) with true. cbv iota.
  destruct (Hstem stemChars (d - 1) 0 Hss) as (pd & -> & Hpd); [done |].
  destruct Hrest as [-> | [r ->]].
  - exists 0, pd. by split.
  - cbn [extLoop]. unfold is_slash. rewrite Ascii.eqb_refl.
    cbn [matchedSlash negb startDot extEnd preDotState].
    eexists _, pd. by split.
Qed.


Lemma charsDown_nonempty s : s ≠ "" → charsDown s ≠ [].
Proof.
  intros Hs E. apply (f_equal length) in E. rewrite length_charsDown in E.
  by destruct s.
Qed.

Lemma charsDown_dir dir :
  dir = "" ∨ (∃ d, dir = d +:+ "/") →
  charsDown dir = [] ∨ ∃ r, charsDown dir = Path.slash :: r.
Proof.
  intros [-> | [d ->]]; [by left | right].
  rewrite charsDown_app. by eexists.
Qed.

(** [path.extname] of a file name with a dot inside, after any
    directory: the last dot and what follows it. *)
Lemma extname_file dir stem e :
  dir = "" ∨ (∃ d, dir = d +:+ "/") →
  stem ≠ "" → without Path.slash stem = true →
  e ≠ "" → without Path.slash e = true → without dot e = true →
  extname (dir +:+ stem +:+ String dot e) = String dot e.
Proof.
  intros Hdir Hstem Hss He Hes Hed. unfold extname.
  rewrite !charsDown_app.
  replace (charsDown (String dot e)) with (charsDown e ++ [dot]) by done.
  rewrite <- !app_assoc. cbn [app].
  rewrite !length_sapp. cbn [String.length].
  set (n := Z.of_nat (String.length dir + (String.length stem + S (String.length e)))).
  destruct (extLoop_name (charsDown e) (charsDown stem) (charsDown dir) (n - 1))
    as (sp & pd & -> & Hpd).
  - by apply charsDown_nonempty.
  - by apply charsDown_nonempty.
  - by apply without_chars.
  - by apply without_chars.
  - by apply without_chars.
  - by apply charsDown_dir.
  - rewrite length_charsDown. unfold n. destruct stem; [done |]. cbn [String.length]. lia.
  - rewrite length_charsDown. cbn [startDot extEnd preDotState startPart].
    assert (0 < Z.of_nat (String.length e)) as Hlen by (destruct e; [done | cbn [String.length]; lia]).
    assert ((n - 1 - Z.of_nat (String.length e) =? -1) = false) as ->
      by (apply Z.eqb_neq; unfold n; lia).
    assert ((n - 1 + 1 =? -1) = false) as -> by (apply Z.eqb_neq; unfold n; lia).
    assert ((pd =? 0) = false) as -> by (apply Z.eqb_neq; lia).
    assert ((n - 1 - Z.of_nat (String.length e) =? n - 1 + 1 - 1) = false) as ->
      by (apply Z.eqb_neq; lia).
    rewrite andb_false_r. cbn [orb andb]. unfold slice.
    replace (Z.to_nat (n - 1 - Z.of_nat (String.length e)))
      with (String.length (dir +:+ stem)) by (rewrite length_sapp; unfold n; lia).
    replace (Z.to_nat (n - 1 + 1 - (n - 1 - Z.of_nat (String.length e))))
      with (String.length (String dot e)) by (cbn [String.length]; lia).
    rewrite <- sapp_assoc. apply substring_skip.
Qed.


(** A name that starts with its only dot has no extension. *)
Lemma extname_dotfile e :
  e ≠ "" → without Path.slash e = true → without dot e = true →
  extname (String dot e) = "".
Proof.
  intros He Hes Hed. unfold extname.
  replace (charsDown (String dot e)) with (charsDown e ++ [dot]) by done.
  pose proof (charsDown_nonempty e He) as Hne.
  pose proof (without_chars _ _ Hes) as Hs.
  pose proof (without_chars _ _ Hed) as Hd.
  pose proof (length_charsDown e) as Hlen.
  destruct (charsDown e) as [|c chars]; [done |].
  apply Forall_cons in Hs as [Hc Hs]. apply Forall_cons in Hd as [Hcd Hd].
  cbn [String.length]. cbn [length] in Hlen.
  change ((c :: chars) ++ [dot]) with (c :: (chars ++ [dot])).
  cbn [extLoop]. unfold is_slash, is_dot. rewrite Hc, Hcd.
  cbn [extEnd startDot]. change (-1 =? -1) with true. cbv iota.
  cbn [startDot]. change (negb (-1 =? -1)) with false. cbv iota.
  rewrite extLoop_ext by (done || lia).
  cbn [extLoop]. unfold is_slash, is_dot.
  change (Ascii.eqb dot Path.slash) with false. rewrite Ascii.eqb_refl.
  cbv iota. cbn [extEnd startDot startPart matchedSlash preDotState].
  assert ((Z.of_nat (S (String.length e)) - 1 + 1 =? -1) = false) as ->
    by (apply Z.eqb_neq; lia).
  change (-1 =? -1) with true. cbv iota.
  cbn [extEnd startDot startPart matchedSlash preDotState].
  change (0 =? 0) with true. by rewrite orb_true_r.
Qed.

(** *** The loops of [basename] *)

(** The characters of the suffix, met from its last one down, are
    matched one by one; at the first of them the end is set. *)
Lemma baseLoop_suffix suffix rp rest i st :
  (∀ (k : nat) c, rev rp !! k = Some c → String.get k suffix = Some c) →
  Forall (λ c, Ascii.eqb c Path.slash = false) rp → rp ≠ [] →
  extIdx st = Z.of_nat (length rp) - 1 →
  Z.of_nat (length rp) ≤ i + 1 →
  ∃ st', baseLoop suffix (rp ++ rest) i st
         = baseLoop suffix rest (i - Z.of_nat (length rp)) st'
       ∧ baseStart st' = baseStart st
       ∧ baseEnd st' = i - Z.of_nat (length rp) + 1
       ∧ extIdx st' = -1 ∧ firstNonSlashEnd st' ≠ -1.
Proof.
  revert i st. induction rp as [|c rp IH]; intros i st Hpre Hs Hne Hidx Hi; [done |].
  apply Forall_cons in Hs as [Hc Hs].
  change ((c :: rp) ++ rest) with (c :: (rp ++ rest)).
  cbn [extLoop baseLoop]. unfold is_slash. rewrite Hc.
  set (st1 := if firstNonSlashEnd st =? -1
              then BaseState (baseStart st) (baseEnd st) false (extIdx st) (i + 1)
              else st).
  cbn [length] in Hidx, Hi.
  assert (extIdx st1 = Z.of_nat (length rp) ∧ baseStart st1 = baseStart st
          ∧ firstNonSlashEnd st1 ≠ -1) as (Hidx1 & Hstart1 & Hf1).
  { unfold st1. destruct (firstNonSlashEnd st =? -1) eqn:E; cbn.
    - repeat split; lia.
    - apply Z.eqb_neq in E. repeat split; [lia | done]. }
  clearbody st1.
  assert ((0 <=? extIdx st1) = true) as -> by (apply Z.leb_le; lia).
  assert (charAt suffix (extIdx st1) = Some c) as Hat.
  { unfold charAt. rewrite Hidx1, Nat2Z.id. apply Hpre.
    cbn [rev]. rewrite lookup_app_r by (by rewrite length_rev).
    by rewrite length_rev, Nat.sub_diag. }
  rewrite bool_decide_eq_true_2 by done.
  destruct rp as [|c' rp'].
  - cbn [length] in *. assert ((extIdx st1 - 1 =? -1) = true) as ->
      by (apply Z.eqb_eq; lia).
    eexists. split; [reflexivity |]. cbn. repeat split; try done; lia.
  - assert ((extIdx st1 - 1 =? -1) = false) as ->
      by (apply Z.eqb_neq; cbn [length] in *; lia).
    edestruct (IH (i - 1)) as (st' & -> & H1 & H2 & H3 & H4).
    + intros k x Hk. apply Hpre. cbn [rev] in *.
      by apply lookup_app_l_Some.
    + done.
    + done.
    + cbn [extIdx]. cbn [length] in *. lia.
    + cbn [length] in *. lia.
    + exists st'. cbn [baseStart] in H1. cbn [length] in *.
      split; [f_equal; lia |]. repeat split; try done; lia.
Qed.

(** Before the suffix, with no slash, nothing changes. *)
Lemma baseLoop_stem suffix chars i st :
  Forall (λ c, Ascii.eqb c Path.slash = false) chars →
  extIdx st < 0 → firstNonSlashEnd st ≠ -1 →
  baseLoop suffix chars i st = st.
Proof.
  intros Hs Hidx Hf. revert i. induction Hs as [|c chars Hc Hs IH]; intros i; [done |].
  cbn [baseLoop]. unfold is_slash. rewrite Hc.
  rewrite (proj2 (Z.eqb_neq _ _) Hf).
  assert ((0 <=? extIdx st) = false) as -> by (apply Z.leb_gt; lia).
  apply IH.
Qed.

Lemma plainLoop_rest chars i (start e : Z) (m : bool) :
  Forall (λ c, Ascii.eqb c Path.slash = false) chars → e ≠ -1 →
  plainLoop chars i (start, e, m) = (start, e, m).
Proof.
  intros Hs He. revert i. induction Hs as [|c chars Hc Hs IH]; intros i; [done |].
  cbn [plainLoop]. unfold is_slash. rewrite Hc.
  rewrite (proj2 (Z.eqb_neq _ _) He). apply IH.
Qed.


(** [path.basename] of a name without a slash, with what the name
    ends with as the suffix: the name without the suffix. *)
Lemma basename_suffix stem ext :
  stem ≠ "" → ext ≠ "" →
  without Path.slash stem = true → without Path.slash ext = true →
  basename (stem +:+ ext) ext = stem.
Proof.
  intros Hstem Hext Hss Hes. unfold basename.
  rewrite length_sapp.
  assert (0 < String.length stem ∧ 0 < String.length ext)%nat as [Hls Hle]
    by (destruct stem, ext; cbn [String.length]; try done; lia).
  assert ((0 <? Z.of_nat (String.length ext)) = true) as -> by (apply Z.ltb_lt; lia).
  assert ((Z.of_nat (String.length ext)
           <=? Z.of_nat (String.length stem + String.length ext)) = true) as ->
    by (apply Z.leb_le; lia).
  cbn [andb].
  assert (String.eqb ext (stem +:+ ext) = false) as ->.
  { apply String.eqb_neq. intros E. apply (f_equal String.length) in E.
    rewrite length_sapp in E. lia. }
  rewrite charsDown_app.
  set (n := Z.of_nat (String.length stem + String.length ext)).
  destruct (baseLoop_suffix ext (charsDown ext) (charsDown stem) (n - 1)
              (BaseState 0 (-1) true (Z.of_nat (String.length ext) - 1) (-1)))
    as (st' & -> & Hstart & Hend & Hidx & Hf).
  - intros k c Hk. unfold charsDown in Hk. rewrite rev_involutive in Hk.
    by rewrite get_chars.
  - by apply without_chars.
  - apply charsDown_nonempty, Hext.
  - by rewrite length_charsDown.
  - rewrite length_charsDown. unfold n. lia.
  - rewrite baseLoop_stem; [| by apply without_chars | lia | done].
    rewrite length_charsDown in Hend. cbn [baseStart] in Hstart.
    rewrite Hstart, Hend.
    assert ((0 =? n - 1 - Z.of_nat (String.length ext) + 1) = false) as ->
      by (apply Z.eqb_neq; unfold n; lia).
    assert ((n - 1 - Z.of_nat (String.length ext) + 1 =? -1) = false) as ->
      by (apply Z.eqb_neq; unfold n; lia).
    unfold slice. change (Z.to_nat 0) with 0%nat.
    replace (Z.to_nat (n - 1 - Z.of_nat (String.length ext) + 1 - 0))
      with (String.length stem) by (unfold n; lia).
    apply substring_front.
Qed.

(** [path.basename] of a name without a slash, with the empty suffix:
    the name. *)
Lemma basename_plain name :
  name ≠ "" → without Path.slash name = true → basename name "" = name.
Proof.
  intros Hname Hs. unfold basename. cbn [String.length].
  change (0 <? Z.of_nat 0) with false. cbn [andb].
  pose proof (charsDown_nonempty name Hname) as Hne.
  pose proof (without_chars _ _ Hs) as Hc.
  pose proof (length_charsDown name) as Hlen.
  destruct (charsDown name) as [|c chars]; [done |].
  apply Forall_cons in Hc as [Hc Hcs].
  cbn [plainLoop]. unfold is_slash. rewrite Hc.
  change (-1 =? -1) with true. cbv iota.
  rewrite plainLoop_rest by (done || lia).
  assert ((Z.of_nat (String.length name) - 1 + 1 =? -1) = false) as ->
    by (apply Z.eqb_neq; lia).
  unfold slice. change (Z.to_nat 0) with 0%nat.
  replace (Z.to_nat (Z.of_nat (String.length name) - 1 + 1 - 0))
    with (String.length name) by lia.
  apply substring_all.
Qed.

End NameFacts.

(** ** The flows of the data directory *)

Section FlowNameFacts.

Import PathName.

Implicit Types (c : ascii) (stem ext name s : string) (files : list string).

Lemma lowerChar_dot c : lowerChar c = dot → c = dot.
Proof. destruct c as [[] [] [] [] [] [] [] []]; vm_compute; congruence. Qed.

(** A character that lowers to a letter is no slash and no dot. *)
Lemma lowerChar_letter c :
  (97 ≤ nat_of_ascii (lowerChar c))%nat →
  Ascii.eqb c Path.slash = false ∧ Ascii.eqb c dot = false.
Proof.
  destruct c as [[] [] [] [] [] [] [] []]; vm_compute; intros H; try done; lia.
Qed.

Lemma length_toLowerCase s : String.length (toLowerCase s) = String.length s.
Proof. induction s as [|c s IH]; simpl; [done | by rewrite IH]. Qed.

Lemma substring_toLowerCase (a b : nat) s :
  substring a b (toLowerCase s) = toLowerCase (substring a b s).
Proof.
  revert a b. induction s as [|c s IH]; intros [|a] [|b]; simpl; try done.
  by rewrite IH.
Qed.

(** A name that ends with .csv in some case: what is before its last
    four characters, and these. *)
Lemma csv_split name :
  endsWith ".csv" (toLowerCase name) = true →
  ∃ stem e,
    name = stem +:+ String dot e ∧ toLowerCase (String dot e) = ".csv"
    ∧ e ≠ "" ∧ without Path.slash e = true ∧ without dot e = true.
Proof.
  unfold endsWith. rewrite length_toLowerCase. cbn [String.length].
  intros [Hle Heq]%andb_true_iff. apply Nat.leb_le in Hle.
  apply String.eqb_eq in Heq. rewrite substring_toLowerCase in Heq.
  pose proof (substring_split name (String.length name - 4) ltac:(lia)) as Hname.
  replace (String.length name - (String.length name - 4))%nat with 4%nat
    in Hname by lia.
  set (stem := substring 0 (String.length name - 4) name) in *.
  set (ext := substring (String.length name - 4) 4 name) in *.
  clearbody stem ext.
  destruct ext as [|c0 [|c1 [|c2 [|c3 [|c4 ext]]]]]; try done.
  simpl in Heq. injection Heq as H0 H1 H2 H3.
  apply lowerChar_dot in H0. subst c0.
  exists stem, (String c1 (String c2 (String c3 ""))).
  split; [done |]. split; [simpl; by rewrite H1, H2, H3 |]. split; [done |].
  destruct (lowerChar_letter c1) as [S1 D1]; [rewrite H1; vm_compute; lia |].
  destruct (lowerChar_letter c2) as [S2 D2]; [rewrite H2; vm_compute; lia |].
  destruct (lowerChar_letter c3) as [S3 D3]; [rewrite H3; vm_compute; lia |].
  simpl. by rewrite S1, S2, S3, D1, D2, D3.
Qed.

(** What server.js makes of a listed name: the name without its last
    four characters, but the whole name where nothing would be left. *)
Lemma flow_name name :
  without Path.slash name = true →
  endsWith ".csv" (toLowerCase name) = true →
  ∃ stem ext,
    name = stem +:+ ext ∧ toLowerCase ext = ".csv"
    ∧ basename name (extname name) = (if nonEmpty stem then stem else name).
Proof.
  intros Hs (stem & e & -> & Hlow & He & Hes & Hed)%csv_split.
  exists stem, (String dot e). split; [done |]. split; [done |].
  rewrite without_app in Hs. apply andb_true_iff in Hs as [Hss Hext].
  destruct stem as [|c stem].
  - cbn [String.append nonEmpty]. rewrite extname_dotfile by done.
    by apply basename_plain.
  - cbn [nonEmpty].
    assert (extname (String c stem +:+ String dot e) = String dot e) as ->
      by (apply (extname_file "" (String c stem) e); done || by left).
    by apply basename_suffix.
Qed.


Lemma endsWith_lower name :
  endsWith ".csv" name = true → endsWith ".csv" (toLowerCase name) = true.
Proof.
  intros H. rewrite (endsWith_split _ _ H), toLowerCase_app. apply endsWith_app.
Qed.

(** On a name with lower-case .csv after something, both servers
    give what is before it. *)
Lemma flow_name_lower name :
  without Path.slash name = true → endsWith ".csv" name = true →
  name ≠ ".csv" →
  basename name (extname name) = stripCsvSuffix name.
Proof.
  intros Hs Hq Hne. rewrite (endsWith_split _ _ Hq) in *.
  set (stem := substring 0 (String.length name - String.length ".csv") name) in *.
  clearbody stem. rewrite stripCsvSuffix_app.
  rewrite without_app in Hs. apply andb_true_iff in Hs as [Hss _].
  assert (stem ≠ "") as Hstem by (intros ->; done).
  assert (extname (stem +:+ ".csv") = ".csv") as ->
    by (by apply (extname_file "" stem "csv"); [left | ..]).
  by apply basename_suffix.
Qed.

Lemma namesReply_inj (xs ys : list string) : namesReply xs = namesReply ys → xs = ys.
Proof.
  unfold namesReply. intros H. injection H as H.
  revert ys H. induction xs as [|x xs IH]; intros [|y ys] H; try done.
  simpl in H. injection H as -> H. f_equal. by apply IH.
Qed.

Lemma filter_length_le (p q : string → bool) files :
  (∀ name, q name = true → p name = true) →
  (length (List.filter q files) ≤ length (List.filter p files))%nat.
Proof.
  intros Hqp. induction files as [|name files IH]; simpl; [done |].
  destruct (q name) eqn:Eq.
  - rewrite (Hqp _ Eq). simpl. lia.
  - destruct (p name); simpl; lia.
Qed.

Lemma flow_lists_agree files :
  Forall (λ name, without Path.slash name = true) files →
  map (λ name, basename name (extname name))
    (List.filter (λ name, endsWith ".csv" (toLowerCase name)) files)
  = map stripCsvSuffix (List.filter (endsWith ".csv") files)
  ↔ Forall (λ name, name ≠ ".csv"
              ∧ (endsWith ".csv" (toLowerCase name) = true
                 → endsWith ".csv" name = true)) files.
Proof.
  induction 1 as [|name files Hs _ IH]; [by split |].
  cbn [List.filter].
  destruct (endsWith ".csv" name) eqn:Eq.
  - rewrite (endsWith_lower _ Eq). cbn [map]. split.
    + intros H. injection H as Hname Hrest. constructor; [|by apply IH].
      split; [|done]. intros ->. by vm_compute in Hname.
    + intros [[Hne _] Hrest]%Forall_cons.
      rewrite flow_name_lower by done. f_equal. by apply IH.
  - destruct (endsWith ".csv" (toLowerCase name)) eqn:Ep.
    + split.
      * intros H. apply (f_equal length) in H. cbn [map length] in H.
        rewrite !length_map in H.
        pose proof (filter_length_le (λ name, endsWith ".csv" (toLowerCase name))
                      (endsWith ".csv") files endsWith_lower). lia.
      * intros [[_ Himp] _]%Forall_cons. specialize (Himp Ep). congruence.
    + rewrite IH. split.
      * intros Hrest. constructor; [|done].
        split; [intros ->; by vm_compute in Ep | intros H; congruence].
      * by intros [_ Hrest]%Forall_cons.
Qed.

End FlowNameFacts.

(** server.js lists as flows, in the order of the directory listing,
    the names that end with .csv in any case, each without these four
    characters; a file of just these four characters is listed under
    its whole name. *)
Theorem handleApiFlows_lists (files : list string) :
  Forall (λ name, without Path.slash name = true) files →
  ∃ flows,
    handleApiFlows GET (Listing files) = namesReply flows
    ∧ Forall2 (λ flow name,
        ∃ stem ext, name = stem +:+ ext ∧ toLowerCase ext = ".csv"
                    ∧ flow = if nonEmpty stem then stem else name)
        flows
        (List.filter (λ name, endsWith ".csv" (toLowerCase name)) files).
Proof.
  intros Hfiles. eexists. split; [reflexivity |].
  induction Hfiles as [|name files Hs _ IH]; [constructor |].
  cbn [List.filter].
  destruct (endsWith ".csv" (toLowerCase name)) eqn:Ep; [|done].
  cbn [map]. constructor; [|done].
  destruct (flow_name name Hs Ep) as (stem & ext & Hname & Hext & ->).
  by exists stem, ext.
Qed.

Lemma handleApiFlows_lists_witness :
  ∃ flows,
    handleApiFlows GET (Listing ["plan.csv"; "notes.txt"; "Old.CSV"; ".csv"])
    = namesReply flows
    ∧ Forall2 (λ flow name,
        ∃ stem ext, name = stem +:+ ext ∧ toLowerCase ext = ".csv"
                    ∧ flow = if nonEmpty stem then stem else name)
        flows ["plan.csv"; "Old.CSV"; ".csv"].
Proof.
  apply (handleApiFlows_lists ["plan.csv"; "notes.txt"; "Old.CSV"; ".csv"]).
  by repeat constructor.
Defined.

(** The two servers list the same flows exactly when no file of the
    data directory is named .csv alone and none has these letters in
    upper case at its end. *)
Theorem flows_agree_iff (files : list string) :
  Forall (λ name, without Path.slash name = true) files →
  handleApiFlows GET (Listing files) = handleFlows GET (Listing files)
  ↔ Forall (λ name, name ≠ ".csv"
              ∧ (endsWith ".csv" (toLowerCase name) = true
                 → endsWith ".csv" name = true)) files.
Proof.
  intros Hfiles. rewrite <- (flow_lists_agree files Hfiles).
  cbn [handleApiFlows handleFlows]. split.
  - apply namesReply_inj.
  - by intros ->.
Qed.

Lemma flows_agree_iff_witness :
  handleApiFlows GET (Listing ["plan.csv"; "notes.txt"; "Old.CSV"])
  = handleFlows GET (Listing ["plan.csv"; "notes.txt"; "Old.CSV"])
  ↔ Forall (λ name, name ≠ ".csv"
              ∧ (endsWith ".csv" (toLowerCase name) = true
                 → endsWith ".csv" name = true))
      ["plan.csv"; "notes.txt"; "Old.CSV"].
Proof.
  apply (flows_agree_iff ["plan.csv"; "notes.txt"; "Old.CSV"]).
  by repeat constructor.
Defined.

(** ** Static files *)

Section StaticFacts.

Implicit Types (D M dirs : list string) (seg s f stem e pathname rel : string).

Lemma segments_slash M :
  Forall (λ seg, cleanSeg seg = true) M →
  Path.segments (absPath M +:+ "/") = Path.segments (absPath M) ++ [""].
Proof. intros HM. apply (segments_app (absPath M) ""). Qed.

Lemma parts_slash M :
  Forall (λ seg, cleanSeg seg = true) M → Path.parts (absPath M +:+ "/") = M.
Proof.
  intros HM. unfold Path.parts.
  rewrite segments_slash, normalizeSegments_app by (done || by rewrite list_elem_of_singleton).
  fold (Path.parts (absPath M)). rewrite parts_absPath by done. apply app_nil_r.
Qed.

Lemma normalize_slash M :
  Forall (λ seg, cleanSeg seg = true) M → M ≠ [] →
  Path.normalize (absPath M +:+ "/") = absPath M +:+ "/".
Proof.
  intros HM Hne. unfold Path.normalize.
  change (nonEmpty (absPath M +:+ "/")) with true.
  change (Path.isAbsolute (absPath M +:+ "/")) with true. cbn [negb].
  fold (Path.parts (absPath M +:+ "/")). rewrite parts_slash by done.
  rewrite nonEmpty_join by done. cbn [negb].
  assert (Path.trailingSeparator (absPath M +:+ "/") = true) as ->.
  { unfold Path.trailingSeparator. rewrite segments_slash by done.
    by rewrite last_snoc. }
  unfold absPath. by rewrite sapp_assoc.
Qed.

(** What [path.join] gives for a normal absolute path and a path
    without two dots is normal: [path.normalize] leaves it as it is,
    its text starts with the text of the first path, and its segments
    are those of the first path and the kept ones of the second. *)
Lemma join2_inside D rel :
  Forall (λ seg, cleanSeg seg = true) D → nonEmpty rel = true →
  ".." ∉ Path.segments rel →
  Path.normalize (Path.join2 (absPath D) rel) = Path.join2 (absPath D) rel
  ∧ startsWith (absPath D) (Path.join2 (absPath D) rel) = true
  ∧ Path.parts (Path.join2 (absPath D) rel) = D ++ keptSegs (Path.segments rel).
Proof.
  intros HD Hrel Hdd.
  destruct (join2_absPath D rel HD Hrel Hdd) as (t & Ht & -> & _).
  assert (Forall (λ seg, cleanSeg seg = true) (D ++ keptSegs (Path.segments rel)))
    as HM.
  { apply Forall_app. split; [done |].
    apply keptSegs_are_clean; [apply segments_no_slash | done]. }
  split; [| split; [apply startsWith_absPath |]].
  - destruct Ht as [-> | [-> Hne]].
    + rewrite sapp_nil_r. by apply normalize_absPath.
    + by apply normalize_slash.
  - destruct Ht as [-> | [-> Hne]].
    + rewrite sapp_nil_r. by apply parts_absPath.
    + by apply parts_slash.
Qed.


Lemma requested_path pathname :
  pathname ≠ "" → ".." ∉ Path.segments pathname →
  let p := if String.eqb pathname "/" then "/tracker.html" else pathname in
  nonEmpty p = true ∧ ".." ∉ Path.segments p.
Proof.
  intros Hne Hdd. destruct (String.eqb pathname "/").
  - split; [done |]. vm_compute. intros H.
    repeat (apply elem_of_cons in H as [H | H]; [done |]). by inversion H.
  - split; [by destruct pathname | done].
Qed.

End StaticFacts.

(** With the server in a normal absolute directory, a request whose
    path has no segment of two dots is never refused by either
    server; what is served is a regular file, and its path has the
    segments of the server's directory and then the segments of the
    request that are not empty and no dot. *)
Theorem request_without_dotdot (D : list string)
    (stat : string → option statResult) (pathname : string) :
  Forall (λ seg, cleanSeg seg = true) D →
  pathname ≠ "" → ".." ∉ Path.segments pathname →
  let p := if String.eqb pathname "/" then "/tracker.html" else pathname in
  serveStatic (absPath D) stat pathname ≠ Forbidden
  ∧ serveStatic_server (absPath D) stat pathname ≠ Forbidden
  ∧ (serveStatic (absPath D) stat pathname = NotFound
     ↔ serveStatic_server (absPath D) stat pathname = NotFound)
  ∧ ∀ contentType file,
      serveStatic (absPath D) stat pathname = Served contentType file
      ∨ serveStatic_server (absPath D) stat pathname = Served contentType file →
      stat file = Some IsFile
      ∧ Path.parts file = D ++ keptSegs (Path.segments p).
Proof.
  intros HD Hne Hdd p.
  destruct (requested_path pathname Hne Hdd) as [Hp Hpdd]. fold p in Hp, Hpdd.
  destruct (join2_inside D p HD Hp Hpdd) as (Hnorm & Hstarts & Hparts).
  unfold serveStatic, serveStatic_server.
  assert (nonEmpty pathname = true) as -> by (by destruct pathname).
  fold p. cbv zeta. rewrite Hnorm, Hstarts. cbn [negb].
  destruct (stat (Path.join2 (absPath D) p)) as [[|]|] eqn:E;
    (split; [done |]); (split; [done |]); (split; [done |]);
    intros ct file [H | H]; try done; injection H as _ <-; done.
Qed.

Lemma request_without_dotdot_witness :
  serveStatic "/srv/app" (fileAt "/srv/app/css/site.css") "/css//./site.css"
    ≠ Forbidden
  ∧ serveStatic_server "/srv/app" (fileAt "/srv/app/css/site.css")
      "/css//./site.css" ≠ Forbidden
  ∧ (serveStatic "/srv/app" (fileAt "/srv/app/css/site.css") "/css//./site.css"
       = NotFound
     ↔ serveStatic_server "/srv/app" (fileAt "/srv/app/css/site.css")
         "/css//./site.css" = NotFound)
  ∧ ∀ contentType file,
      serveStatic "/srv/app" (fileAt "/srv/app/css/site.css") "/css//./site.css"
        = Served contentType file
      ∨ serveStatic_server "/srv/app" (fileAt "/srv/app/css/site.css")
          "/css//./site.css" = Served contentType file →
      fileAt "/srv/app/css/site.css" file = Some IsFile
      ∧ Path.parts file = ["srv"; "app"; "css"; "site.css"].
Proof.
  apply (request_without_dotdot ["srv"; "app"] (fileAt "/srv/app/css/site.css")
           "/css//./site.css").
  - by repeat constructor.
  - done.
  - vm_compute. intros H.
    repeat (apply elem_of_cons in H as [H | H]; [done |]). by inversion H.
Defined.

(** ** Requests that climb out of the server's directory *)

Section ClimbFacts.

Implicit Types (D M acc : list string) (seg s f x rel : string).

Lemma normalizeStep_clean (allow : bool) acc seg :
  cleanSeg seg = true → Path.normalizeStep allow acc seg = seg :: acc.
Proof.
  intros (H1 & H2 & H3 & _)%cleanSeg_kept. unfold Path.normalizeStep.
  by rewrite H1, H2, H3.
Qed.

Lemma cleanSeg_app seg s :
  cleanSeg seg = true → without Path.slash s = true → cleanSeg (seg +:+ s) = true.
Proof.
  intros Hseg Hs. pose proof (cleanSeg_kept seg Hseg) as (H1 & H2 & H3 & H4).
  apply String.eqb_neq in H1, H2, H3.
  unfold cleanSeg. rewrite without_app, H4, Hs.
  assert (nonEmpty (seg +:+ s) = true) as -> by (by destruct seg).
  assert (seg +:+ s ≠ ".") as ->%String.eqb_neq.
  { intros E. destruct seg as [|a seg]; [done |]. simpl in E.
    injection E as -> E. destruct seg; [|done]. done. }
  assert (seg +:+ s ≠ "..") as ->%String.eqb_neq; [|done].
  intros E. destruct seg as [|a seg]; [done |]. simpl in E.
  injection E as -> E. destruct seg as [|b seg]; [done |]. simpl in E.
  injection E as -> E. destruct seg; [|done]. done.
Qed.

Lemma keptSegs_app L S : keptSegs (L ++ S) = keptSegs L ++ keptSegs S.
Proof.
  unfold keptSegs. induction L as [|a L IH]; [done |]. simpl.
  destruct (negb _); simpl; by rewrite IH.
Qed.

(** Two dots as the first kept segment of the second path take the
    last segment of the first path away. *)
Lemma join2_climb D seg (E S : list string) rel :
  Forall (λ seg, cleanSeg seg = true) D → cleanSeg seg = true →
  Forall (λ seg, cleanSeg seg = true) S → S ≠ [] →
  nonEmpty rel = true → Path.segments rel = E ++ ".." :: S →
  keptSegs E = [] → ".." ∉ E →
  Path.join2 (absPath (D ++ [seg])) rel = absPath (D ++ S).
Proof.
  intros HD Hseg HS Hne Hrel Hsegs HE HEdd.
  assert (Forall (λ seg, cleanSeg seg = true) (D ++ [seg])) as HDs
    by (apply Forall_app; split; [done | by repeat constructor]).
  unfold Path.join2. change (nonEmpty (absPath (D ++ [seg]))) with true.
  rewrite Hrel. cbv iota.
  set (p := absPath (D ++ [seg]) +:+ "/" +:+ rel).
  assert (Path.segments p = (("" :: D ++ [seg]) ++ E) ++ ".." :: S) as Hp.
  { unfold p. change ("/" +:+ rel) with (String Path.slash rel).
    rewrite segments_app, segments_absPath, Hsegs, <- app_assoc by done.
    by destruct D. }
  assert (Path.normalizeSegments false (Path.segments p) = D ++ S) as Hnorm.
  { unfold Path.normalizeSegments. rewrite Hp, foldl_app.
    rewrite (normalize_fold false (("" :: D ++ [seg]) ++ E) []).
    - rewrite keptSegs_app, HE, !app_nil_r.
      change (keptSegs ("" :: D ++ [seg])) with (keptSegs (D ++ [seg])).
      rewrite (keptSegs_clean _ HDs), rev_app_distr.
      cbn [rev app foldl].
      assert (Path.normalizeStep false (seg :: rev D) ".." = rev D) as ->.
      { apply cleanSeg_kept in Hseg as (_ & _ & Hseg & _).
        unfold Path.normalizeStep. cbn. by rewrite Hseg. }
      rewrite normalize_fold by (by apply clean_no_dotdot).
      by rewrite keptSegs_clean, rev_app_distr, !rev_involutive.
    - intros [[E' | H]%elem_of_cons | H]%elem_of_app; [done | | done].
      by apply (clean_no_dotdot _ HDs). }
  unfold Path.normalize. change (nonEmpty p) with true.
  change (Path.isAbsolute p) with true. cbn [negb]. rewrite Hnorm.
  assert (nonEmpty (join "/" (D ++ S)) = true) as ->.
  { apply nonEmpty_join; [by destruct D, S | by apply Forall_app]. }
  cbn [negb].
  assert (Path.trailingSeparator p = false) as ->; [|done].
  unfold Path.trailingSeparator. rewrite Hp.
  destruct (exists_last Hne) as (S' & x & ->).
  change (".." :: S' ++ [x]) with ((".." :: S') ++ [x]).
  rewrite (app_assoc _ (".." :: S') [x]), last_snoc.
  apply Forall_app in HS as [_ [Hx _]%Forall_cons].
  apply cleanSeg_kept in Hx as (Hx & _). by destruct x.
Qed.

Lemma join2_dotdot D seg x f :
  Forall (λ seg, cleanSeg seg = true) D → cleanSeg seg = true →
  cleanSeg x = true → cleanSeg f = true →
  Path.join2 (absPath (D ++ [seg])) ("/../" +:+ x +:+ "/" +:+ f)
  = absPath (D ++ [x; f]).
Proof.
  intros HD Hseg Hx Hf.
  pose proof (cleanSeg_kept x Hx) as (_ & _ & _ & Hxs).
  pose proof (cleanSeg_kept f Hf) as (_ & _ & _ & Hfs).
  apply (join2_climb D seg [""] [x; f]); try done.
  - by repeat constructor.
  - change ("/../" +:+ x +:+ "/" +:+ f)
      with ("" +:+ String Path.slash
              (".." +:+ String Path.slash (x +:+ String Path.slash f))).
    rewrite !segments_app.
    by rewrite (segments_slashfree x), (segments_slashfree f).
  - by intros ?%list_elem_of_singleton.
Qed.

Lemma join2_dotdot_name D seg name :
  Forall (λ seg, cleanSeg seg = true) D → cleanSeg seg = true →
  cleanSeg name = true →
  Path.join2 (absPath (D ++ [seg])) ("../" +:+ name) = absPath (D ++ [name]).
Proof.
  intros HD Hseg Hname.
  pose proof (cleanSeg_kept name Hname) as (_ & _ & _ & Hs).
  apply (join2_climb D seg [] [name]); try done.
  - by repeat constructor.
  - change ("../" +:+ name) with (".." +:+ String Path.slash name).
    by rewrite segments_app, (segments_slashfree name).
  - by intros ?%elem_of_nil.
Qed.

Lemma absPath_sibling D seg s f :
  absPath (D ++ [seg +:+ s; f]) = absPath (D ++ [seg]) +:+ (s +:+ "/" +:+ f).
Proof.
  unfold absPath. change [seg +:+ s; f] with ([seg +:+ s] ++ [f]).
  rewrite app_assoc, join_snoc, !(join_snoc "/" D).
  destruct D as [|a D]; [simpl; by rewrite sapp_assoc |].
  generalize (join "/" (a :: D)). intros X.
  repeat (progress (rewrite ?sapp_assoc; simpl)). done.
Qed.

Lemma sapp_nil_inv seg s : seg +:+ s = seg → s = "".
Proof.
  intros H. apply (f_equal String.length) in H. rewrite length_sapp in H.
  destruct s; [done | simpl in H; lia].
Qed.

End ClimbFacts.

(** Neither server compares path segments when it checks a request:
    with the server in a directory, a request that climbs out of it
    with two dots into a directory beside it whose name starts with
    the name of the server's directory is served from there. *)
Theorem sibling_directory_is_served (D : list string) (seg s f : string)
    (stat : string → option statResult) :
  Forall (λ seg, cleanSeg seg = true) D → cleanSeg seg = true →
  s ≠ "" → without Path.slash s = true → cleanSeg f = true →
  let root := absPath (D ++ [seg]) in
  let file := absPath (D ++ [seg +:+ s; f]) in
  let pathname := "/../" +:+ (seg +:+ s) +:+ "/" +:+ f in
  stat file = Some IsFile →
  (∃ contentType, serveStatic root stat pathname = Served contentType file)
  ∧ (∃ contentType, serveStatic_server root stat pathname = Served contentType file)
  ∧ ¬ Path.below root file.
Proof.
  intros HD Hseg Hne Hs Hf root file pathname Hstat.
  pose proof (cleanSeg_app seg s Hseg Hs) as Hx.
  assert (Forall (λ seg, cleanSeg seg = true) (D ++ [seg +:+ s; f])) as Hfile
    by (apply Forall_app; split; [done | by repeat constructor]).
  assert (Path.join2 root pathname = file) as Hjoin by (by apply join2_dotdot).
  assert (startsWith root file = true) as Hstarts.
  { unfold file. rewrite absPath_sibling. apply startsWith_app. }
  split; [| split].
  - unfold serveStatic. change (String.eqb pathname "/") with false. cbv iota zeta.
    eexists. by rewrite Hjoin, Hstarts, Hstat.
  - unfold serveStatic_server. cbv zeta.
    change (nonEmpty pathname) with true. cbv iota.
    change (String.eqb pathname "/") with false. cbv iota.
    assert (Path.normalize file = file) as Hn by (by apply normalize_absPath).
    eexists. by rewrite Hjoin, !Hn, Hstarts, Hstat.
  - intros (more & _ & Hparts). unfold root, file in Hparts.
    assert (Forall (λ seg, cleanSeg seg = true) (D ++ [seg])) as Hroot
      by (apply Forall_app; split; [done | by repeat constructor]).
    rewrite (parts_absPath _ Hroot), (parts_absPath _ Hfile) in Hparts.
    rewrite <- app_assoc in Hparts. apply app_inv_head in Hparts.
    injection Hparts as Hparts _. by apply sapp_nil_inv in Hparts.
Qed.

Lemma sibling_directory_is_served_witness :
  (∃ contentType,
     serveStatic "/srv/app" (fileAt "/srv/app-old/keys.txt") "/../app-old/keys.txt"
     = Served contentType "/srv/app-old/keys.txt")
  ∧ (∃ contentType,
       serveStatic_server "/srv/app" (fileAt "/srv/app-old/keys.txt")
         "/../app-old/keys.txt"
       = Served contentType "/srv/app-old/keys.txt")
  ∧ ¬ Path.below "/srv/app" "/srv/app-old/keys.txt".
Proof.
  apply (sibling_directory_is_served ["srv"] "app" "-old" "keys.txt"
           (fileAt "/srv/app-old/keys.txt"));
    [by repeat constructor | reflexivity | done | reflexivity | reflexivity
    | reflexivity].
Defined.

(** ** The content type of a served file *)

Section ContentTypeFacts.

Import PathName.

Implicit Types (D L dirs : list string) (stem e name : string).

Lemma dotted_name_clean stem e :
  stem ≠ "" → without Path.slash stem = true →
  e ≠ "" → without Path.slash e = true →
  cleanSeg (stem +:+ String dot e) = true.
Proof.
  intros Hstem Hss He Hes. unfold cleanSeg.
  rewrite without_app, Hss. cbn [without]. rewrite Hes.
  assert (nonEmpty (stem +:+ String dot e) = true) as -> by (by destruct stem).
  assert (3 ≤ String.length (stem +:+ String dot e))%nat as Hlen.
  { rewrite length_sapp. destruct stem, e; try done. simpl. lia. }
  assert (stem +:+ String dot e ≠ ".") as ->%String.eqb_neq
    by (intros E; rewrite E in Hlen; simpl in Hlen; lia).
  assert (stem +:+ String dot e ≠ "..") as ->%String.eqb_neq
    by (intros E; rewrite E in Hlen; simpl in Hlen; lia).
  done.
Qed.

Lemma absPath_snoc L : ∃ d, ∀ name, absPath (L ++ [name]) = (d +:+ "/") +:+ name.
Proof.
  unfold absPath. destruct L as [|a L].
  - by exists "".
  - exists ("/" +:+ join "/" (a :: L)). intros name.
    by rewrite join_snoc, !sapp_assoc.
Qed.

(** A request for a file by its segments is joined to the server's
    directory segment by segment. *)
Lemma join2_file D dirs name :
  Forall (λ seg, cleanSeg seg = true) D →
  Forall (λ seg, cleanSeg seg = true) (dirs ++ [name]) →
  Path.join2 (absPath D) (absPath (dirs ++ [name])) = absPath (D ++ dirs ++ [name]).
Proof.
  intros HD HL.
  assert (Path.segments (absPath (dirs ++ [name])) = "" :: dirs ++ [name]) as Hsegs.
  { rewrite segments_absPath by done. by destruct dirs. }
  destruct (join2_absPath D (absPath (dirs ++ [name])) HD) as (t & _ & -> & Ht).
  - done.
  - rewrite Hsegs. intros [E | H]%elem_of_cons; [done |].
    by apply (clean_no_dotdot _ HL).
  - rewrite Ht, sapp_nil_r.
    + rewrite Hsegs. change (keptSegs ("" :: dirs ++ [name]))
        with (keptSegs (dirs ++ [name])). by rewrite keptSegs_clean.
    + unfold Path.trailingSeparator. rewrite Hsegs.
      rewrite app_comm_cons, last_snoc.
      apply Forall_app in HL as [_ [Hn _]%Forall_cons].
      apply cleanSeg_kept in Hn as (Hn & _). by destruct name.
Qed.

End ContentTypeFacts.

(** The content type of a served file is looked up under the text
    from the last dot of its name on, as it is written by serve.js
    and in lower case by server.js; without an entry it is
    application/octet-stream. *)
Theorem content_type_by_extension (D dirs : list string) (stem e : string)
    (stat : string → option statResult) :
  Forall (λ seg, cleanSeg seg = true) D →
  Forall (λ seg, cleanSeg seg = true) dirs →
  stem ≠ "" → without Path.slash stem = true →
  e ≠ "" → without Path.slash e = true → without PathName.dot e = true →
  let name := stem +:+ "." +:+ e in
  let file := absPath (D ++ dirs ++ [name]) in
  stat file = Some IsFile →
  serveStatic (absPath D) stat (absPath (dirs ++ [name]))
  = Served (default "application/octet-stream" (MIME ("." +:+ e))) file
  ∧ serveStatic_server (absPath D) stat (absPath (dirs ++ [name]))
    = Served (default "application/octet-stream"
                (MIME_TYPES (toLowerCase ("." +:+ e)))) file.
Proof.
  intros HD Hdirs Hstem Hss He Hes Hed name file Hstat.
  assert (cleanSeg name = true) as Hname by (by apply dotted_name_clean).
  assert (Forall (λ seg, cleanSeg seg = true) (dirs ++ [name])) as HL
    by (apply Forall_app; split; [done | by repeat constructor]).
  assert (Forall (λ seg, cleanSeg seg = true) (D ++ dirs ++ [name])) as Hfile
    by (by apply Forall_app).
  assert (Path.join2 (absPath D) (absPath (dirs ++ [name])) = file) as Hjoin
    by (by apply join2_file).
  assert (startsWith (absPath D) file = true) as Hstarts.
  { unfold file. rewrite <- (sapp_nil_r (absPath (D ++ _))).
    apply startsWith_absPath. }
  assert (PathName.extname file = "." +:+ e) as Hext.
  { unfold file. rewrite app_assoc.
    destruct (absPath_snoc (D ++ dirs)) as [d Hd]. rewrite Hd.
    apply (extname_file (d +:+ "/") stem e); try done. right. by exists d. }
  assert (String.eqb (absPath (dirs ++ [name])) "/" = false) as Hreq.
  { apply String.eqb_neq. destruct (absPath_snoc dirs) as [d Hd]. rewrite Hd.
    intros E. apply (f_equal String.length) in E. rewrite !length_sapp in E.
    apply cleanSeg_kept in Hname as (Hn & _). destruct name; [done |].
    simpl in E. lia. }
  split.
  - unfold serveStatic. rewrite Hreq. cbv zeta.
    by rewrite Hjoin, Hstarts, Hstat, Hext.
  - unfold serveStatic_server. cbv zeta.
    change (nonEmpty (absPath (dirs ++ [name]))) with true. cbv iota.
    assert (Path.normalize file = file) as Hn by (by apply normalize_absPath).
    by rewrite Hreq, Hjoin, !Hn, Hstarts, Hstat, Hext.
Qed.

Lemma content_type_by_extension_witness :
  serveStatic "/srv/app" (fileAt "/srv/app/img/logo.PNG") "/img/logo.PNG"
  = Served "application/octet-stream" "/srv/app/img/logo.PNG"
  ∧ serveStatic_server "/srv/app" (fileAt "/srv/app/img/logo.PNG") "/img/logo.PNG"
    = Served "image/png" "/srv/app/img/logo.PNG".
Proof.
  apply (content_type_by_extension ["srv"; "app"] ["img"] "logo" "PNG"
           (fileAt "/srv/app/img/logo.PNG"));
    [by repeat constructor | by repeat constructor | done | reflexivity | done
    | reflexivity | reflexivity | reflexivity].
Defined.

(** ** Flow names that climb out of the data directory *)

Section ClimbingFlowFacts.

Implicit Types (D : list string) (x pre a b : string).

Lemma startsWith_cancel pre a b : startsWith (pre +:+ a) (pre +:+ b) = startsWith a b.
Proof.
  induction pre as [|c pre IH]; [done |]. simpl. by rewrite Ascii.eqb_refl.
Qed.

Lemma startsWith_last D a b :
  startsWith (absPath (D ++ [a])) (absPath (D ++ [b])) = startsWith a b.
Proof.
  destruct (absPath_snoc D) as [d Hd]. rewrite !Hd. apply startsWith_cancel.
Qed.

End ClimbingFlowFacts.

(** A flow name of two dots, a slash and a name without a slash
    leaves the data directory: the router reads the file of that name
    beside the data directory whatever the name is, and server.js
    reads it when the name starts with the letters of the name of the
    data directory, and reads nothing otherwise. *)
Theorem dotdot_flow_leaves_data (D : list string) (x : string)
    (readFile : string → readResult) :
  Forall (λ seg, cleanSeg seg = true) D → without Path.slash x = true →
  let file := absPath (D ++ [x +:+ ".csv"]) in
  (handleColumns (absPath D) readFile GET (Some ("../" +:+ x))).2 = [file]
  ∧ (handleApiColumns (absPath D) readFile GET (Some ("../" +:+ x))).2
    = (if startsWith "data" (x +:+ ".csv") then [file] else [])
  ∧ ¬ Path.below (DATA_DIR (absPath D)) file.
Proof.
  intros HD Hx file.
  pose proof (csv_name_clean x Hx) as Hname.
  assert (Forall (λ seg, cleanSeg seg = true) (D ++ [x +:+ ".csv"])) as Hfile
    by (apply Forall_app; split; [done | by repeat constructor]).
  assert (Forall (λ seg, cleanSeg seg = true) (D ++ ["data"])) as Hdata
    by (apply Forall_app; split; [done | by repeat constructor]).
  assert (Path.join2 (DATA_DIR (absPath D)) (("../" +:+ x) +:+ ".csv") = file)
    as Hjoin.
  { rewrite data_dir by done. by apply (join2_dotdot_name D "data"). }
  assert (startsWith (DATA_DIR (absPath D)) file = startsWith "data" (x +:+ ".csv"))
    as Hstarts.
  { rewrite data_dir by done. apply startsWith_last. }
  split; [| split].
  - rewrite handleColumns_path by done. by rewrite Hjoin.
  - unfold handleApiColumns. cbv zeta. cbv iota beta.
    change (match "../" +:+ x with "" => ?a | String _ _ => ?b end) with b.
    assert (Path.normalize file = file) as Hn by (by apply normalize_absPath).
    rewrite Hjoin, !Hn, Hstarts.
    by destruct (startsWith "data" (x +:+ ".csv")).
  - intros (more & Hmore & Hparts). unfold file in Hparts.
    rewrite data_dir, !parts_absPath in Hparts by done.
    rewrite <- app_assoc in Hparts. apply app_inv_head in Hparts.
    injection Hparts as _ Hparts. by subst more.
Qed.

Lemma dotdot_flow_leaves_data_witness :
  (handleColumns "/srv/app" (oneFile "" "") GET (Some "../database")).2
    = ["/srv/app/database.csv"]
  ∧ (handleApiColumns "/srv/app" (oneFile "" "") GET (Some "../database")).2
    = ["/srv/app/database.csv"]
  ∧ ¬ Path.below (DATA_DIR "/srv/app") "/srv/app/database.csv".
Proof.
  apply (dotdot_flow_leaves_data ["srv"; "app"] "database" (oneFile "" ""));
    [by repeat constructor | reflexivity].
Defined.

(** ** Normalizing twice *)

Section NormalFacts.

Implicit Types (p root rel seg : string) (S M acc : list string).

Lemma normalizeStep_clean_acc acc seg :
  without Path.slash seg = true →
  Forall (λ seg, cleanSeg seg = true) acc →
  Forall (λ seg, cleanSeg seg = true) (Path.normalizeStep false acc seg).
Proof.
  intros Hseg Hacc. unfold Path.normalizeStep.
  destruct (String.eqb seg "" || String.eqb seg ".") eqn:E; [done |].
  apply orb_false_elim in E as [E1 E2].
  destruct (String.eqb seg "..") eqn:E3.
  - destruct Hacc as [|prev before Hprev Hbefore]; [constructor |].
    apply cleanSeg_kept in Hprev as (_ & _ & -> & _). done.
  - constructor; [|done]. unfold cleanSeg. rewrite E2, E3, Hseg.
    by destruct seg.
Qed.

(** What is left of the segments of an absolute path are segments of
    a normal path. *)
Lemma normalizeSegments_clean S :
  Forall (λ seg, without Path.slash seg = true) S →
  Forall (λ seg, cleanSeg seg = true) (Path.normalizeSegments false S).
Proof.
  intros HS. unfold Path.normalizeSegments. apply Forall_rev.
  assert (∀ acc, Forall (λ seg, cleanSeg seg = true) acc →
            Forall (λ seg, cleanSeg seg = true)
              (foldl (Path.normalizeStep false) acc S)) as H; [|by apply H].
  induction HS as [|seg S Hseg _ IH]; intros acc Hacc; [done |].
  simpl. by apply IH, normalizeStep_clean_acc.
Qed.

Lemma join_empty M :
  Forall (λ seg, cleanSeg seg = true) M → nonEmpty (join "/" M) = false → M = [].
Proof.
  intros HM H. destruct M as [|a M]; [done |].
  by rewrite nonEmpty_join in H.
Qed.

(** [path.normalize] of an absolute path: a normal absolute path,
    with a slash after it when the path ends with one. *)
Lemma normalize_absolute p :
  Path.isAbsolute p = true →
  ∃ M t, Forall (λ seg, cleanSeg seg = true) M
         ∧ Path.normalize p = absPath M +:+ t
         ∧ (t = "" ∨ t = "/" ∧ M ≠ []).
Proof.
  intros Habs. unfold Path.normalize.
  assert (nonEmpty p = true) as -> by (by destruct p).
  rewrite Habs. cbn [negb].
  pose proof (normalizeSegments_clean _ (segments_no_slash p)) as HM.
  set (M := Path.normalizeSegments false (Path.segments p)) in *. clearbody M.
  exists M. destruct (nonEmpty (join "/" M)) eqn:Hbody; cbn [negb].
  - destruct (Path.trailingSeparator p).
    + exists "/". split; [done |]. split; [unfold absPath; by rewrite sapp_assoc |].
      right. split; [done |]. by intros ->.
    + exists "". split; [done |]. split; [by rewrite sapp_nil_r | by left].
  - exists "". split; [done |]. split; [| by left].
    by rewrite (join_empty M HM Hbody).
Qed.

Lemma normalize_idem p :
  Path.isAbsolute p = true → Path.normalize (Path.normalize p) = Path.normalize p.
Proof.
  intros (M & t & HM & -> & [-> | [-> Hne]])%normalize_absolute.
  - rewrite sapp_nil_r. by apply normalize_absPath.
  - by apply normalize_slash.
Qed.

Lemma isAbsolute_app root rel :
  Path.isAbsolute root = true → Path.isAbsolute (root +:+ rel) = true.
Proof. by destruct root. Qed.

(** What [path.join] gives for an absolute first path is normal
    already. *)
Lemma join2_idem root rel :
  Path.isAbsolute root = true →
  Path.normalize (Path.join2 root rel) = Path.join2 root rel.
Proof.
  intros Habs. unfold Path.join2.
  assert (nonEmpty root = true) as -> by (by destruct root).
  destruct (nonEmpty rel); apply normalize_idem; [|done].
  by apply isAbsolute_app.
Qed.

Lemma join2_absolute root rel :
  Path.isAbsolute root = true → Path.isAbsolute (Path.join2 root rel) = true.
Proof.
  intros Habs. unfold Path.join2.
  assert (nonEmpty root = true) as -> by (by destruct root).
  assert (∀ p, Path.isAbsolute p = true → Path.isAbsolute (Path.normalize p) = true)
    as H by (by intros p (M & t & _ & -> & _)%normalize_absolute).
  destruct (nonEmpty rel); apply H; [|done]. by apply isAbsolute_app.
Qed.

End NormalFacts.

(** The [path.normalize] that server.js puts after [path.join] changes
    nothing: for every request with a path, the two servers refuse
    together, miss together, and serve the same file. *)
Theorem static_servers_agree (ROOT : string) (stat : string → option statResult)
    (pathname : string) :
  Path.isAbsolute ROOT = true → pathname ≠ "" →
  match serveStatic ROOT stat pathname, serveStatic_server ROOT stat pathname with
  | Forbidden, Forbidden => True
  | NotFound, NotFound => True
  | Served _ file, Served _ file' => file = file'
  | _, _ => False
  end.
Proof.
  intros Habs Hne. unfold serveStatic, serveStatic_server.
  assert (nonEmpty pathname = true) as -> by (by destruct pathname).
  cbv zeta. rewrite join2_idem by done.
  destruct (negb _); [done |]. by destruct (stat _) as [[|]|].
Qed.

Lemma static_servers_agree_witness :
  match serveStatic "/srv/app" (fileAt "/srv/app/tracker.html") "/",
        serveStatic_server "/srv/app" (fileAt "/srv/app/tracker.html") "/" with
  | Forbidden, Forbidden => True
  | NotFound, NotFound => True
  | Served _ file, Served _ file' => file = file'
  | _, _ => False
  end.
Proof.
  apply (static_servers_agree "/srv/app" (fileAt "/srv/app/tracker.html") "/");
    [reflexivity | done].
Defined.

(** The same holds for the columns of a flow: with the server in an
    absolute directory, server.js reads the file that the router
    reads for the request, or turns the request down and reads
    nothing. *)
Theorem column_reads_agree (dirname : string) (readFile : string → readResult)
    (m : method) (flow : option string) :
  Path.isAbsolute dirname = true →
  (handleApiColumns dirname readFile m flow).2 = []
  ∨ (handleApiColumns dirname readFile m flow).2
    = (handleColumns dirname readFile m flow).2.
Proof.
  intros Habs. destruct m; try by left.
  destruct flow as [[|c flow]|]; try by left.
  unfold handleApiColumns, handleColumns. cbv zeta. cbv iota beta.
  rewrite join2_idem by (by apply join2_absolute).
  destruct (negb _); [by left | by right].
Qed.

Lemma column_reads_agree_witness :
  (handleApiColumns "/srv/app" (oneFile "" "") GET (Some "a/../plan")).2 = []
  ∨ (handleApiColumns "/srv/app" (oneFile "" "") GET (Some "a/../plan")).2
    = (handleColumns "/srv/app" (oneFile "" "") GET (Some "a/../plan")).2.
Proof.
  apply (column_reads_agree "/srv/app" (oneFile "" "") GET (Some "a/../plan")).
  reflexivity.
Defined.

(** ** Requests of the reporting router *)

Section RequestFacts.

Implicit Types (chunks : list (N * string)) (buf p : string).

Lemma readChunks_from chunks (size : N) buf :
  (size ≤ maxBytes)%N →
  readChunks chunks size buf =
    if (size + bodyBytes chunks <=? maxBytes)%N
    then inr (buf +:+ bodyText chunks)
    else inl (Message "Body too large").
Proof.
  revert size buf. induction chunks as [|[len text] chunks IH]; intros size buf Hsize.
  - cbn [readChunks bodyBytes bodyText fmap list_fmap foldr].
    rewrite N.add_0_r, sapp_nil_r.
    by rewrite (proj2 (N.leb_le _ _) Hsize).
  - cbn [readChunks]. unfold bodyBytes, bodyText. csimpl.
    fold (bodyBytes chunks). fold (bodyText chunks).
    destruct (maxBytes <? size + len)%N eqn:E.
    + apply N.ltb_lt in E.
      assert ((size + (len + bodyBytes chunks) <=? maxBytes)%N = false) as ->
        by (apply N.leb_gt; lia).
      done.
    + apply N.ltb_ge in E. rewrite IH by done.
      by rewrite N.add_assoc, sapp_assoc.
Qed.

Lemma resolve_normal (cwd p : string) :
  Path.isAbsolute cwd = true →
  ∃ M, Forall (λ seg, cleanSeg seg = true) M ∧ resolve cwd p = absPath M.
Proof.
  intros Hcwd. unfold resolve.
  set (full := if Path.isAbsolute p then p +:+ "/" else cwd +:+ "/" +:+ p +:+ "/").
  assert (Path.isAbsolute full = true) as ->.
  { unfold full. destruct (Path.isAbsolute p) eqn:E; by apply isAbsolute_app. }
  cbn [negb]. eexists. split; [|reflexivity].
  apply normalizeSegments_clean, segments_no_slash.
Qed.

Lemma report_has_directory (dir : string) (base : option node)
    (kw : option string) (rep : report) :
  loadCombinedCsvs dir base kw = inr rep →
  baseDir (info rep) = dir ∧ ∃ entries, base = Some (Dir entries).
Proof.
  destruct base as [[text|entries|]|]; try done.
  rewrite loadCombinedCsvs_unfold. cbv zeta.
  repeat case_bool_decide; try done.
  intros [= <-]. split; [done | by eexists].
Qed.

End RequestFacts.

(** A body goes through exactly when its chunks have no more than ten
    times 1024 times 1024 bytes together, and then the texts of its
    chunks are read one after the other; the check of the size at
    every chunk is a check of the whole. *)
Theorem body_size_limit (chunks : list (N * string)) :
  readChunks chunks 0 "" =
    if (bodyBytes chunks <=? 10 * 1024 * 1024)%N
    then inr (bodyText chunks)
    else inl (Message "Body too large").
Proof. by rewrite readChunks_from. Qed.

(** A report is sent only for a directory that is there, and names it
    by the normal absolute path that [path.resolve] makes of the
    trimmed [baseDir] of the body. *)
Theorem report_base_is_resolved (JSON_parse : string → option jsval)
    (cwd dirname : string) (fs : string → option node)
    (readFile : string → option string) (meth pathname : string)
    (chunks : list (N * string)) (errored : bool) (out : report) :
  Path.isAbsolute cwd = true →
  handleRequest JSON_parse cwd dirname fs readFile meth pathname chunks errored
    = Report out →
  ∃ M entries,
    Forall (λ seg, cleanSeg seg = true) M
    ∧ baseDir (info out) = absPath M
    ∧ fs (absPath M) = Some (Dir entries).
Proof.
  intros Hcwd. unfold handleRequest, route. cbv zeta.
  destruct (_ && _).
  { unfold serveIndexHtml. by destruct (readFile _). }
  destruct (_ && _); [| by destruct (String.eqb _ _)].
  unfold handleApiReports.
  destruct (readJsonBody _ _ _) as [e|body]; [done |].
  destruct (member "baseDir" body) as [e|value]; [done |].
  unfold safeResolveBaseDir.
  destruct value as [[| | |s| |]|]; try done. cbv zeta.
  destruct (negb _); [done |].
  destruct (member "startKeyword" body) as [e|keyword]; [done |]. cbv zeta.
  destruct (resolve_normal cwd (trim s) Hcwd) as (M & HM & ->).
  destruct (loadCombinedCsvs _ _ _) as [e|rep] eqn:E; [done |].
  intros [= <-]. apply report_has_directory in E as [Hbase [entries Hfs]].
  by exists M, entries.
Qed.

Lemma report_base_is_resolved_witness :
  ∃ M entries,
    Forall (λ seg, cleanSeg seg = true) M
    ∧ baseDir (info sampleReport) = absPath M
    ∧ dirAt "/srv/rep" sampleTree (absPath M) = Some (Dir entries).
Proof.
  apply (report_base_is_resolved
           (parsesTo (JObj [("baseDir", JStr " rep/./ ")])) "/srv" "/srv/app"
           (dirAt "/srv/rep" sampleTree) (λ _, None) "post" "/api/reports"
           [(20%N, "{ ... }")] false sampleReport).
  - reflexivity.
  - by vm_compute.
Defined.

(** A request for a report is answered that baseDir must be a string
    exactly when its body came whole and is blank, or is the text of
    a JSON value other than null that has no text for its baseDir;
    no other failure is answered with this message. *)
Theorem baseDir_must_be_string (JSON_parse : string → option jsval)
    (cwd dirname : string) (fs : string → option node)
    (readFile : string → option string) (chunks : list (N * string))
    (errored : bool) :
  handleRequest JSON_parse cwd dirname fs readFile "POST" "/api/reports"
      chunks errored
    = Failed (Message "baseDir must be a string")
  ↔ errored = false ∧ (bodyBytes chunks ≤ maxBytes)%N
    ∧ (trim (bodyText chunks) = ""
       ∨ ∃ v, JSON_parse (bodyText chunks) = Some v ∧ v ≠ JNull
              ∧ ∀ s, member "baseDir" v ≠ inr (Some (JStr s))).
Proof.
  unfold handleRequest, route. cbv zeta.
  change (toUpperCase (if nonEmpty "POST" then "POST" else "GET")) with "POST".
  change (String.eqb "POST" "GET") with false.
  change (String.eqb "POST" "POST") with true.
  change (String.eqb "/api/reports" "/api/reports") with true.
  cbn [andb orb]. unfold handleApiReports, readJsonBody.
  rewrite readChunks_from by done. rewrite N.add_0_l.
  change ("" +:+ bodyText chunks) with (bodyText chunks).
  destruct (bodyBytes chunks <=? maxBytes)%N eqn:Hsize.
  2: { apply N.leb_gt in Hsize. split; [done |]. intros (_ & H & _). lia. }
  apply N.leb_le in Hsize.
  destruct errored; [split; [done | by intros [? _]] |].
  set (buf := bodyText chunks).
  assert (∀ body,
    (∀ s, member "baseDir" body ≠ inr (Some (JStr s))) → body ≠ JNull →
    match
      match member "baseDir" body with
      | inl e => inl e
      | inr value =>
          match safeResolveBaseDir cwd value with
          | inl e => inl e
          | inr baseDir =>
              match member "startKeyword" body with
              | inl e => inl e
              | inr keyword =>
                  match loadCombinedCsvs baseDir (fs baseDir)
                          (Some match keyword with Some (JStr s) => s | _ => "" end)
                  with
                  | inl e => inl (reportError e)
                  | inr out => inr (Report out)
                  end
              end
          end
      end
    with inl e => Failed e | inr r => r end
    = Failed (Message "baseDir must be a string")) as Hyes.
  { intros body Hno Hnull. destruct (member "baseDir" body) as [e|value] eqn:E.
    - by destruct body.
    - destruct value as [[| | |s| |]|]; try done. by destruct (Hno s). }
  assert (∀ body s,
    member "baseDir" body = inr (Some (JStr s)) →
    match
      match member "baseDir" body with
      | inl e => inl e
      | inr value =>
          match safeResolveBaseDir cwd value with
          | inl e => inl e
          | inr baseDir =>
              match member "startKeyword" body with
              | inl e => inl e
              | inr keyword =>
                  match loadCombinedCsvs baseDir (fs baseDir)
                          (Some match keyword with Some (JStr s) => s | _ => "" end)
                  with
                  | inl e => inl (reportError e)
                  | inr out => inr (Report out)
                  end
              end
          end
      end
    with inl e => Failed e | inr r => r end
    ≠ Failed (Message "baseDir must be a string")) as Hno.
  { intros body s E. destruct body as [| | | | |members]; try done.
    rewrite E. unfold safeResolveBaseDir. cbv zeta.
    destruct (negb _); [done |]. cbn [member].
    destruct (loadCombinedCsvs _ _ _) as [[]|rep]; done. }
  destruct (nonEmpty (trim buf)) eqn:Hblank; cbn [negb].
  - destruct (JSON_parse buf) as [v|] eqn:Hparse.
    + split.
      * intros H. split; [done |]. split; [done |]. right. exists v.
        split; [done |]. split; [by intros -> |].
        intros s E. by apply (Hno v s E).
      * intros (_ & _ & [Hb | (v' & [= <-] & Hnull & Hmem)]); [by rewrite Hb in Hblank |].
        by apply Hyes.
    + split; [done |].
      intros (_ & _ & [Hb | (v' & ? & _)]); [by rewrite Hb in Hblank | done].
  - split; [|done]. intros _. split; [done |]. split; [done |]. left.
    by destruct (trim buf).
Qed.
